(** * yokel: linking local npm packages and mirroring the links in package.json

    A shallow embedding of [src/index.js] and the properties of its
    install, bulk-install and unlink commands.

    Conventions of the embedding.

    - A JavaScript value is a [value]: what [JSON.parse] returns, plus
      [undefined] and the two things the program can do to an array in memory
      (leave a hole, attach a named property).
    - A number is carried by the text [String(n)] gives for it; only its
      truthiness and that text are ever used by the program.  [0] and [-0]
      coincide.  A literal too large for a double parses to [Infinity],
      which [JSON.stringify] writes as [null] ([JS.json_roundtrip]).
    - A string is a sequence of code units, one character of a [string]
      for each.
    - An object is the list of its own properties in enumeration order
      (array-index keys ascending, then the other keys as created).  Of the
      prototype chain the embedding has what the program can meet: the
      setter of [__proto__] an assignment reaches ([JS.set]), the
      [toString] a conversion to a string looks up ([JS.converts]); the
      reads of inherited properties are accounted for at [JS.get].
    - The file is an ES module, hence strict code: writing a property of a
      primitive (but under [__proto__]) and deleting a non-configurable
      property throw [TypeError].
    - The file system, [node:path] and the [npm] subprocess are outside the
      program: they are the fields of the class [Env], over which every
      definition and theorem is stated.
      Spinners, colours and progress lines are presentation and are left
      out, but for the conversion to a string of the values they print,
      which can throw; the lines that carry data (the per-entry failure of
      a bulk install, its summary, the lines of [list]) are kept. *)

From Stdlib Require Import String Ascii List Bool Arith NArith Lia DecimalString.
Import ListNotations.
Local Open Scope string_scope.
Local Open Scope list_scope.
Set Warnings "-register-all".

(** ** JavaScript values *)

Inductive value : Type :=
| VUndef
| VNull
| VBool (b : bool)
| VNum (repr : string)
| VStr (s : string)
| VArr (elems : list value) (named : list (string * value))
| VObj (props : list (string * value)).

(** Induction on a value with the hypothesis for every element and every
    property value. *)
Section ValueInduction.

Variable P : value -> Prop.
Hypothesis HUndef : P VUndef.
Hypothesis HNull : P VNull.
Hypothesis HBool : forall b, P (VBool b).
Hypothesis HNum : forall r, P (VNum r).
Hypothesis HStr : forall s, P (VStr s).
Hypothesis HArr : forall es named,
    Forall P es -> Forall (fun p => P (snd p)) named -> P (VArr es named).
Hypothesis HObj : forall ps, Forall (fun p => P (snd p)) ps -> P (VObj ps).

Fixpoint value_nested_ind (v : value) : P v :=
  let props :=
    fix props (l : list (string * value)) : Forall (fun p => P (snd p)) l :=
      match l with
      | [] => Forall_nil _
      | (k, x) :: tl => Forall_cons (k, x) (value_nested_ind x) (props tl)
      end in
  match v with
  | VUndef => HUndef
  | VNull => HNull
  | VBool b => HBool b
  | VNum r => HNum r
  | VStr s => HStr s
  | VArr es named =>
      HArr es named
        ((fix elems (l : list value) : Forall P l :=
            match l with
            | [] => Forall_nil _
            | x :: tl => Forall_cons x (value_nested_ind x) (elems tl)
            end) es)
        (props named)
  | VObj ps => HObj ps (props ps)
  end.

End ValueInduction.

(** Errors the program can raise.  The last three are the [new Error(...)]
    of the source, told apart by their message. *)
Inductive error : Type :=
| TypeError
| RangeError
| SyntaxError (packageJsonPath : string)
| ReadError (packageJsonPath : string)
| WriteError (packageJsonPath : string)
| ExecError (command : string) (args : list value) (cwd : string)
| PathDoesNotExist (absolutePath : string)
| NoPackageJsonFound (packageJsonPath : string)
| NoPackageNameFound (packageJsonPath : string).

Inductive result (A : Type) : Type :=
| Ok (a : A)
| Throw (e : error).
Arguments Ok {A} a.
Arguments Throw {A} e.

Module JS.

(** [ToBoolean]. *)
Definition truthy (v : value) : bool :=
  match v with
  | VUndef | VNull => false
  | VBool b => b
  | VNum r => negb (r =? "0")
  | VStr s => negb (s =? "")
  | VArr _ _ | VObj _ => true
  end.

(** The number [n] as a value. *)
Definition of_N (n : N) : value := VNum (NilEmpty.string_of_uint (N.to_uint n)).

(** An array index: a canonical numeric string below [2^32 - 1]. *)
Definition array_index (k : string) : option N :=
  match NilEmpty.uint_of_string k with
  | Some u =>
      let n := N.of_uint u in
      if (NilEmpty.string_of_uint (N.to_uint n) =? k) && (n <? 4294967295)%N
      then Some n else None
  | None => None
  end.

(** *** Own properties of an object *)

Fixpoint lookup (k : string) (ps : list (string * value)) : option value :=
  match ps with
  | [] => None
  | (k', v) :: tl => if k' =? k then Some v else lookup k tl
  end.

Fixpoint replace (k : string) (v : value) (ps : list (string * value))
  : list (string * value) :=
  match ps with
  | [] => []
  | (k', v') :: tl =>
      if k' =? k then (k', v) :: tl else (k', v') :: replace k v tl
  end.

(** A new array-index key goes among the index keys, in ascending order. *)
Fixpoint insert_index (i : N) (k : string) (v : value)
  (ps : list (string * value)) : list (string * value) :=
  match ps with
  | [] => [(k, v)]
  | (k', v') :: tl =>
      match array_index k' with
      | Some j => if (j <? i)%N then (k', v') :: insert_index i k v tl
                  else (k, v) :: ps
      | None => (k, v) :: ps
      end
  end.

Definition define (k : string) (v : value) (ps : list (string * value))
  : list (string * value) :=
  match lookup k ps with
  | Some _ => replace k v ps
  | None =>
      match array_index k with
      | Some i => insert_index i k v ps
      | None => ps ++ [(k, v)]
      end
  end.

Definition remove (k : string) (ps : list (string * value))
  : list (string * value) :=
  filter (fun p => negb (fst p =? k)) ps.

Definition or_undefined (o : option value) : value :=
  match o with Some v => v | None => VUndef end.

Definition has (k : string) (ps : list (string * value)) : bool :=
  match lookup k ps with Some _ => true | None => false end.

(** *** Conversion to a string

    [ToString], as a template literal, a computed property key and the
    [chalk] functions (which prepend the empty string to their argument)
    apply it.  An object converts through the [toString] it has or
    inherits.  An own property of that name holds a JSON value, which
    cannot be called; the inherited [valueOf] then returns the object
    itself, and the conversion throws [TypeError].  An array inherits a
    [toString] that joins its elements, each converted in turn, unless an
    own [join] hides the inherited one: then it is [[object Array]]. *)
Fixpoint converts (v : value) : bool :=
  match v with
  | VUndef | VNull | VBool _ | VNum _ | VStr _ => true
  | VArr es named =>
      negb (has "toString" named)
      && (has "join" named
          || (fix all (l : list value) : bool :=
                match l with
                | [] => true
                | x :: tl => converts x && all tl
                end) es)
  | VObj ps => negb (has "toString" ps)
  end.

(** The string of a value that converts. *)
Fixpoint to_string (v : value) : string :=
  match v with
  | VUndef => "undefined"
  | VNull => "null"
  | VBool true => "true"
  | VBool false => "false"
  | VNum r => r
  | VStr s => s
  | VArr es named =>
      if has "join" named then "[object Array]"
      else
        (fix join (l : list value) : string :=
           match l with
           | [] => ""
           | x :: tl =>
               let sx := match x with
                         | VUndef | VNull => ""
                         | _ => to_string x
                         end in
               match tl with
               | [] => sx
               | _ :: _ => (sx ++ "," ++ join tl)%string
               end
           end) es
  | VObj _ => "[object Object]"
  end.

(** The conversion as the program runs it. *)
Definition to_text (v : value) : result string :=
  if converts v then Ok (to_string v) else Throw TypeError.

(** *** Elements of an array *)

Fixpoint set_nth (n : nat) (v : value) (l : list value) : list value :=
  match l, n with
  | [], _ => []
  | _ :: tl, O => v :: tl
  | x :: tl, S m => x :: set_nth m v tl
  end.

Definition array_put (i : N) (v : value) (es : list value) : list value :=
  let n := N.to_nat i in
  if (n <? length es)%nat then set_nth n v es
  else es ++ repeat VUndef (n - length es) ++ [v].

(** *** [o[k]], [o[k] = v] and [delete o[k]] in strict code *)

(** A read finds own properties; an inherited one reads as [undefined].
    The program reads the keys [name], [version], [dependencies] and
    [localDependencies], which no prototype has, and it reads a computed
    key in one place only, the guard of a [delete] (index.js 280, 284):
    there a key that is not an own property leaves nothing to delete,
    whatever the guard finds. *)
Definition get (o : value) (k : string) : result value :=
  match o with
  | VUndef | VNull => Throw TypeError
  | VBool _ | VNum _ => Ok VUndef
  | VStr s =>
      match array_index k with
      | Some i =>
          match String.get (N.to_nat i) s with
          | Some c => Ok (VStr (String c ""))
          | None => Ok VUndef
          end
      | None =>
          if k =? "length" then Ok (of_N (N.of_nat (String.length s)))
          else Ok VUndef
      end
  | VArr es named =>
      match array_index k with
      | Some i => Ok (nth (N.to_nat i) es VUndef)
      | None =>
          if k =? "length" then Ok (of_N (N.of_nat (length es)))
          else Ok (or_undefined (lookup k named))
      end
  | VObj ps => Ok (or_undefined (lookup k ps))
  end.

(** The key [__proto__], unless it is an own property (as [JSON.parse]
    creates it), reaches the setter every object inherits.  The setter
    ignores a value that is neither an object nor [null]; under a computed
    key the program assigns caret-prefixed strings only, and the two keys
    under which it assigns an empty object are constants. *)
Definition assign (k : string) (v : value) (ps : list (string * value))
  : list (string * value) :=
  if (k =? "__proto__") && negb (has k ps) then ps else define k v ps.

(** On a primitive the inherited setter runs as well, and nothing throws.
    Assigning an array's [length] throws [RangeError] for every value this
    program assigns (an empty object, a caret-prefixed string): none of them
    converts to a length. *)
Definition set (o : value) (k : string) (v : value) : result value :=
  match o with
  | VUndef | VNull => Throw TypeError
  | VBool _ | VNum _ | VStr _ =>
      if k =? "__proto__" then Ok o else Throw TypeError
  | VArr es named =>
      match array_index k with
      | Some i => Ok (VArr (array_put i v es) named)
      | None =>
          if k =? "length" then Throw RangeError
          else Ok (VArr es (assign k v named))
      end
  | VObj ps => Ok (VObj (assign k v ps))
  end.

Definition delete (o : value) (k : string) : result value :=
  match o with
  | VUndef | VNull => Throw TypeError
  | VBool _ | VNum _ => Ok o
  | VStr s =>
      match array_index k with
      | Some i => if (N.to_nat i <? String.length s)%nat then Throw TypeError else Ok o
      | None => if k =? "length" then Throw TypeError else Ok o
      end
  | VArr es named =>
      match array_index k with
      | Some i =>
          if (N.to_nat i <? length es)%nat
          then Ok (VArr (set_nth (N.to_nat i) VUndef es) named)
          else Ok o
      | None =>
          if k =? "length" then Throw TypeError
          else Ok (VArr es (remove k named))
      end
  | VObj ps => Ok (VObj (remove k ps))
  end.

(** [Object.entries]: own enumerable string-keyed properties. *)
Fixpoint index_entries (i : N) (es : list value) : list (string * value) :=
  match es with
  | [] => []
  | x :: tl =>
      let rest := index_entries (N.succ i) tl in
      match x with
      | VUndef => rest
      | _ => (to_string (of_N i), x) :: rest
      end
  end.

Fixpoint char_entries (i : N) (s : string) : list (string * value) :=
  match s with
  | EmptyString => []
  | String c tl =>
      (to_string (of_N i), VStr (String c "")) :: char_entries (N.succ i) tl
  end.

Definition entries (o : value) : result (list (string * value)) :=
  match o with
  | VUndef | VNull => Throw TypeError
  | VBool _ | VNum _ => Ok []
  | VStr s => Ok (char_entries 0 s)
  | VArr es named => Ok (index_entries 0 es ++ named)
  | VObj ps => Ok ps
  end.

(** The numbers [JSON.stringify] has no text for. *)
Definition finite (repr : string) : bool :=
  negb ((repr =? "Infinity") || (repr =? "-Infinity") || (repr =? "NaN")).

(** [JSON.parse (JSON.stringify v)] for [v] other than [undefined]: a
    number that is not finite, a hole and an [undefined] element become
    [null], named properties of arrays and [undefined]-valued properties
    are dropped. *)
Fixpoint json_roundtrip (v : value) : value :=
  match v with
  | VNum r => if finite r then v else VNull
  | VArr es _ =>
      VArr ((fix elems (l : list value) : list value :=
               match l with
               | [] => []
               | x :: tl =>
                   match x with
                   | VUndef => VNull
                   | _ => json_roundtrip x
                   end :: elems tl
               end) es) []
  | VObj ps =>
      VObj ((fix props (l : list (string * value)) : list (string * value) :=
               match l with
               | [] => []
               | (k, x) :: tl =>
                   match x with
                   | VUndef => props tl
                   | _ => (k, json_roundtrip x) :: props tl
                   end
               end) ps)
  | _ => v
  end.

(** A key that is neither an array index nor [length] nor [__proto__]:
    an assignment under it defines an own property, on an array too. *)
Definition plain_key (k : string) : Prop :=
  array_index k = None /\ k <> "length" /\ k <> "__proto__".

(** The values [JSON.parse] returns, [Infinity] among them. *)
Fixpoint is_json (v : value) : bool :=
  match v with
  | VUndef => false
  | VNull | VBool _ | VNum _ | VStr _ => true
  | VArr es named =>
      (fix all (l : list value) : bool :=
         match l with
         | [] => true
         | x :: tl => is_json x && all tl
         end) es
      && match named with [] => true | _ :: _ => false end
  | VObj ps =>
      (fix all (l : list (string * value)) : bool :=
         match l with
         | [] => true
         | (_, x) :: tl => is_json x && all tl
         end) ps
  end.

(** The values a write followed by a read gives back as they are: those
    [JSON.parse] returns in which every number is finite. *)
Fixpoint stable (v : value) : bool :=
  match v with
  | VUndef => false
  | VNull | VBool _ | VStr _ => true
  | VNum r => finite r
  | VArr es named =>
      (fix all (l : list value) : bool :=
         match l with
         | [] => true
         | x :: tl => stable x && all tl
         end) es
      && match named with [] => true | _ :: _ => false end
  | VObj ps =>
      (fix all (l : list (string * value)) : bool :=
         match l with
         | [] => true
         | (_, x) :: tl => stable x && all tl
         end) ps
  end.

End JS.

(** ** The world of the program *)

(** What a path of the file system holds: a directory, or a file whose text
    parses to a JSON value ([None]: the text is not JSON). *)
Inductive node : Type :=
| NDir
| NFile (content : option value).

Definition fs : Type := string -> option node.

Definition fs_write (f : fs) (p : string) (n : node) : fs :=
  fun q => if q =? p then Some n else f q.

(** The path [p] is left holding [n], or nothing. *)
Definition fs_leave (f : fs) (p : string) (n : option node) : fs :=
  fun q => if q =? p then n else f q.

(** What the program does to the outside, in order. *)
Inductive event : Type :=
| EExec (command : string) (args : list value) (cwd : string)
| EWrite (packageJsonPath : string) (packageData : value)
| EFailed (e : error).

Record world : Type := mkWorld { w_fs : fs; w_log : list event }.

Definition emit (ev : event) (w : world) : world :=
  mkWorld (w_fs w) (w_log w ++ [ev]).

(** *** Computations that read and change the world and may throw *)

Definition Comp (A : Type) : Type := world -> result A * world.

Definition ret {A} (a : A) : Comp A := fun w => (Ok a, w).

Definition throw {A} (e : error) : Comp A := fun w => (Throw e, w).

Definition bind {A B} (m : Comp A) (k : A -> Comp B) : Comp B :=
  fun w =>
    match m w with
    | (Ok a, w') => k a w'
    | (Throw e, w') => (Throw e, w')
    end.

Definition rbind {A B} (r : result A) (k : A -> result B) : result B :=
  match r with
  | Ok a => k a
  | Throw e => Throw e
  end.

Definition lift {A} (r : result A) : Comp A := fun w => (r, w).

Notation "x <- m ;; k" := (bind m (fun x => k))
  (at level 61, m at next level, right associativity).
Notation "x <~ r ;; k" := (rbind r (fun x => k))
  (at level 61, r at next level, right associativity).

(** How a command ends: normally, or through [process.exit(1)] after the
    error was printed. *)
Inductive outcome (A : Type) : Type :=
| Done (a : A)
| Exit1 (e : error).
Arguments Done {A} a.
Arguments Exit1 {A} e.

Definition run {A} (m : Comp A) : world -> outcome A * world :=
  fun w =>
    match m w with
    | (Ok a, w') => (Done a, w')
    | (Throw e, w') => (Exit1 e, w')
    end.

(** The identity a link resolves to: [{ name, version, path }]. *)
Record depInfo : Type := mkDepInfo { name : value; version : value; path : string }.

(** What a bulk install prints at its end. *)
Inductive report : Type :=
| NoLocalDependencies
| Summary (successCount failureCount : nat).

(** The variables of the loop of [installAll]. *)
Record loop : Type := mkLoop {
  packageJson : value;
  successCount : nat;
  failureCount : nat
}.

(** ** Manifest mutations

    The in-memory halves of [updatePackageJson], of the loop body of
    [installAll] and of [unlinkDependency].  A nested object is mutated
    through the reference read from its parent: the parent is rebuilt with
    the mutated child under the same key. *)

(** [if (!o[k]) { o[k] = {} }] *)
Definition init_field (o : value) (k : string) : result value :=
  d <~ JS.get o k ;;
  if JS.truthy d then Ok o else JS.set o k (VObj []).

(** [o[k][key] = v] *)
Definition assign_in (o : value) (k key : string) (v : value) : result value :=
  d <~ JS.get o k ;;
  d' <~ JS.set d key v ;;
  JS.set o k d'.

(** [if (o[k] && o[k][key]) { delete o[k][key] }] *)
Definition delete_in (o : value) (k key : string) : result value :=
  d <~ JS.get o k ;;
  if JS.truthy d then
    x <~ JS.get d key ;;
    if JS.truthy x then
      d' <~ JS.delete d key ;;
      JS.set o k d'
    else Ok o
  else Ok o.

(** The guard of [delete_in] is false: there is nothing to delete. *)
Definition settled (o : value) (k key : string) : Prop :=
  exists d, JS.get o k = Ok d /\
    (JS.truthy d = false \/
     exists x, JS.get d key = Ok x /\ JS.truthy x = false).

(** The template literal [`^${version}`], for a version that converts. *)
Definition caret (version : value) : value :=
  VStr ("^" ++ JS.to_string version)%string.

(** index.js 142-153.  The name and the version of [d] convert: a
    [depInfo] is what [linkLocalDependency] returns, after index.js 109
    has printed both. *)
Definition applyInstall (packageJson : value) (d : depInfo) : result value :=
  packageJson <~ init_field packageJson "dependencies" ;;
  packageJson <~ init_field packageJson "localDependencies" ;;
  packageJson <~
    assign_in packageJson "dependencies" (JS.to_string (name d))
      (caret (version d)) ;;
  assign_in packageJson "localDependencies" (path d) (caret (version d)).

(** index.js 280-286.  The name converts: index.js 269 has printed it. *)
Definition applyUninstall (packageJson : value) (depName : value)
  (localPath : string) : result value :=
  packageJson <~
    delete_in packageJson "dependencies" (JS.to_string depName) ;;
  delete_in packageJson "localDependencies" localPath.

(** ** The program *)

(** What the program takes from its environment. *)
Class Env : Type := {
  (** [path.resolve] and [path.join] of [node:path]. *)
  resolve : string -> string -> string;
  join : string -> string -> string;
  (** [execFile command args { cwd }]: whether the process exits with
      success, and the file system it leaves. *)
  execFile : string -> list value -> string -> fs -> bool * fs;
  (** Whether [writeFile] writes the path in full. *)
  writable : fs -> string -> bool;
  (** What a [writeFile] that fails leaves at the path: what was there,
      when the file could not be opened; the part written, which can be
      nothing, when it was opened, hence truncated. *)
  torn : fs -> string -> option node;
  (** [process.cwd()]. *)
  cwd : string
}.

Section Program.

Context {E : Env}.

(** Every call passes [{ cwd }] alone: no shell, no abort signal. *)
Definition execCommand (command : string) (args : list value)
  (dir : string) : Comp unit :=
  fun w =>
    let (ok, f) := execFile command args dir (w_fs w) in
    let w' := mkWorld f (w_log w ++ [EExec command args dir]) in
    if ok then (Ok tt, w') else (Throw (ExecError command args dir), w').

(** [access(p, F_OK)], with the error the caller throws in its place. *)
Definition access (p : string) (e : error) : Comp unit :=
  fun w =>
    match w_fs w p with
    | Some _ => (Ok tt, w)
    | None => (Throw e, w)
    end.

Definition readPackageJson (packagePath : string) : Comp value :=
  let packageJsonPath := join packagePath "package.json" in
  _ <- access packageJsonPath (NoPackageJsonFound packageJsonPath) ;;
  fun w =>
    match w_fs w packageJsonPath with
    | Some (NFile (Some v)) => (Ok v, w)
    | Some (NFile None) => (Throw (SyntaxError packageJsonPath), w)
    | _ => (Throw (ReadError packageJsonPath), w)
    end.

(** [JSON.stringify(undefined)] is [undefined]: the file then holds the
    text [undefined], which is not JSON. *)
Definition writePackageJson (packagePath : string) (packageData : value)
  : Comp unit :=
  let packageJsonPath := join packagePath "package.json" in
  fun w =>
    let w' := emit (EWrite packageJsonPath packageData) w in
    if writable (w_fs w) packageJsonPath then
      let content :=
        match packageData with
        | VUndef => None
        | _ => Some (JS.json_roundtrip packageData)
        end in
      (Ok tt, mkWorld (fs_write (w_fs w) packageJsonPath (NFile content))
                      (w_log w'))
    else
      (Throw (WriteError packageJsonPath),
       mkWorld (fs_leave (w_fs w) packageJsonPath
                  (torn (w_fs w) packageJsonPath))
               (w_log w')).

(** The worlds a write of a value other than [undefined] leaves: when it
    succeeds, and when it fails. *)
Definition written_world (dir : string) (v : value) (w : world) : world :=
  mkWorld (fs_write (w_fs w) (join dir "package.json")
             (NFile (Some (JS.json_roundtrip v))))
          (w_log w ++ [EWrite (join dir "package.json") v]).

Definition torn_world (dir : string) (v : value) (w : world) : world :=
  mkWorld (fs_leave (w_fs w) (join dir "package.json")
             (torn (w_fs w) (join dir "package.json")))
          (w_log w ++ [EWrite (join dir "package.json") v]).

(** The [catch] of the source reports through the spinner and rethrows.
    index.js 109 prints the name and the version before the first [npm]
    runs, which converts both. *)
Definition linkLocalDependency (localPath currentPath : string) : Comp depInfo :=
  let absolutePath := resolve currentPath localPath in
  _ <- access absolutePath (PathDoesNotExist absolutePath) ;;
  depPackageJson <- readPackageJson absolutePath ;;
  depName <- lift (JS.get depPackageJson "name") ;;
  depVersion <- lift (JS.get depPackageJson "version") ;;
  if negb (JS.truthy depName) then
    throw (NoPackageNameFound (join absolutePath "package.json"))
  else
    _ <- lift (JS.to_text depName) ;;
    _ <- lift (JS.to_text depVersion) ;;
    _ <- execCommand "npm" [VStr "link"] absolutePath ;;
    _ <- execCommand "npm" [VStr "link"; depName] currentPath ;;
    ret (mkDepInfo depName depVersion localPath).

Definition updatePackageJson (packagePath : string) (d : depInfo) : Comp unit :=
  packageJson <- readPackageJson packagePath ;;
  packageJson <- lift (applyInstall packageJson d) ;;
  writePackageJson packagePath packageJson.

Definition installSingle (localPath : string) : world -> outcome unit * world :=
  run (d <- linkLocalDependency localPath cwd ;;
       updatePackageJson cwd d).

(** The body of the [for] loop of [installAll].  What the [try] block
    mutated before it threw stays mutated. *)
Definition install_entry (st : loop) (localPath : string) : world -> loop * world :=
  fun w =>
    match linkLocalDependency localPath cwd w with
    | (Ok d, w1) =>
        match init_field (packageJson st) "dependencies" with
        | Ok pj1 =>
            match assign_in pj1 "dependencies" (JS.to_string (name d))
                    (caret (version d)) with
            | Ok pj2 =>
                (mkLoop pj2 (S (successCount st)) (failureCount st), w1)
            | Throw e =>
                (mkLoop pj1 (successCount st) (S (failureCount st)),
                 emit (EFailed e) w1)
            end
        | Throw e =>
            (mkLoop (packageJson st) (successCount st) (S (failureCount st)),
             emit (EFailed e) w1)
        end
    | (Throw e, w1) =>
        (mkLoop (packageJson st) (successCount st) (S (failureCount st)),
         emit (EFailed e) w1)
    end.

Fixpoint install_entries (dependencies : list (string * value)) (st : loop)
  : world -> loop * world :=
  fun w =>
    match dependencies with
    | [] => (st, w)
    | (localPath, _) :: rest =>
        let (st', w') := install_entry st localPath w in
        install_entries rest st' w'
    end.

(** Whether each link of a bulk install succeeds, in the order and in the
    worlds in which the loop runs them. *)
Fixpoint link_results (dependencies : list (string * value)) (w : world)
  : list bool :=
  match dependencies with
  | [] => []
  | (localPath, _) :: rest =>
      match linkLocalDependency localPath cwd w with
      | (Ok _, w1) => true :: link_results rest w1
      | (Throw e, w1) => false :: link_results rest (emit (EFailed e) w1)
      end
  end.

Definition installAll : world -> outcome report * world :=
  run (pj <- readPackageJson cwd ;;
       localDependencies <- lift (JS.get pj "localDependencies") ;;
       if negb (JS.truthy localDependencies) then ret NoLocalDependencies
       else
         dependencies <- lift (JS.entries localDependencies) ;;
         if (length dependencies =? 0)%nat then ret NoLocalDependencies
         else
           fun w =>
             let (st, w') :=
               install_entries dependencies (mkLoop pj 0 0) w in
             (_ <- (if (0 <? successCount st)%nat
                       then writePackageJson cwd (packageJson st)
                       else ret tt) ;;
              ret (Summary (successCount st) (failureCount st))) w').

(** index.js 269 prints the name before [npm] runs, which converts it. *)
Definition unlinkDependency (localPath : string) : world -> outcome unit * world :=
  run (let absolutePath := resolve cwd localPath in
       depPackageJson <- readPackageJson absolutePath ;;
       depName <- lift (JS.get depPackageJson "name") ;;
       _ <- lift (JS.to_text depName) ;;
       _ <- execCommand "npm" [VStr "unlink"; depName] cwd ;;
       pj <- readPackageJson cwd ;;
       pj <- lift (applyUninstall pj depName localPath) ;;
       writePackageJson cwd pj).

End Program.

(** ** The [list] command (index.js 327-360) *)

(** What [list] prints: the warning that there are no local dependencies;
    for an entry the path with the stored range, then the name the
    dependency declares, or the marker that its package.json was not
    found. *)
Inductive line : Type :=
| LNoLocalDependencies
| LEntry (localPath versionText : string)
| LName (nameText : string)
| LNotFound.

Section Listing.

Context {E : Env}.

(** The second line of an entry (index.js 346-352): the inner [try]
    catches every error, that of reading [name] off [null] and that of
    converting the name as well. *)
Definition list_name (localPath : string) : Comp line :=
  fun w =>
    match (depPackageJson <- readPackageJson (resolve cwd localPath) ;;
           depName <- lift (JS.get depPackageJson "name") ;;
           lift (JS.to_text depName)) w with
    | (Ok nameText, w') => (Ok (LName nameText), w')
    | (Throw _, w') => (Ok LNotFound, w')
    end.

(** The body of the loop.  The first line (index.js 343) converts the
    stored range outside the inner [try]: when that throws, nothing is
    printed for the entry. *)
Definition list_entry (localPath : string) (version : value)
  : Comp (list line) :=
  versionText <- lift (JS.to_text version) ;;
  second <- list_name localPath ;;
  ret [LEntry localPath versionText; second].

(** The loop: the lines printed, and whether an entry threw. *)
Fixpoint list_entries (dependencies : list (string * value))
  : world -> list line * result unit * world :=
  fun w =>
    match dependencies with
    | [] => ([], Ok tt, w)
    | (localPath, version) :: rest =>
        match list_entry localPath version w with
        | (Ok here, w') =>
            let '(below, r, w'') := list_entries rest w' in
            (here ++ below, r, w'')
        | (Throw e, w') => ([], Throw e, w')
        end
    end.

(** The lines printed and how the command ends. *)
Definition list_action : world -> list line * outcome unit * world :=
  fun w =>
    match (pj <- readPackageJson cwd ;;
           lift (JS.get pj "localDependencies")) w with
    | (Throw e, w') => ([], Exit1 e, w')
    | (Ok localDependencies, w') =>
        if negb (JS.truthy localDependencies)
        then ([LNoLocalDependencies], Done tt, w')
        else
          match JS.entries localDependencies with
          | Throw e => ([], Exit1 e, w')
          | Ok dependencies =>
              if (length dependencies =? 0)%nat
              then ([LNoLocalDependencies], Done tt, w')
              else
                match list_entries dependencies w' with
                | (lines, Ok _, w'') => (lines, Done tt, w'')
                | (lines, Throw e, w'') => (lines, Exit1 e, w'')
                end
          end
    end.

(** What the entry for a path shows in a world: the path with the range
    stored for it, then the name declared by the package.json in the
    directory the path resolves to, or the marker when there is no such
    file, or it gives no manifest to read a name from, or the name does
    not convert. *)
Definition shown (w : world) (localPath : string) (version : value)
  : list line :=
  [LEntry localPath (JS.to_string version);
   match w_fs w (join (resolve cwd localPath) "package.json") with
   | Some (NFile (Some dep)) =>
       match JS.get dep "name" with
       | Ok depName =>
           if JS.converts depName then LName (JS.to_string depName)
           else LNotFound
       | Throw _ => LNotFound
       end
   | _ => LNotFound
   end].

(** The identities of the links of a bulk install that succeed, in the
    order and in the worlds in which the loop runs them. *)
Fixpoint linked (dependencies : list (string * value)) (w : world)
  : list depInfo :=
  match dependencies with
  | [] => []
  | (localPath, _) :: rest =>
      match linkLocalDependency localPath cwd w with
      | (Ok d, w1) => d :: linked rest w1
      | (Throw e, w1) => linked rest (emit (EFailed e) w1)
      end
  end.

End Listing.

(** ** Fields of a manifest *)

Definition is_object (v : value) : bool :=
  match v with VObj _ => true | _ => false end.

(** [M[k]] for a manifest, [undefined] when absent. *)
Definition field (M : value) (k : string) : value :=
  match M with
  | VObj ps => JS.or_undefined (JS.lookup k ps)
  | _ => VUndef
  end.

(** [M[m][k]], [undefined] when the map or the key is absent. *)
Definition entry (M : value) (m k : string) : value :=
  field (field M m) k.

(** A map of the manifest is a JSON object, or is absent; the program takes
    every falsy value for an absent one. *)
Definition mapping_or_absent (v : value) : bool :=
  is_object v || negb (JS.truthy v).

(** The shape of a manifest in memory: an object whose [dependencies] and
    [localDependencies], when present, are mappings. *)
Definition shaped (M : value) : bool :=
  is_object M
  && mapping_or_absent (field M "dependencies")
  && mapping_or_absent (field M "localDependencies").

(** The manifest of section 3 of the specification: a JSON document of
    that shape. *)
Definition is_manifest (M : value) : bool := JS.is_json M && shaped M.

(** The loop of a bulk install can assign into [dependencies]: the manifest
    is an object whose [dependencies], when present, is a mapping. *)
Definition assignable (M : value) : bool :=
  is_object M && mapping_or_absent (field M "dependencies").

(** The errors of the language, as opposed to those of the program. *)
Definition language_error (e : error) : Prop :=
  e = TypeError \/ e = RangeError.

(** The links that succeeded and those that failed, among the results of a
    bulk install. *)
Definition successes (results : list bool) : nat :=
  length (filter (fun b => b) results).

Definition failures (results : list bool) : nat :=
  length (filter negb results).

(** A truthy value that is no object: [true], a number other than zero, a
    string other than the empty one.  Strict code cannot assign a property
    of it, but under [__proto__]. *)
Definition truthy_primitive (v : value) : bool :=
  match v with
  | VBool _ | VNum _ | VStr _ => JS.truthy v
  | _ => false
  end.

(** The error is not that of a subprocess. *)
Definition not_exec (e : error) : Prop :=
  forall command args dir, e <> ExecError command args dir.

(** The properties of a map, none when the map is absent. *)
Definition props_of (v : value) : list (string * value) :=
  match v with VObj ps => ps | _ => [] end.

(** The two runs of the linker: in the dependency's directory, and with
    the package name in the consumer's. *)
Definition register (absolutePath : string) : event :=
  EExec "npm" [VStr "link"] absolutePath.

Definition consume (depName : value) (dir : string) : event :=
  EExec "npm" [VStr "link"; depName] dir.

Definition release (depName : value) (dir : string) : event :=
  EExec "npm" [VStr "unlink"; depName] dir.

(** The entries a bulk install iterates over (index.js 201, 208). *)
Definition local_entries (M : value) : list (string * value) :=
  match JS.get M "localDependencies" with
  | Ok ld =>
      if JS.truthy ld then
        match JS.entries ld with Ok es => es | Throw _ => [] end
      else []
  | Throw _ => []
  end.

Definition is_write (ev : event) : bool :=
  match ev with EWrite _ _ => true | _ => false end.

(** ** A POSIX instance of the environment, for the examples *)

Module Posix.

Fixpoint segments (s cur : string) : list string :=
  match s with
  | EmptyString => [cur]
  | String c tl =>
      if (c =? "/")%char then cur :: segments tl ""
      else segments tl (cur ++ String c "")%string
  end.

Definition walk (stack : list string) (seg : string) : list string :=
  if (seg =? "") || (seg =? ".") then stack
  else if seg =? ".." then removelast stack
  else stack ++ [seg].

Definition is_absolute (s : string) : bool :=
  match s with
  | String c _ => (c =? "/")%char
  | EmptyString => false
  end.

Definition resolve (from to : string) : string :=
  let p := if is_absolute to then to else (from ++ "/" ++ to)%string in
  ("/" ++ String.concat "/" (fold_left walk (segments p "") []))%string.

Definition join (a b : string) : string := resolve a b.

(** An [npm] that always succeeds and touches no file. *)
Definition npm_ok (command : string) (args : list value) (dir : string)
  (f : fs) : bool * fs := (true, f).

(** An [npm] that fails whenever it runs in directory [bad]. *)
Definition npm_failing_in (bad : string) (command : string)
  (args : list value) (dir : string) (f : fs) : bool * fs :=
  (negb (dir =? bad), f).

Definition writable (f : fs) (p : string) : bool := true.

(** A write that fails after it opened the file leaves it empty. *)
Definition truncated (f : fs) (p : string) : option node :=
  Some (NFile None).

Definition home : string := "/home/dev/app".

Definition env (npm : string -> list value -> string -> fs -> bool * fs)
  : Env :=
  Build_Env resolve join npm writable truncated home.

Definition no_files : fs := fun _ => None.

Definition json_file (v : value) : node := NFile (Some v).

(** [/home/dev/app] holds the consumer [app]; [/home/dev/lib] holds the
    dependency whose manifest is [lib]. *)
Definition disk (app lib : value) : fs :=
  fs_write
    (fs_write
       (fs_write (fs_write no_files "/home/dev/app" NDir)
          "/home/dev/lib" NDir)
       "/home/dev/lib/package.json" (json_file lib))
    "/home/dev/app/package.json" (json_file app).

Definition start (app lib : value) : world := mkWorld (disk app lib) [].

Definition app_manifest : value :=
  VObj [("name", VStr "app"); ("version", VStr "1.0.0")].

Definition lib_manifest : value :=
  VObj [("name", VStr "lib"); ("version", VStr "2.3.0")].

Definition lib_without_version : value := VObj [("name", VStr "lib")].

Definition lib_without_name : value := VObj [("version", VStr "2.3.0")].

Definition app_linked : value :=
  VObj [("name", VStr "app"); ("version", VStr "1.0.0");
        ("dependencies", VObj [("lib", VStr "^2.3.0")]);
        ("localDependencies", VObj [("../lib", VStr "^2.3.0")])].

(** The link was recorded under another spelling of the path, and the
    range of [lib] is the empty string. *)
Definition app_aliased : value :=
  VObj [("name", VStr "app"); ("version", VStr "1.0.0");
        ("dependencies", VObj [("lib", VStr "")]);
        ("localDependencies", VObj [("./../lib", VStr "^2.3.0")])].

(** The same with a range that [install] could have written. *)
Definition app_aliased_caret : value :=
  VObj [("name", VStr "app"); ("version", VStr "1.0.0");
        ("dependencies", VObj [("lib", VStr "^2.3.0")]);
        ("localDependencies", VObj [("./../lib", VStr "^2.3.0")])].

(** Two local dependencies, the second of which does not exist; the
    range stored for the first is out of date. *)
Definition app_two : value :=
  VObj [("name", VStr "app"); ("version", VStr "1.0.0");
        ("localDependencies",
         VObj [("../lib", VStr "^1.0.0"); ("../missing", VStr "^0.1.0")])].

(** The two environments of the examples: [npm] succeeds; [npm] fails
    in the directory of the dependency. *)
Definition env_ok : Env := env npm_ok.

Definition env_register_fails : Env := env (npm_failing_in "/home/dev/lib").

(** [npm] fails in the directory of the consumer: the register step goes
    through, the consume and the release steps do not. *)
Definition env_consumer_fails : Env := env (npm_failing_in "/home/dev/app").

(** The consumer whose [dependencies] is a string. *)
Definition app_broken : value :=
  VObj [("name", VStr "app"); ("version", VStr "1.0.0");
        ("dependencies", VStr "none");
        ("localDependencies", VObj [("../lib", VStr "^2.3.0")])].

(** The consumer that depends on a package it did not link. *)
Definition app_unrelated : value :=
  VObj [("name", VStr "app"); ("version", VStr "1.0.0");
        ("dependencies", VObj [("left-pad", VStr "^1.3.0")])].

(** The dependency sits inside the consumer, in a directory named
    [__proto__]. *)
Definition disk_inside (app lib : value) : fs :=
  fs_write
    (fs_write
       (fs_write (fs_write no_files "/home/dev/app" NDir)
          "/home/dev/app/__proto__" NDir)
       "/home/dev/app/__proto__/package.json" (json_file lib))
    "/home/dev/app/package.json" (json_file app).

(** What the install of the path [__proto__] writes. *)
Definition app_linked_inside : value :=
  VObj [("name", VStr "app"); ("version", VStr "1.0.0");
        ("dependencies", VObj [("lib", VStr "^2.3.0")]);
        ("localDependencies", VObj [])].

(** The dependency that declares the name [__proto__]. *)
Definition lib_proto : value :=
  VObj [("name", VStr "__proto__"); ("version", VStr "2.3.0")].

(** One local dependency, with a range that is out of date. *)
Definition app_one : value :=
  VObj [("name", VStr "app"); ("version", VStr "1.0.0");
        ("localDependencies", VObj [("../lib", VStr "^1.0.0")])].

(** What the bulk install of [app_one] writes when the dependency is
    named [__proto__]. *)
Definition app_one_proto : value :=
  VObj [("name", VStr "app"); ("version", VStr "1.0.0");
        ("localDependencies", VObj [("../lib", VStr "^1.0.0")]);
        ("dependencies", VObj [])].

(** The consumer whose package.json has the literal [1e400] under
    [big]: it parses to [Infinity]. *)
Definition app_big : value :=
  VObj [("name", VStr "app"); ("version", VStr "1.0.0");
        ("big", VNum "Infinity")].

(** A value that does not convert to a string: [{"toString": 1}]. *)
Definition unprintable : value := VObj [("toString", VNum "1")].

Definition lib_unprintable_version : value :=
  VObj [("name", VStr "lib"); ("version", unprintable)].

Definition lib_unprintable_name : value :=
  VObj [("name", unprintable); ("version", VStr "2.3.0")].

(** Three local dependencies, the second with a range that does not
    convert. *)
Definition app_odd : value :=
  VObj [("name", VStr "app"); ("version", VStr "1.0.0");
        ("localDependencies",
         VObj [("../lib", VStr "^1.0.0"); ("../odd", unprintable);
               ("../missing", VStr "^0.1.0")])].

(** [npm] succeeds and no file can be written. *)
Definition env_readonly : Env :=
  Build_Env resolve join npm_ok (fun _ _ => false) truncated home.

(** What the consumer manifest of a world is, when it can be read. *)
Definition manifest_of (w : world) : option value :=
  match w_fs w "/home/dev/app/package.json" with
  | Some (NFile c) => c
  | _ => None
  end.

End Posix.

(** * Properties *)

(** ** Own properties *)

Module JSFacts.
Import JS.

Lemma lookup_replace_same k v ps :
  lookup k ps <> None -> lookup k (replace k v ps) = Some v.
Proof.
  induction ps as [|[k' v'] tl IH]; simpl; [congruence|].
  destruct (k' =? k) eqn:E; simpl; rewrite E; auto.
Qed.

Lemma lookup_replace_other k k' v ps :
  k' <> k -> lookup k' (replace k v ps) = lookup k' ps.
Proof.
  intros Hne. induction ps as [|[k0 v0] tl IH]; simpl; [reflexivity|].
  destruct (k0 =? k) eqn:E; simpl.
  - apply String.eqb_eq in E. subst k0.
    destruct (k =? k') eqn:E'; [apply String.eqb_eq in E'; congruence|reflexivity].
  - destruct (k0 =? k'); auto.
Qed.

Lemma lookup_insert_index_same i k v ps :
  lookup k ps = None -> lookup k (insert_index i k v ps) = Some v.
Proof.
  induction ps as [|[k' v'] tl IH]; simpl.
  - now rewrite String.eqb_refl.
  - destruct (k' =? k) eqn:E; [discriminate|]. intros H.
    destruct (array_index k') as [j|].
    + destruct (j <? i)%N; simpl.
      * rewrite E. auto.
      * now rewrite String.eqb_refl.
    + simpl. now rewrite String.eqb_refl.
Qed.

Lemma lookup_insert_index_other i k k' v ps :
  k' <> k -> lookup k' (insert_index i k v ps) = lookup k' ps.
Proof.
  intros Hne.
  assert (Hk : (k =? k') = false) by (apply String.eqb_neq; congruence).
  induction ps as [|[k0 v0] tl IH]; simpl.
  - now rewrite Hk.
  - destruct (array_index k0) as [j|].
    + destruct (j <? i)%N; simpl.
      * now rewrite IH.
      * now rewrite Hk.
    + simpl. now rewrite Hk.
Qed.

Lemma lookup_app k ps qs :
  lookup k (ps ++ qs) =
  match lookup k ps with Some v => Some v | None => lookup k qs end.
Proof.
  induction ps as [|[k' v'] tl IH]; simpl; [reflexivity|].
  destruct (k' =? k); auto.
Qed.

Lemma lookup_define_same k v ps : lookup k (define k v ps) = Some v.
Proof.
  unfold define. destruct (lookup k ps) eqn:E.
  - apply lookup_replace_same. congruence.
  - destruct (array_index k).
    + now apply lookup_insert_index_same.
    + rewrite lookup_app, E. simpl. now rewrite String.eqb_refl.
Qed.

Lemma lookup_define_other k k' v ps :
  k' <> k -> lookup k' (define k v ps) = lookup k' ps.
Proof.
  intros Hne. unfold define. destruct (lookup k ps) eqn:E.
  - now apply lookup_replace_other.
  - destruct (array_index k).
    + now apply lookup_insert_index_other.
    + rewrite lookup_app. destruct (lookup k' ps); [reflexivity|].
      simpl. destruct (k =? k') eqn:E'; [|reflexivity].
      apply String.eqb_eq in E'. congruence.
Qed.

Lemma lookup_remove_same k ps : lookup k (remove k ps) = None.
Proof.
  induction ps as [|[k' v'] tl IH]; simpl; [reflexivity|].
  destruct (k' =? k) eqn:E; simpl; [assumption|]. now rewrite E.
Qed.

Lemma lookup_remove_other k k' ps :
  k' <> k -> lookup k' (remove k ps) = lookup k' ps.
Proof.
  intros Hne. induction ps as [|[k0 v0] tl IH]; simpl; [reflexivity|].
  destruct (k0 =? k) eqn:E; simpl.
  - apply String.eqb_eq in E. subst k0.
    destruct (k =? k') eqn:E'; [apply String.eqb_eq in E'; congruence|assumption].
  - destruct (k0 =? k'); auto.
Qed.

Lemma plain_dependencies : plain_key "dependencies".
Proof. split; [reflexivity|split; discriminate]. Qed.

Lemma plain_localDependencies : plain_key "localDependencies".
Proof. split; [reflexivity|split; discriminate]. Qed.

Lemma length_eqb_false k : k <> "length" -> (k =? "length") = false.
Proof. intros H. now apply String.eqb_neq. Qed.

(** *** Assignment under a key *)

Lemma assign_plain k v ps : k <> "__proto__" -> assign k v ps = define k v ps.
Proof.
  intros H. unfold assign. apply String.eqb_neq in H. now rewrite H.
Qed.

Lemma assign_own k v ps : has k ps = true -> assign k v ps = define k v ps.
Proof.
  intros H. unfold assign. rewrite H. now rewrite andb_false_r.
Qed.

Lemma assign_cases k v ps :
  (negb (k =? "__proto__") || has k ps = true /\ assign k v ps = define k v ps)
  \/ (negb (k =? "__proto__") || has k ps = false
      /\ k = "__proto__" /\ lookup k ps = None /\ assign k v ps = ps).
Proof.
  unfold assign, has.
  destruct (k =? "__proto__") eqn:Ek; simpl; [|auto].
  apply String.eqb_eq in Ek.
  destruct (lookup k ps) eqn:El; simpl; auto.
Qed.

Lemma lookup_assign_other k k' v ps :
  k' <> k -> lookup k' (assign k v ps) = lookup k' ps.
Proof.
  intros H. destruct (assign_cases k v ps) as [[_ ->]|(_ & _ & _ & ->)];
    [now apply lookup_define_other|reflexivity].
Qed.

(** *** Reading after writing *)

Lemma get_set_same o k v o' :
  plain_key k -> set o k v = Ok o' -> get o' k = Ok v.
Proof.
  intros (Hi & Hl & Hp) H. pose proof Hp as Hp'.
  apply String.eqb_neq in Hp'.
  destruct o; simpl in H; rewrite ?Hp' in H; try discriminate.
  - rewrite Hi, (length_eqb_false _ Hl) in H. inversion H; subst; simpl.
    now rewrite Hi, (length_eqb_false _ Hl), assign_plain, lookup_define_same.
  - inversion H; subst; simpl.
    now rewrite assign_plain, lookup_define_same.
Qed.

Lemma get_set_other o k k' v o' :
  plain_key k -> k' <> k -> set o k v = Ok o' -> get o' k' = get o k'.
Proof.
  intros (Hi & Hl & Hp) Hne H. apply String.eqb_neq in Hp.
  destruct o; simpl in H; rewrite ?Hp in H; try discriminate.
  - rewrite Hi, (length_eqb_false _ Hl) in H. inversion H; subst; simpl.
    destruct (array_index k'); [reflexivity|].
    destruct (k' =? "length"); [reflexivity|].
    now rewrite lookup_assign_other.
  - inversion H; subst; simpl. now rewrite lookup_assign_other.
Qed.

Lemma set_keeps_object o k v o' :
  set o k v = Ok o' -> is_object o' = is_object o.
Proof.
  destruct o; simpl; try discriminate;
    try (destruct (k =? "__proto__"); intros H; inversion H; reflexivity).
  destruct (array_index k); [|destruct (k =? "length")];
    intros H; inversion H; reflexivity.
Qed.

Lemma get_object ps k : get (VObj ps) k = Ok (field (VObj ps) k).
Proof. reflexivity. Qed.

(** After [delete o[k]] the property reads [undefined]. *)
Lemma get_delete_same o k o' :
  delete o k = Ok o' -> get o' k = Ok VUndef.
Proof.
  destruct o; simpl; try discriminate.
  - intros H; inversion H; reflexivity.
  - intros H; inversion H; reflexivity.
  - destruct (array_index k) as [i|] eqn:Ei.
    + destruct (N.to_nat i <? String.length s)%nat eqn:El; [discriminate|].
      intros H; inversion H; subst; simpl. rewrite Ei.
      apply Nat.ltb_ge in El.
      assert (Hg : String.get (N.to_nat i) s = None).
      { clear -El. revert El. generalize (N.to_nat i). induction s as [|c s IH]; simpl.
        - destruct n; reflexivity.
        - destruct n; simpl; intros; [lia|]. apply IH. lia. }
      now rewrite Hg.
    + destruct (k =? "length") eqn:El; [discriminate|].
      intros H; inversion H; subst; simpl. now rewrite Ei, El.
  - destruct (array_index k) as [i|] eqn:Ei.
    + destruct (N.to_nat i <? length elems)%nat eqn:El;
        intros H; inversion H; subst; simpl; rewrite Ei; f_equal.
      * apply Nat.ltb_lt in El. clear -El. revert El.
        generalize (N.to_nat i). induction elems as [|x tl IH]; simpl; intros n Hn; [lia|].
        destruct n; simpl; [reflexivity|]. apply IH. lia.
      * apply Nat.ltb_ge in El. now apply nth_overflow.
    + destruct (k =? "length") eqn:El; [discriminate|].
      intros H; inversion H; subst; simpl.
      now rewrite Ei, El, lookup_remove_same.
  - intros H; inversion H; subst; simpl. now rewrite lookup_remove_same.
Qed.

(** *** JSON values stay JSON values *)

Lemma is_json_cons k x tl :
  is_json (VObj ((k, x) :: tl)) = is_json x && is_json (VObj tl).
Proof. reflexivity. Qed.

Lemma is_json_lookup k ps x :
  is_json (VObj ps) = true -> lookup k ps = Some x -> is_json x = true.
Proof.
  induction ps as [|[k' x'] tl IH]; [discriminate|].
  rewrite is_json_cons. intros H. apply andb_true_iff in H as [Hx Ht].
  simpl. destruct (k' =? k); [congruence|auto].
Qed.

Lemma is_json_app ps qs :
  is_json (VObj ps) = true -> is_json (VObj qs) = true ->
  is_json (VObj (ps ++ qs)) = true.
Proof.
  intros Hp Hq. induction ps as [|[k x] tl IH]; [assumption|].
  rewrite is_json_cons in Hp. apply andb_true_iff in Hp as [Hx Ht].
  change (is_json x && is_json (VObj (tl ++ qs)) = true).
  now rewrite Hx, IH.
Qed.

Lemma is_json_define k v ps :
  is_json (VObj ps) = true -> is_json v = true ->
  is_json (VObj (define k v ps)) = true.
Proof.
  intros Hp Hv. unfold define. destruct (lookup k ps).
  - induction ps as [|[k' x] tl IH]; [reflexivity|].
    rewrite is_json_cons in Hp. apply andb_true_iff in Hp as [Hx Ht].
    simpl replace. destruct (k' =? k); rewrite is_json_cons.
    + now rewrite Hv, Ht.
    + now rewrite Hx, IH.
  - destruct (array_index k) as [i|].
    + induction ps as [|[k' x] tl IH];
        [simpl; now rewrite Hv|].
      pose proof Hp as Hp'.
      rewrite is_json_cons in Hp. apply andb_true_iff in Hp as [Hx Ht].
      simpl insert_index.
      destruct (array_index k') as [j|];
        [destruct (j <? i)%N|]; rewrite is_json_cons.
      * now rewrite Hx, IH.
      * now rewrite Hv, Hp'.
      * now rewrite Hv, Hp'.
    + apply is_json_app; [assumption|]. simpl. now rewrite Hv.
Qed.

Lemma is_json_assign k v ps :
  is_json (VObj ps) = true -> is_json v = true ->
  is_json (VObj (assign k v ps)) = true.
Proof.
  intros Hp Hv. unfold assign.
  destruct ((k =? "__proto__") && negb (has k ps));
    [assumption|now apply is_json_define].
Qed.

Lemma is_json_remove k ps :
  is_json (VObj ps) = true -> is_json (VObj (remove k ps)) = true.
Proof.
  induction ps as [|[k' x] tl IH]; [reflexivity|].
  rewrite is_json_cons. intros H. apply andb_true_iff in H as [Hx Ht].
  unfold remove. simpl filter. fold (remove k tl).
  destruct (negb (k' =? k)); [rewrite is_json_cons, Hx|]; auto.
Qed.

End JSFacts.

(** ** The three mutations of a manifest *)

Module Mutation.
Import JS JSFacts.

Ltac step H :=
  match type of H with
  | rbind ?r _ = Ok _ =>
      let E := fresh "E" in
      destruct r eqn:E; simpl in H; [|discriminate]
  end.

Lemma init_field_spec o k o1 :
  plain_key k -> init_field o k = Ok o1 ->
  exists d, get o k = Ok d
    /\ get o1 k = Ok (if truthy d then d else VObj [])
    /\ (forall k', k' <> k -> get o1 k' = get o k')
    /\ is_object o1 = is_object o.
Proof.
  intros Hk H. unfold init_field in H. step H. exists a.
  destruct (truthy a) eqn:T.
  - inversion H; subst. auto.
  - repeat split; auto.
    + eapply get_set_same; eauto.
    + intros k' Hne. eapply get_set_other; eauto.
    + eapply set_keeps_object; eauto.
Qed.

Lemma assign_in_spec o k key v o' :
  plain_key k -> assign_in o k key v = Ok o' ->
  exists d d', get o k = Ok d /\ set d key v = Ok d'
    /\ get o' k = Ok d'
    /\ (forall k', k' <> k -> get o' k' = get o k')
    /\ is_object o' = is_object o.
Proof.
  intros Hk H. unfold assign_in in H. step H. step H.
  exists a, a0. repeat split; auto.
  - eapply get_set_same; eauto.
  - intros k' Hne. eapply get_set_other; eauto.
  - eapply set_keeps_object; eauto.
Qed.

Lemma delete_in_other o k key o' :
  plain_key k -> delete_in o k key = Ok o' ->
  (forall k', k' <> k -> get o' k' = get o k')
  /\ is_object o' = is_object o.
Proof.
  intros Hk H. unfold delete_in in H. step H.
  destruct (truthy a); [|inversion H; subst; auto].
  step H. destruct (truthy a0); [|inversion H; subst; auto].
  step H. split.
  - intros k' Hne. eapply get_set_other; eauto.
  - eapply set_keeps_object; eauto.
Qed.

Lemma delete_in_settles o k key o' :
  plain_key k -> delete_in o k key = Ok o' -> settled o' k key.
Proof.
  intros Hk H. unfold delete_in in H. step H.
  destruct (truthy a) eqn:Ta.
  - step H. destruct (truthy a0) eqn:Tx.
    + step H. exists a1. split; [eapply get_set_same; eauto|].
      right. exists VUndef. split; [eapply get_delete_same; eauto|reflexivity].
    + inversion H; subst. exists a. split; [assumption|]. right. eauto.
  - inversion H; subst. exists a. auto.
Qed.

Lemma delete_in_settled o k key :
  settled o k key -> delete_in o k key = Ok o.
Proof.
  intros (d & Hd & [T|(x & Hx & T)]); unfold delete_in; rewrite Hd; simpl.
  - now rewrite T.
  - destruct (truthy d); [|reflexivity]. rewrite Hx. simpl. now rewrite T.
Qed.

Lemma settled_other o o' k key :
  get o' k = get o k -> settled o k key -> settled o' k key.
Proof. intros E (d & Hd & H). exists d. rewrite E. auto. Qed.

Lemma delete_in_absent o k key :
  is_object o = true -> mapping_or_absent (field o k) = true ->
  is_object (field o k) = false -> delete_in o k key = Ok o.
Proof.
  destruct o; try discriminate. intros _ Hm Hn.
  unfold delete_in. rewrite get_object. simpl rbind.
  unfold mapping_or_absent in Hm. rewrite Hn in Hm. simpl in Hm.
  apply negb_true_iff in Hm. now rewrite Hm.
Qed.

Lemma init_field_object ps k :
  k <> "__proto__" ->
  mapping_or_absent (field (VObj ps) k) = true ->
  exists ps1, init_field (VObj ps) k = Ok (VObj ps1)
    /\ field (VObj ps1) k = VObj (props_of (field (VObj ps) k))
    /\ (forall k', k' <> k -> field (VObj ps1) k' = field (VObj ps) k')
    /\ (is_json (VObj ps) = true -> is_json (VObj ps1) = true).
Proof.
  intros Hk Hm. unfold init_field. rewrite get_object. cbn [rbind].
  assert (Hc : (truthy (field (VObj ps) k) = true
                /\ exists ds, field (VObj ps) k = VObj ds)
               \/ (truthy (field (VObj ps) k) = false
                   /\ props_of (field (VObj ps) k) = [])).
  { unfold mapping_or_absent in Hm.
    destruct (field (VObj ps) k); simpl in *; try discriminate; eauto;
      right; split; try reflexivity; now apply negb_true_iff in Hm. }
  destruct Hc as [[T [ds Ed]]|[T Ep]]; rewrite T.
  - exists ps. rewrite Ed. auto.
  - rewrite Ep. eexists; split; [reflexivity|]. unfold field.
    rewrite assign_plain, lookup_define_same by assumption.
    split; [reflexivity|]. split.
    + intros k' Hne. now rewrite lookup_define_other.
    + intros Hj. now apply is_json_define.
Qed.

Lemma assign_in_object ps k key v ds :
  k <> "__proto__" ->
  field (VObj ps) k = VObj ds ->
  exists ps', assign_in (VObj ps) k key v = Ok (VObj ps')
    /\ field (VObj ps') k = VObj (assign key v ds)
    /\ (forall k', k' <> k -> field (VObj ps') k' = field (VObj ps) k')
    /\ (is_json (VObj ps) = true -> is_json v = true ->
        is_json (VObj ps') = true).
Proof.
  intros Hk Hf. unfold assign_in. rewrite get_object, Hf.
  cbn [rbind set].
  eexists; split; [reflexivity|]. unfold field.
  rewrite (assign_plain k) by assumption.
  rewrite lookup_define_same. split; [reflexivity|]. split.
  - intros k' Hne. now rewrite lookup_define_other.
  - intros Hj Hv. apply is_json_define; [assumption|].
    apply is_json_assign; [|assumption]. fold (field (VObj ps) k) in Hf.
    simpl in Hf. destruct (lookup k ps) as [x|] eqn:El; [|discriminate].
    simpl in Hf. subst x. eapply is_json_lookup; eauto.
Qed.

(** [applyInstall] on a manifest: it cannot fail, and the two maps gain
    one entry each; nothing else changes. *)
Lemma applyInstall_shaped M d :
  shaped M = true ->
  exists ps',
    applyInstall M d = Ok (VObj ps')
    /\ field (VObj ps') "dependencies" =
        VObj (assign (to_string (name d)) (caret (version d))
                (props_of (field M "dependencies")))
    /\ field (VObj ps') "localDependencies" =
        VObj (assign (path d) (caret (version d))
                (props_of (field M "localDependencies")))
    /\ (forall k, k <> "dependencies" -> k <> "localDependencies" ->
         field (VObj ps') k = field M k)
    /\ (is_json M = true -> is_json (VObj ps') = true).
Proof.
  unfold shaped. intros H.
  apply andb_true_iff in H as [H Hl]. apply andb_true_iff in H as [Ho Hd].
  destruct M as [| | | | | |ps]; try discriminate.
  assert (Nd : "dependencies" <> "__proto__") by discriminate.
  assert (Nl : "localDependencies" <> "__proto__") by discriminate.
  destruct (init_field_object ps "dependencies" Nd Hd) as (ps1 & E1 & F1 & O1 & J1).
  assert (Hl1 : mapping_or_absent (field (VObj ps1) "localDependencies") = true)
    by (rewrite O1; [assumption|discriminate]).
  destruct (init_field_object ps1 "localDependencies" Nl Hl1) as (ps2 & E2 & F2 & O2 & J2).
  assert (D2 : field (VObj ps2) "dependencies" =
               VObj (props_of (field (VObj ps) "dependencies")))
    by (rewrite O2; [assumption|discriminate]).
  destruct (assign_in_object ps2 "dependencies" (to_string (name d))
              (caret (version d)) _ Nd D2) as (ps3 & E3 & F3 & O3 & J3).
  assert (L3 : field (VObj ps3) "localDependencies" =
               VObj (props_of (field (VObj ps) "localDependencies"))).
  { rewrite O3 by discriminate. rewrite F2. rewrite O1 by discriminate.
    reflexivity. }
  destruct (assign_in_object ps3 "localDependencies" (path d)
              (caret (version d)) _ Nl L3) as (ps4 & E4 & F4 & O4 & J4).
  exists ps4. unfold applyInstall.
  rewrite E1; cbn [rbind]. rewrite E2; cbn [rbind].
  rewrite E3; cbn [rbind]. rewrite E4. repeat split; auto.
  - rewrite O4 by discriminate. assumption.
  - intros k Kd Kl. rewrite O4, O3, O2, O1 by assumption. reflexivity.
Qed.

(** [delete_in] on an object whose map is a mapping or is absent. *)
Lemma delete_in_shaped ps k key :
  k <> "__proto__" ->
  mapping_or_absent (field (VObj ps) k) = true ->
  exists ps',
    delete_in (VObj ps) k key = Ok (VObj ps')
    /\ (forall k', k' <> k -> field (VObj ps') k' = field (VObj ps) k')
    /\ mapping_or_absent (field (VObj ps') k) = true
    /\ (forall q, q <> key -> entry (VObj ps') k q = entry (VObj ps) k q)
    /\ (truthy (entry (VObj ps) k key) = true ->
         entry (VObj ps') k key = VUndef)
    /\ (truthy (entry (VObj ps) k key) = false -> ps' = ps)
    /\ (is_json (VObj ps) = true -> is_json (VObj ps') = true).
Proof.
  intros Hk Hm. unfold entry.
  destruct (is_object (field (VObj ps) k)) eqn:Ho.
  - destruct (field (VObj ps) k) as [| | | | | |ds] eqn:Ef; try discriminate.
    unfold delete_in. rewrite get_object, Ef. cbn [rbind truthy].
    rewrite get_object. cbn [rbind].
    destruct (truthy (field (VObj ds) key)) eqn:T.
    + cbn [delete rbind set]. rewrite (assign_plain k) by assumption.
      exists (define k (VObj (remove key ds)) ps).
      assert (Fk : field (VObj (define k (VObj (remove key ds)) ps)) k =
                   VObj (remove key ds))
        by (unfold field; now rewrite lookup_define_same).
      split; [reflexivity|].
      split; [intros k' Hne; unfold field; now rewrite lookup_define_other|].
      rewrite Fk. split; [reflexivity|].
      split; [intros q Hq; unfold field; now rewrite lookup_remove_other|].
      split; [intros _; unfold field; now rewrite lookup_remove_same|].
      split; [discriminate|].
      intros Hj. apply is_json_define; [assumption|].
      apply is_json_remove.
      unfold field in Ef. destruct (lookup k ps) as [x|] eqn:El;
        [|discriminate]. simpl in Ef. subst x.
      eapply is_json_lookup; eauto.
    + exists ps. rewrite Ef. repeat split; auto. discriminate.
  - exists ps. split.
    + apply delete_in_absent; auto.
    + repeat split; auto.
      destruct (field (VObj ps) k); try discriminate; simpl; discriminate.
Qed.

(** [applyUninstall] on a manifest: it cannot fail; each of the two
    entries is removed when its value is truthy and kept otherwise, and
    nothing else changes. *)
Lemma applyUninstall_shaped M n p :
  shaped M = true ->
  exists ps',
    applyUninstall M n p = Ok (VObj ps')
    /\ (forall k, k <> "dependencies" -> k <> "localDependencies" ->
         field (VObj ps') k = field M k)
    /\ (forall q, q <> to_string n ->
         entry (VObj ps') "dependencies" q = entry M "dependencies" q)
    /\ (forall q, q <> p ->
         entry (VObj ps') "localDependencies" q =
         entry M "localDependencies" q)
    /\ (truthy (entry M "dependencies" (to_string n)) = true ->
         entry (VObj ps') "dependencies" (to_string n) = VUndef)
    /\ (truthy (entry M "dependencies" (to_string n)) = false ->
         entry (VObj ps') "dependencies" (to_string n) =
         entry M "dependencies" (to_string n))
    /\ (truthy (entry M "localDependencies" p) = true ->
         entry (VObj ps') "localDependencies" p = VUndef)
    /\ (truthy (entry M "localDependencies" p) = false ->
         entry (VObj ps') "localDependencies" p =
         entry M "localDependencies" p)
    /\ (truthy (entry M "dependencies" (to_string n)) = false ->
         truthy (entry M "localDependencies" p) = false ->
         VObj ps' = M)
    /\ (is_json M = true -> is_json (VObj ps') = true).
Proof.
  unfold shaped. intros H.
  apply andb_true_iff in H as [H Hl]. apply andb_true_iff in H as [Ho Hd].
  destruct M as [| | | | | |ps]; try discriminate.
  assert (Nd : "dependencies" <> "__proto__") by discriminate.
  assert (Nl : "localDependencies" <> "__proto__") by discriminate.
  destruct (delete_in_shaped ps "dependencies" (to_string n) Nd Hd)
    as (ps1 & E1 & O1 & M1 & Q1 & T1 & F1 & J1).
  assert (Hl1 : mapping_or_absent (field (VObj ps1) "localDependencies") = true)
    by (rewrite O1; [assumption|discriminate]).
  destruct (delete_in_shaped ps1 "localDependencies" p Nl Hl1)
    as (ps2 & E2 & O2 & M2 & Q2 & T2 & F2 & J2).
  assert (Ed : forall q, entry (VObj ps2) "dependencies" q =
                         entry (VObj ps1) "dependencies" q).
  { intros q. unfold entry. now rewrite O2 by discriminate. }
  assert (El : forall q, entry (VObj ps1) "localDependencies" q =
                         entry (VObj ps) "localDependencies" q).
  { intros q. unfold entry. now rewrite O1 by discriminate. }
  exists ps2. unfold applyUninstall. rewrite E1. cbn [rbind]. rewrite E2.
  split; [reflexivity|]. repeat split.
  - intros k Kd Kl. rewrite O2, O1 by assumption. reflexivity.
  - intros q Hq. rewrite Ed. auto.
  - intros q Hq. rewrite Q2, El by assumption. reflexivity.
  - intros T. rewrite Ed. auto.
  - intros T. rewrite Ed. now rewrite (F1 T).
  - intros T. rewrite <- El in T. auto.
  - intros T. rewrite <- El in T. rewrite (F2 T). apply El.
  - intros Td Tl. rewrite <- El in Tl. now rewrite (F2 Tl), (F1 Td).
  - auto.
Qed.

(** [applyUninstall] leaves a map that is an object an object. *)
Lemma delete_in_keeps_map ps k key ps' :
  k <> "__proto__" ->
  delete_in (VObj ps) k key = Ok (VObj ps') ->
  is_object (field (VObj ps) k) = true ->
  is_object (field (VObj ps') k) = true.
Proof.
  intros Hk H Ho.
  destruct (field (VObj ps) k) as [| | | | | |ds] eqn:Ef; try discriminate.
  unfold delete_in in H. rewrite get_object, Ef in H. cbn [rbind truthy] in H.
  rewrite get_object in H. cbn [rbind] in H.
  destruct (truthy (field (VObj ds) key)).
  - cbn [delete rbind set] in H. rewrite (assign_plain k) in H by assumption.
    inversion H; subst.
    unfold field. now rewrite lookup_define_same.
  - inversion H; subst. now rewrite Ef.
Qed.

Lemma applyUninstall_keeps_maps M n p M2 :
  shaped M = true ->
  applyUninstall M n p = Ok M2 ->
  (is_object (field M "dependencies") = true ->
   is_object (field M2 "dependencies") = true)
  /\ (is_object (field M "localDependencies") = true ->
      is_object (field M2 "localDependencies") = true).
Proof.
  unfold shaped. intros H Hu.
  apply andb_true_iff in H as [H Hl]. apply andb_true_iff in H as [Ho Hd].
  destruct M as [| | | | | |ps]; try discriminate.
  assert (Nd : "dependencies" <> "__proto__") by discriminate.
  assert (Nl : "localDependencies" <> "__proto__") by discriminate.
  destruct (delete_in_shaped ps "dependencies" (to_string n) Nd Hd)
    as (ps1 & E1 & O1 & M1 & _).
  assert (Hl1 : mapping_or_absent (field (VObj ps1) "localDependencies") = true)
    by (rewrite O1; [assumption|discriminate]).
  destruct (delete_in_shaped ps1 "localDependencies" p Nl Hl1)
    as (ps2 & E2 & O2 & _).
  unfold applyUninstall in Hu. rewrite E1 in Hu. cbn [rbind] in Hu.
  rewrite E2 in Hu. inversion Hu; subst M2. split.
  - intros Hod. rewrite O2 by discriminate.
    now apply (delete_in_keeps_map _ _ _ _ Nd E1).
  - intros Hol. apply (delete_in_keeps_map _ _ _ _ Nl E2).
    rewrite O1 by discriminate. assumption.
Qed.

(** Applying [applyUninstall] to its own result changes nothing. *)
Lemma applyUninstall_again M n p M1 :
  applyUninstall M n p = Ok M1 -> applyUninstall M1 n p = Ok M1.
Proof.
  unfold applyUninstall. intros H. step H.
  pose proof (delete_in_settles _ _ _ _ plain_dependencies E) as Sd.
  pose proof (delete_in_settles _ _ _ _ plain_localDependencies H) as Sl.
  destruct (delete_in_other _ _ _ _ plain_localDependencies H) as [Ho _].
  assert (Sd' : settled M1 "dependencies" (to_string n)).
  { eapply settled_other; [|exact Sd]. apply Ho. discriminate. }
  rewrite (delete_in_settled _ _ _ Sd'). cbn [rbind].
  now apply delete_in_settled.
Qed.

(** The mutations raise errors of the language only. *)
Lemma get_throws o k e : get o k = Throw e -> language_error e.
Proof.
  unfold language_error.
  destruct o; simpl; intros H; try discriminate; try (inversion H; auto).
  - destruct (array_index k); [destruct (String.get _ _)|destruct (k =? "length")];
      discriminate.
  - destruct (array_index k); [|destruct (k =? "length")]; discriminate.
Qed.

Lemma set_throws o k v e : set o k v = Throw e -> language_error e.
Proof.
  unfold language_error.
  destruct o; simpl; intros H; try discriminate;
    try (inversion H; auto; fail);
    try (destruct (k =? "__proto__"); inversion H; auto; fail).
  destruct (array_index k); [discriminate|].
  destruct (k =? "length"); inversion H; auto.
Qed.

Lemma delete_throws o k e : delete o k = Throw e -> language_error e.
Proof.
  unfold language_error.
  destruct o; simpl; intros H; try discriminate; try (inversion H; auto).
  - destruct (array_index k);
      [destruct (_ <? _)%nat|destruct (k =? "length")];
      inversion H; auto.
  - destruct (array_index k);
      [destruct (_ <? _)%nat|destruct (k =? "length")];
      inversion H; auto.
Qed.

Lemma delete_in_throws o k key e :
  delete_in o k key = Throw e -> language_error e.
Proof.
  unfold delete_in.
  destruct (get o k) as [d|e1] eqn:G; simpl;
    [|intros H; inversion H; subst; eapply get_throws; eauto].
  destruct (truthy d); [|discriminate].
  destruct (get d key) as [x|e2] eqn:G2; simpl;
    [|intros H; inversion H; subst; eapply get_throws; eauto].
  destruct (truthy x); [|discriminate].
  destruct (delete d key) as [d'|e3] eqn:D; simpl;
    [|intros H; inversion H; subst; eapply delete_throws; eauto].
  apply set_throws.
Qed.

Lemma applyUninstall_throws M n p e :
  applyUninstall M n p = Throw e -> language_error e.
Proof.
  unfold applyUninstall.
  destruct (delete_in M "dependencies" (to_string n)) as [M1|e1] eqn:D; simpl;
    [|intros H; inversion H; subst; eapply delete_in_throws; eauto].
  apply delete_in_throws.
Qed.

End Mutation.

(** ** What a write makes of a value *)

Module Roundtrip.
Import JS JSFacts.

(** A value with finite numbers is written and read back unchanged. *)
Lemma roundtrip_stable : forall v, stable v = true -> json_roundtrip v = v.
Proof.
  induction v as [| | b | r | s | es named IHe _ | ps IHp]
    using value_nested_ind; simpl; intros H;
    try reflexivity; try discriminate.
  - now rewrite H.
  - apply andb_true_iff in H as [He Hn].
    destruct named; [|discriminate]. f_equal.
    induction IHe as [|x tl Hx _ IHl]; [reflexivity|].
    apply andb_true_iff in He as [Ex Et].
    rewrite (IHl Et). f_equal.
    destruct x; try reflexivity; try discriminate; apply Hx; assumption.
  - f_equal. induction IHp as [|[k x] tl Hx _ IHl]; [reflexivity|].
    apply andb_true_iff in H as [Ex Et].
    rewrite (IHl Et). simpl in Hx.
    destruct x; try reflexivity; try discriminate;
      (f_equal; f_equal; apply Hx; assumption).
Qed.

Lemma stable_is_json : forall v, stable v = true -> is_json v = true.
Proof.
  induction v as [| | b | r | s | es named IHe _ | ps IHp]
    using value_nested_ind; simpl; intros H;
    try reflexivity; try discriminate.
  - apply andb_true_iff in H as [He Hn]. rewrite Hn, andb_true_r.
    clear Hn. induction IHe as [|x tl Hx _ IHl]; [reflexivity|].
    apply andb_true_iff in He as [Ex Et]. now rewrite (Hx Ex), (IHl Et).
  - induction IHp as [|[k x] tl Hx _ IHl]; [reflexivity|].
    apply andb_true_iff in H as [Ex Et]. simpl in Hx.
    now rewrite (Hx Ex), (IHl Et).
Qed.

(** What is written is stable. *)
Lemma roundtrip_is_stable :
  forall v, is_json v = true -> stable (json_roundtrip v) = true.
Proof.
  induction v as [| | b | r | s | es named IHe _ | ps IHp]
    using value_nested_ind; simpl; intros H;
    try reflexivity; try discriminate.
  - destruct (finite r) eqn:F; simpl; [assumption|reflexivity].
  - apply andb_true_iff in H as [He _]. rewrite andb_true_r.
    induction IHe as [|x tl Hx _ IHl]; [reflexivity|].
    apply andb_true_iff in He as [Ex Et]. rewrite (IHl Et), andb_true_r.
    destruct x; try reflexivity; try discriminate; apply Hx; assumption.
  - induction IHp as [|[k x] tl Hx _ IHl]; [reflexivity|].
    apply andb_true_iff in H as [Ex Et]. simpl in Hx.
    specialize (IHl Et). specialize (Hx Ex).
    destruct x; try discriminate; rewrite Hx, IHl; reflexivity.
Qed.

Lemma roundtrip_object ps :
  json_roundtrip (VObj ps) = VObj (props_of (json_roundtrip (VObj ps))).
Proof. reflexivity. Qed.

(** A property is written as its value is. *)
Lemma lookup_roundtrip k ps :
  is_json (VObj ps) = true ->
  or_undefined (lookup k (props_of (json_roundtrip (VObj ps)))) =
  json_roundtrip (or_undefined (lookup k ps)).
Proof.
  induction ps as [|[k' x] tl IH]; [reflexivity|].
  rewrite is_json_cons. intros H. apply andb_true_iff in H as [Hx Ht].
  specialize (IH Ht). simpl in IH |- *.
  destruct x; try discriminate; simpl; destruct (k' =? k); auto.
Qed.

Lemma field_roundtrip M k :
  is_json M = true -> field (json_roundtrip M) k = json_roundtrip (field M k).
Proof.
  intros H. destruct M as [| | | r | | |ps]; try reflexivity.
  - simpl. now destruct (finite r).
  - rewrite roundtrip_object. unfold field. now apply lookup_roundtrip.
Qed.

Lemma is_json_field M k :
  is_json M = true -> field M k <> VUndef -> is_json (field M k) = true.
Proof.
  intros H Hn. destruct M; try (now elim Hn). unfold field in *.
  destruct (lookup k props) eqn:El; [|now elim Hn].
  eapply is_json_lookup; eauto.
Qed.

Lemma entry_roundtrip M m k :
  is_json M = true ->
  entry (json_roundtrip M) m k = json_roundtrip (entry M m k).
Proof.
  intros H. unfold entry. rewrite field_roundtrip by assumption.
  destruct (field M m) eqn:Ef; try reflexivity.
  - simpl. now destruct (finite repr).
  - rewrite <- Ef. apply field_roundtrip. apply is_json_field; [assumption|].
    now rewrite Ef.
Qed.

End Roundtrip.

(** ** The commands *)

Section Commands.

Context {E : Env}.

(** Reading a manifest leaves the world as it is. *)
Lemma readPackageJson_unfold p w :
  readPackageJson p w =
  match w_fs w (join p "package.json") with
  | Some (NFile (Some v)) => (Ok v, w)
  | Some (NFile None) => (Throw (SyntaxError (join p "package.json")), w)
  | Some NDir => (Throw (ReadError (join p "package.json")), w)
  | None => (Throw (NoPackageJsonFound (join p "package.json")), w)
  end.
Proof.
  unfold readPackageJson, access, bind.
  destruct (w_fs w (join p "package.json")) as [n|] eqn:Ex; simpl;
    [rewrite Ex; destruct n as [|[v|]]|]; reflexivity.
Qed.

Lemma readPackageJson_pure p w r w' :
  readPackageJson p w = (r, w') -> w' = w.
Proof.
  rewrite readPackageJson_unfold.
  destruct (w_fs w (join p "package.json")) as [[|[v|]]|];
    intros H; inversion H; reflexivity.
Qed.

Lemma readPackageJson_file p w v :
  readPackageJson p w = (Ok v, w) <->
  w_fs w (join p "package.json") = Some (NFile (Some v)).
Proof.
  rewrite readPackageJson_unfold. split.
  - destruct (w_fs w (join p "package.json")) as [[|[v'|]]|];
      intros H; inversion H; reflexivity.
  - intros H. now rewrite H.
Qed.

(** The steps of a link before the first command: the path exists, the
    manifest of the dependency is read, its name is truthy, and the name
    and the version are printed. *)
Lemma link_unfold p dir w :
  linkLocalDependency p dir w =
  match w_fs w (resolve dir p) with
  | None => (Throw (PathDoesNotExist (resolve dir p)), w)
  | Some _ =>
      match readPackageJson (resolve dir p) w with
      | (Throw e, _) => (Throw e, w)
      | (Ok dep, _) =>
          match JS.get dep "name", JS.get dep "version" with
          | Throw e, _ => (Throw e, w)
          | Ok _, Throw e => (Throw e, w)
          | Ok n, Ok v =>
              if negb (JS.truthy n) then
                (Throw (NoPackageNameFound
                          (join (resolve dir p) "package.json")), w)
              else if negb (JS.converts n && JS.converts v) then
                (Throw TypeError, w)
              else
                (_ <- execCommand "npm" [VStr "link"] (resolve dir p) ;;
                 _ <- execCommand "npm" [VStr "link"; n] dir ;;
                 ret (mkDepInfo n v p)) w
          end
      end
  end.
Proof.
  destruct (readPackageJson (resolve dir p) w) as [r w0] eqn:R.
  pose proof (readPackageJson_pure _ _ _ _ R); subst w0.
  unfold linkLocalDependency, bind at 1, access.
  destruct (w_fs w (resolve dir p)) as [nd|]; [|reflexivity].
  unfold bind at 1. rewrite R. destruct r as [dep|e]; [|reflexivity].
  unfold bind at 1, lift at 1.
  destruct (JS.get dep "name") as [n|e]; [|reflexivity].
  unfold bind at 1, lift at 1.
  destruct (JS.get dep "version") as [v|e]; [|reflexivity].
  destruct (JS.truthy n); [|reflexivity]. cbn [negb].
  unfold bind at 1, lift at 1, JS.to_text.
  destruct (JS.converts n); [|reflexivity].
  unfold bind at 1, lift at 1.
  destruct (JS.converts v); reflexivity.
Qed.

(** A link that succeeds read the dependency's manifest, found a truthy
    name, and ran the two commands with success, in that order. *)
Lemma link_success p dir w d w1 :
  linkLocalDependency p dir w = (Ok d, w1) ->
  exists dep f1 f2,
    w_fs w (resolve dir p) <> None
    /\ readPackageJson (resolve dir p) w = (Ok dep, w)
    /\ JS.get dep "name" = Ok (name d)
    /\ JS.get dep "version" = Ok (version d)
    /\ JS.truthy (name d) = true
    /\ path d = p
    /\ execFile "npm" [VStr "link"] (resolve dir p) (w_fs w) = (true, f1)
    /\ execFile "npm" [VStr "link"; name d] dir f1 = (true, f2)
    /\ w1 = mkWorld f2
              (w_log w ++ [register (resolve dir p); consume (name d) dir]).
Proof.
  intros H. rewrite link_unfold in H.
  destruct (readPackageJson (resolve dir p) w) as [r w0] eqn:R.
  pose proof (readPackageJson_pure _ _ _ _ R); subst w0.
  destruct (w_fs w (resolve dir p)) as [nd|] eqn:Ex; [|discriminate].
  destruct r as [dep|]; [|discriminate].
  destruct (JS.get dep "name") as [n|] eqn:En; [|discriminate].
  destruct (JS.get dep "version") as [v|] eqn:Ev; [|discriminate].
  destruct (JS.truthy n) eqn:T; simpl in H; [|discriminate].
  destruct (JS.converts n && JS.converts v); simpl in H; [|discriminate].
  unfold bind, ret, execCommand in H. simpl in H.
  destruct (execFile "npm" [VStr "link"] (resolve dir p) (w_fs w))
    as [[] f1] eqn:X1; [|discriminate].
  simpl in H.
  destruct (execFile "npm" [VStr "link"; n] dir f1) as [[] f2] eqn:X2;
    [|discriminate].
  inversion H; subst; simpl.
  exists dep, f1, f2. rewrite <- app_assoc. simpl.
  repeat split; auto. congruence.
Qed.

(** The name and the version a link returns convert. *)
Lemma link_converts p dir w d w1 :
  linkLocalDependency p dir w = (Ok d, w1) ->
  JS.converts (name d) = true /\ JS.converts (version d) = true.
Proof.
  intros H. rewrite link_unfold in H.
  destruct (w_fs w (resolve dir p)) as [nd|]; [|discriminate].
  destruct (readPackageJson (resolve dir p) w) as [[dep|] w0]; [|discriminate].
  destruct (JS.get dep "name") as [n|]; [|discriminate].
  destruct (JS.get dep "version") as [v|]; [|discriminate].
  destruct (JS.truthy n); simpl in H; [|discriminate].
  destruct (JS.converts n && JS.converts v) eqn:C; simpl in H; [|discriminate].
  apply andb_true_iff in C.
  unfold bind, ret in H.
  destruct (execCommand "npm" [VStr "link"] (resolve dir p) w) as [[[]|] w2];
    [|discriminate].
  destruct (execCommand "npm" [VStr "link"; n] dir w2) as [[[]|] w3];
    [|discriminate].
  now inversion H; subst.
Qed.

(** What a link adds to the log, whatever its result: the consume step
    carries the name read from the manifest of the dependency. *)
Lemma link_log p dir w :
  exists evs,
    w_log (snd (linkLocalDependency p dir w)) = w_log w ++ evs
    /\ (evs = []
        \/ evs = [register (resolve dir p)]
        \/ exists dep n,
             readPackageJson (resolve dir p) w = (Ok dep, w)
             /\ JS.get dep "name" = Ok n
             /\ fst (execFile "npm" [VStr "link"] (resolve dir p) (w_fs w))
                = true
             /\ evs = [register (resolve dir p); consume n dir]).
Proof.
  rewrite link_unfold.
  destruct (readPackageJson (resolve dir p) w) as [r w0] eqn:R.
  pose proof (readPackageJson_pure _ _ _ _ R); subst w0.
  destruct (w_fs w (resolve dir p)) as [nd|] eqn:Ex;
    [|exists []; rewrite app_nil_r; auto].
  destruct r as [dep|]; [|exists []; rewrite app_nil_r; auto].
  destruct (JS.get dep "name") as [n|] eqn:En;
    [|exists []; rewrite app_nil_r; auto].
  destruct (JS.get dep "version") as [v|] eqn:Ev;
    [|exists []; rewrite app_nil_r; auto].
  destruct (JS.truthy n) eqn:T; simpl;
    [|exists []; rewrite app_nil_r; auto].
  destruct (JS.converts n && JS.converts v); simpl;
    [|exists []; rewrite app_nil_r; auto].
  unfold bind, ret, execCommand. simpl.
  destruct (execFile "npm" [VStr "link"] (resolve dir p) (w_fs w))
    as [[] f1] eqn:X1; simpl;
    [|exists [register (resolve dir p)]; auto].
  exists [register (resolve dir p); consume n dir].
  destruct (execFile "npm" [VStr "link"; n] dir f1) as [[] f2] eqn:X2;
    simpl; rewrite <- app_assoc; simpl;
    (split; [reflexivity|right; right; exists dep, n; auto]).
Qed.

Lemma get_defined o k x k' :
  JS.get o k = Ok x -> exists y, JS.get o k' = Ok y.
Proof.
  destruct o; simpl; try discriminate; intros _; eauto.
  - destruct (JS.array_index k'); [destruct (String.get _ _)|destruct (k' =? "length")]; eauto.
  - destruct (JS.array_index k'); [|destruct (k' =? "length")]; eauto.
Qed.

(** A link stops at a dependency manifest whose name is falsy, before it
    runs anything. *)
Lemma link_without_name p dir w dep n :
  w_fs w (resolve dir p) <> None ->
  readPackageJson (resolve dir p) w = (Ok dep, w) ->
  JS.get dep "name" = Ok n -> JS.truthy n = false ->
  linkLocalDependency p dir w =
  (Throw (NoPackageNameFound (join (resolve dir p) "package.json")), w).
Proof.
  intros Hex Hr Hn Ht. rewrite link_unfold.
  destruct (w_fs w (resolve dir p)) as [nd|]; [|congruence].
  rewrite Hr, Hn.
  destruct (get_defined _ _ _ "version" Hn) as [v Hv]. rewrite Hv.
  now rewrite Ht.
Qed.

(** A link whose register step is reached and fails stops there. *)
Lemma link_register_fails p dir w dep n v f :
  w_fs w (resolve dir p) <> None ->
  readPackageJson (resolve dir p) w = (Ok dep, w) ->
  JS.get dep "name" = Ok n -> JS.truthy n = true ->
  JS.get dep "version" = Ok v ->
  JS.converts n = true -> JS.converts v = true ->
  execFile "npm" [VStr "link"] (resolve dir p) (w_fs w) = (false, f) ->
  linkLocalDependency p dir w =
  (Throw (ExecError "npm" [VStr "link"] (resolve dir p)),
   mkWorld f (w_log w ++ [register (resolve dir p)])).
Proof.
  intros Hex Hr Hn Ht Hv Cn Cv Hx. rewrite link_unfold.
  destruct (w_fs w (resolve dir p)) as [nd|]; [|congruence].
  rewrite Hr, Hn, Hv, Ht, Cn, Cv. simpl.
  unfold bind, execCommand. now rewrite Hx.
Qed.

(** A link whose consume step is reached and fails stops there. *)
Lemma link_consume_fails p dir w dep n v f1 f2 :
  w_fs w (resolve dir p) <> None ->
  readPackageJson (resolve dir p) w = (Ok dep, w) ->
  JS.get dep "name" = Ok n -> JS.truthy n = true ->
  JS.get dep "version" = Ok v ->
  JS.converts n = true -> JS.converts v = true ->
  execFile "npm" [VStr "link"] (resolve dir p) (w_fs w) = (true, f1) ->
  execFile "npm" [VStr "link"; n] dir f1 = (false, f2) ->
  linkLocalDependency p dir w =
  (Throw (ExecError "npm" [VStr "link"; n] dir),
   mkWorld f2 (w_log w ++ [register (resolve dir p); consume n dir])).
Proof.
  intros Hex Hr Hn Ht Hv Cn Cv Hx Hy. rewrite link_unfold.
  destruct (w_fs w (resolve dir p)) as [nd|]; [|congruence].
  rewrite Hr, Hn, Hv, Ht, Cn, Cv. simpl.
  unfold bind, execCommand. rewrite Hx. simpl. rewrite Hy.
  now rewrite <- app_assoc.
Qed.

(** A link stops at a name or a version that does not convert, before it
    runs anything. *)
Lemma link_unprintable p dir w dep n v :
  w_fs w (resolve dir p) <> None ->
  readPackageJson (resolve dir p) w = (Ok dep, w) ->
  JS.get dep "name" = Ok n -> JS.truthy n = true ->
  JS.get dep "version" = Ok v ->
  JS.converts n && JS.converts v = false ->
  linkLocalDependency p dir w = (Throw TypeError, w).
Proof.
  intros Hex Hr Hn Ht Hv C. rewrite link_unfold.
  destruct (w_fs w (resolve dir p)) as [nd|]; [|congruence].
  now rewrite Hr, Hn, Hv, Ht, C.
Qed.

Lemma writePackageJson_object dir ps w :
  writePackageJson dir (VObj ps) w =
  if writable (w_fs w) (join dir "package.json")
  then (Ok tt, written_world dir (VObj ps) w)
  else (Throw (WriteError (join dir "package.json")),
        torn_world dir (VObj ps) w).
Proof. reflexivity. Qed.

(** What [updatePackageJson] does to a world whose manifest is a
    manifest. *)
Lemma updatePackageJson_manifest_at dir d w M :
  readPackageJson dir w = (Ok M, w) -> shaped M = true ->
  exists ps',
    applyInstall M d = Ok (VObj ps')
    /\ updatePackageJson dir d w =
        if writable (w_fs w) (join dir "package.json")
        then (Ok tt, written_world dir (VObj ps') w)
        else (Throw (WriteError (join dir "package.json")),
              torn_world dir (VObj ps') w).
Proof.
  intros Hr Hs.
  destruct (Mutation.applyInstall_shaped M d Hs) as (ps' & Ha & _).
  exists ps'. split; [assumption|].
  unfold updatePackageJson, bind at 1. rewrite Hr.
  unfold bind, lift. rewrite Ha. apply writePackageJson_object.
Qed.

Lemma read_after_write f l p v :
  readPackageJson p (mkWorld (fs_write f (join p "package.json")
                                (NFile (Some v))) l) =
  (Ok v, mkWorld (fs_write f (join p "package.json") (NFile (Some v))) l).
Proof.
  apply readPackageJson_file. simpl. unfold fs_write.
  now rewrite String.eqb_refl.
Qed.

Lemma read_written dir v w :
  readPackageJson dir (written_world dir v w) =
  (Ok (JS.json_roundtrip v), written_world dir v w).
Proof. apply read_after_write. Qed.

(** The entries of a map after an assignment under [k]. *)
Lemma entry_of_assign X m k c ps :
  field X m = VObj (JS.assign k c ps) ->
  (k <> "__proto__" -> entry X m k = c)
  /\ forall k', k' <> k -> entry X m k' = JS.or_undefined (JS.lookup k' ps).
Proof.
  intros H. unfold entry. rewrite H. simpl. split.
  - intros Hk. now rewrite JSFacts.assign_plain, JSFacts.lookup_define_same.
  - intros k' Hne. now rewrite JSFacts.lookup_assign_other.
Qed.

Lemma entry_props_of M m k :
  JS.or_undefined (JS.lookup k (props_of (field M m))) = entry M m k.
Proof. unfold entry. destruct (field M m); reflexivity. Qed.

(** The manifest a successful single install leaves on disk: what a
    write makes of the manifest [applyInstall] returns. *)
Lemma installSingle_done p w w' dep n v M :
  installSingle p w = (Done tt, w') ->
  readPackageJson (resolve cwd p) w = (Ok dep, w) ->
  JS.get dep "name" = Ok n ->
  JS.get dep "version" = Ok v ->
  readPackageJson cwd (snd (linkLocalDependency p cwd w)) =
    (Ok M, snd (linkLocalDependency p cwd w)) ->
  is_manifest M = true ->
  exists ps',
    readPackageJson cwd w' = (Ok (JS.json_roundtrip (VObj ps')), w')
    /\ JS.is_json (VObj ps') = true
    /\ field (VObj ps') "dependencies" =
        VObj (JS.assign (JS.to_string n) (caret v)
                (props_of (field M "dependencies")))
    /\ field (VObj ps') "localDependencies" =
        VObj (JS.assign p (caret v)
                (props_of (field M "localDependencies")))
    /\ (forall k, k <> "dependencies" -> k <> "localDependencies" ->
         field (VObj ps') k = field M k).
Proof.
  intros Hi Hdep Hn Hv HM Hm.
  unfold installSingle, run, bind in Hi.
  destruct (linkLocalDependency p cwd w) as [[d|e] w1] eqn:L;
    [|discriminate].
  simpl in HM.
  destruct (link_success _ _ _ _ _ L)
    as (dep' & f1 & f2 & _ & Hdep' & Hn' & Hv' & _ & Hp & _).
  assert (dep' = dep) by congruence. subst dep'.
  assert (name d = n) by congruence.
  assert (version d = v) by congruence.
  unfold is_manifest in Hm. apply andb_true_iff in Hm as [Hj Hs].
  destruct (updatePackageJson_manifest_at cwd d w1 M HM Hs) as (ps' & Ha & Hu).
  rewrite Hu in Hi.
  destruct (writable (w_fs w1) (join cwd "package.json")); [|discriminate].
  inversion Hi; subst w'. exists ps'.
  split; [apply read_written|].
  destruct (Mutation.applyInstall_shaped M d Hs)
    as (ps2 & Ha2 & Fd & Fl & Fo & J).
  assert (ps2 = ps') by congruence. subst ps2 n v p. auto.
Qed.

(** An entry of the manifest on disk, from the manifest written. *)
Lemma entry_on_disk X m k c :
  JS.is_json X = true -> entry X m k = caret c ->
  entry (JS.json_roundtrip X) m k = caret c.
Proof.
  intros Hj He. rewrite Roundtrip.entry_roundtrip by assumption.
  now rewrite He.
Qed.

(** What [updatePackageJson] adds to the log: at most one write, of the
    consumer manifest. *)
Lemma updatePackageJson_log dir d w :
  exists evs,
    w_log (snd (updatePackageJson dir d w)) = w_log w ++ evs
    /\ (evs = []
        \/ exists M0 M,
             readPackageJson dir w = (Ok M0, w)
             /\ applyInstall M0 d = Ok M
             /\ evs = [EWrite (join dir "package.json") M]).
Proof.
  unfold updatePackageJson, bind at 1.
  destruct (readPackageJson dir w) as [r w0] eqn:R.
  pose proof (readPackageJson_pure _ _ _ _ R); subst w0.
  destruct r as [M|]; [|exists []; rewrite app_nil_r; auto].
  unfold bind, lift.
  destruct (applyInstall M d) as [M'|] eqn:A;
    [|exists []; rewrite app_nil_r; auto].
  unfold writePackageJson.
  exists [EWrite (join dir "package.json") M'].
  destruct (writable (w_fs w) (join dir "package.json")); simpl;
    (split; [reflexivity|right; exists M, M'; auto]).
Qed.

(** ** Single install *)

(** X15. After a successful single install of the dependency at path [p],
    whose own manifest has name [n] and version [v], the consumer manifest
    on disk has [dependencies[n]] and [localDependencies[p]] equal to the
    string [^v], for a name and a path other than [__proto__]; the key is
    [p] as the caller gave it: an entry under the resolved absolute path,
    when that is another string, is written back as it was read. *)
Theorem install_records p w w' dep n v M :
  installSingle p w = (Done tt, w') ->
  readPackageJson (resolve cwd p) w = (Ok dep, w) ->
  JS.get dep "name" = Ok n ->
  JS.get dep "version" = Ok v ->
  readPackageJson cwd (snd (linkLocalDependency p cwd w)) =
    (Ok M, snd (linkLocalDependency p cwd w)) ->
  is_manifest M = true ->
  exists M',
    readPackageJson cwd w' = (Ok M', w')
    /\ (JS.to_string n <> "__proto__" ->
        entry M' "dependencies" (JS.to_string n) =
        VStr ("^" ++ JS.to_string v)%string)
    /\ (p <> "__proto__" ->
        entry M' "localDependencies" p = VStr ("^" ++ JS.to_string v)%string)
    /\ (resolve cwd p <> p ->
        entry M' "localDependencies" (resolve cwd p) =
        JS.json_roundtrip (entry M "localDependencies" (resolve cwd p))).
Proof.
  intros Hi Hdep Hn Hv HM Hm.
  destruct (installSingle_done _ _ _ _ _ _ _ Hi Hdep Hn Hv HM Hm)
    as (ps' & Hr & Hj & Fd & Fl & _).
  exists (JS.json_roundtrip (VObj ps')). split; [assumption|].
  destruct (entry_of_assign _ _ _ _ _ Fd) as [Ed _].
  destruct (entry_of_assign _ _ _ _ _ Fl) as [El Eo].
  split; [|split].
  - intros Hk. apply entry_on_disk; auto.
  - intros Hk. apply entry_on_disk; auto.
  - intros Hne. rewrite Roundtrip.entry_roundtrip by assumption.
    rewrite (Eo _ Hne). now rewrite entry_props_of.
Qed.

(** C9, as amended.  A successful single install changes nothing of the
    consumer manifest but the entry [n] of [dependencies] and the entry [p]
    of [localDependencies]: every other key and every other entry is
    written back as a write renders what was read, which is the value
    itself when its numbers are finite, and has [null] for a number that
    is not.  A map that was absent is created empty and then assigned
    into. *)
Theorem install_frame p w w' dep n v M :
  installSingle p w = (Done tt, w') ->
  readPackageJson (resolve cwd p) w = (Ok dep, w) ->
  JS.get dep "name" = Ok n ->
  JS.get dep "version" = Ok v ->
  readPackageJson cwd (snd (linkLocalDependency p cwd w)) =
    (Ok M, snd (linkLocalDependency p cwd w)) ->
  is_manifest M = true ->
  exists M',
    readPackageJson cwd w' = (Ok M', w')
    /\ (forall k, k <> "dependencies" -> k <> "localDependencies" ->
         field M' k = JS.json_roundtrip (field M k)
         /\ (JS.stable (field M k) = true -> field M' k = field M k))
    /\ (forall k, k <> JS.to_string n ->
         entry M' "dependencies" k =
         JS.json_roundtrip (entry M "dependencies" k)
         /\ (JS.stable (entry M "dependencies" k) = true ->
             entry M' "dependencies" k = entry M "dependencies" k))
    /\ (forall k, k <> p ->
         entry M' "localDependencies" k =
         JS.json_roundtrip (entry M "localDependencies" k)
         /\ (JS.stable (entry M "localDependencies" k) = true ->
             entry M' "localDependencies" k = entry M "localDependencies" k))
    /\ (is_object (field M "dependencies") = false ->
         field M' "dependencies" =
         VObj (JS.assign (JS.to_string n) (caret v) []))
    /\ (is_object (field M "localDependencies") = false ->
         field M' "localDependencies" = VObj (JS.assign p (caret v) [])).
Proof.
  intros Hi Hdep Hn Hv HM Hm.
  destruct (installSingle_done _ _ _ _ _ _ _ Hi Hdep Hn Hv HM Hm)
    as (ps' & Hr & Hj & Fd & Fl & Fo).
  exists (JS.json_roundtrip (VObj ps')). split; [assumption|].
  destruct (entry_of_assign _ _ _ _ _ Fd) as [_ Ed].
  destruct (entry_of_assign _ _ _ _ _ Fl) as [_ El].
  assert (Created : forall m k,
             field (VObj ps') m = VObj (JS.assign k (caret v) (props_of (field M m))) ->
             is_object (field M m) = false ->
             field (JS.json_roundtrip (VObj ps')) m =
             VObj (JS.assign k (caret v) [])).
  { intros m k F Ho. rewrite Roundtrip.field_roundtrip, F by assumption.
    replace (props_of (field M m)) with (@nil (string * value))
      by (destruct (field M m); try reflexivity; discriminate).
    destruct (JSFacts.assign_cases k (caret v) []) as [[_ ->]|(_ & _ & _ & ->)];
      [|reflexivity].
    unfold JS.define. simpl. destruct (JS.array_index k); reflexivity. }
  split; [|split; [|split; [|split]]].
  - intros k Kd Kl.
    assert (F : field (JS.json_roundtrip (VObj ps')) k =
                JS.json_roundtrip (field M k))
      by (rewrite Roundtrip.field_roundtrip, Fo by assumption; reflexivity).
    split; [assumption|].
    intros St. now rewrite F, Roundtrip.roundtrip_stable.
  - intros k Hk.
    assert (F : entry (JS.json_roundtrip (VObj ps')) "dependencies" k =
                JS.json_roundtrip (entry M "dependencies" k))
      by (rewrite Roundtrip.entry_roundtrip, (Ed _ Hk), entry_props_of
            by assumption; reflexivity).
    split; [assumption|].
    intros St. now rewrite F, Roundtrip.roundtrip_stable.
  - intros k Hk.
    assert (F : entry (JS.json_roundtrip (VObj ps')) "localDependencies" k =
                JS.json_roundtrip (entry M "localDependencies" k))
      by (rewrite Roundtrip.entry_roundtrip, (El _ Hk), entry_props_of
            by assumption; reflexivity).
    split; [assumption|].
    intros St. now rewrite F, Roundtrip.roundtrip_stable.
  - intros Ho. now apply Created.
  - intros Ho. now apply Created.
Qed.

(** C8, as amended.  After a successful single install of a dependency
    whose manifest has a name and no version, under a name and a path
    other than [__proto__], [dependencies[name]] and
    [localDependencies[path]] both hold the string [^undefined], which has
    ten characters. *)
Theorem install_without_version p w w' dep n M :
  installSingle p w = (Done tt, w') ->
  readPackageJson (resolve cwd p) w = (Ok dep, w) ->
  JS.get dep "name" = Ok n ->
  JS.get dep "version" = Ok VUndef ->
  readPackageJson cwd (snd (linkLocalDependency p cwd w)) =
    (Ok M, snd (linkLocalDependency p cwd w)) ->
  is_manifest M = true ->
  JS.to_string n <> "__proto__" ->
  p <> "__proto__" ->
  exists M',
    readPackageJson cwd w' = (Ok M', w')
    /\ entry M' "dependencies" (JS.to_string n) = VStr "^undefined"
    /\ entry M' "localDependencies" p = VStr "^undefined"
    /\ String.length "^undefined" = 10.
Proof.
  intros Hi Hdep Hn Hv HM Hm Kn Kp.
  destruct (installSingle_done _ _ _ _ _ _ _ Hi Hdep Hn Hv HM Hm)
    as (ps' & Hr & Hj & Fd & Fl & _).
  exists (JS.json_roundtrip (VObj ps')). split; [assumption|].
  destruct (entry_of_assign _ _ _ _ _ Fd) as [Ed _].
  destruct (entry_of_assign _ _ _ _ _ Fl) as [El _].
  split; [|split]; [| |reflexivity].
  - apply (entry_on_disk _ _ _ VUndef); auto.
  - apply (entry_on_disk _ _ _ VUndef); auto.
Qed.

(** C4. A single install of a path whose dependency manifest parses and
    has no [name] ends in [process.exit(1)] on the error "No package name
    found", and the world is the one it started in: no command was run and
    no file was written. *)
Theorem install_missing_name p w dep :
  w_fs w (resolve cwd p) <> None ->
  readPackageJson (resolve cwd p) w = (Ok dep, w) ->
  JS.get dep "name" = Ok VUndef ->
  installSingle p w =
  (Exit1 (NoPackageNameFound (join (resolve cwd p) "package.json")), w).
Proof.
  intros Hex Hr Hn. unfold installSingle, run, bind.
  now rewrite (link_without_name _ _ _ _ _ Hex Hr Hn eq_refl).
Qed.

(** C6. Every link runs the register step before the consume step: what
    a link adds to the log is nothing, the register step alone, or the
    register step followed by the consume step, which then carries the name
    read from the manifest of the dependency and comes after a register
    step that succeeded; a single install adds at most the write of the
    consumer manifest after them.  When the register step is reached and
    fails, the install stops with that error, having run the register step
    only: no consume step, no write. *)
Theorem register_before_consume p w :
  (exists evs,
      w_log (snd (linkLocalDependency p cwd w)) = w_log w ++ evs
      /\ (evs = []
          \/ evs = [register (resolve cwd p)]
          \/ exists dep n,
               readPackageJson (resolve cwd p) w = (Ok dep, w)
               /\ JS.get dep "name" = Ok n
               /\ fst (execFile "npm" [VStr "link"] (resolve cwd p) (w_fs w))
                  = true
               /\ evs = [register (resolve cwd p); consume n cwd]))
  /\ (exists evs,
        w_log (snd (installSingle p w)) = w_log w ++ evs
        /\ (evs = []
            \/ evs = [register (resolve cwd p)]
            \/ exists dep n,
                 readPackageJson (resolve cwd p) w = (Ok dep, w)
                 /\ JS.get dep "name" = Ok n
                 /\ fst (execFile "npm" [VStr "link"] (resolve cwd p) (w_fs w))
                    = true
                 /\ (evs = [register (resolve cwd p); consume n cwd]
                     \/ exists d w1 M0 M,
                          linkLocalDependency p cwd w = (Ok d, w1)
                          /\ readPackageJson cwd w1 = (Ok M0, w1)
                          /\ applyInstall M0 d = Ok M
                          /\ evs = [register (resolve cwd p); consume n cwd;
                                    EWrite (join cwd "package.json") M])))
  /\ (forall dep n v f,
        w_fs w (resolve cwd p) <> None ->
        readPackageJson (resolve cwd p) w = (Ok dep, w) ->
        JS.get dep "name" = Ok n -> JS.truthy n = true ->
        JS.get dep "version" = Ok v ->
        JS.converts n = true -> JS.converts v = true ->
        execFile "npm" [VStr "link"] (resolve cwd p) (w_fs w) = (false, f) ->
        installSingle p w =
        (Exit1 (ExecError "npm" [VStr "link"] (resolve cwd p)),
         mkWorld f (w_log w ++ [register (resolve cwd p)]))).
Proof.
  split; [apply link_log|]. split.
  - destruct (link_log p cwd w) as (evs & Hl & Hc).
    unfold installSingle, run, bind.
    destruct (linkLocalDependency p cwd w) as [[d|e] w1] eqn:L; simpl in Hl.
    + destruct Hc as [->|[->|(dep & n & Hr & Hn & Hx & ->)]];
        try (destruct (link_success _ _ _ _ _ L)
               as (dep0 & f1 & f2 & _ & _ & _ & _ & _ & _ & _ & _ & Hw);
             rewrite Hw in Hl; simpl in Hl;
             apply app_inv_head in Hl; discriminate).
      destruct (updatePackageJson_log cwd d w1) as (evs' & Hu & Hc').
      exists ([register (resolve cwd p); consume n cwd] ++ evs').
      assert (Hlog : w_log (snd (let (r, w2) := updatePackageJson cwd d w1 in
                                 match r with
                                 | Ok a => (Done a, w2)
                                 | Throw e => (Exit1 e, w2)
                                 end)) =
                     w_log w ++ [register (resolve cwd p); consume n cwd] ++ evs').
      { destruct (updatePackageJson cwd d w1) as [[[]|e] w2]; simpl in *;
          rewrite Hu, Hl; now rewrite <- app_assoc. }
      split; [exact Hlog|]. right. right. exists dep, n.
      repeat split; auto.
      destruct Hc' as [->|(M0 & M1 & R0 & A0 & ->)]; [now left|].
      right. exists d, w1, M0, M1. auto.
    + simpl. exists evs. split; [assumption|].
      destruct Hc as [->|[->|(dep & n & Hr & Hn & Hx & ->)]]; auto.
      right. right. exists dep, n. auto.
  - intros dep n v f Hex Hr Hn Ht Hv Cn Cv Hx. unfold installSingle, run, bind.
    now rewrite (link_register_fails _ _ _ _ _ _ _ Hex Hr Hn Ht Hv Cn Cv Hx).
Qed.

(** ** Unlink *)

(** The steps of an unlink before its command: the manifest of the
    dependency is read and its name is printed. *)
Lemma unlink_unfold p w :
  unlinkDependency p w =
  match readPackageJson (resolve cwd p) w with
  | (Throw e, _) => (Exit1 e, w)
  | (Ok dep, _) =>
      match JS.get dep "name" with
      | Throw e => (Exit1 e, w)
      | Ok n =>
          if negb (JS.converts n) then (Exit1 TypeError, w)
          else
            run (_ <- execCommand "npm" [VStr "unlink"; n] cwd ;;
                 pj <- readPackageJson cwd ;;
                 pj <- lift (applyUninstall pj n p) ;;
                 writePackageJson cwd pj) w
      end
  end.
Proof.
  destruct (readPackageJson (resolve cwd p) w) as [r w0] eqn:R.
  pose proof (readPackageJson_pure _ _ _ _ R); subst w0.
  unfold unlinkDependency, run. unfold bind at 1. rewrite R.
  destruct r as [dep|e]; [|reflexivity].
  unfold bind at 1, lift at 1.
  destruct (JS.get dep "name") as [n|e]; [|reflexivity].
  unfold bind at 1, lift at 1, JS.to_text.
  destruct (JS.converts n); reflexivity.
Qed.

(** The manifest a successful unlink leaves on disk: what a write makes
    of the manifest [applyUninstall] returns. *)
Lemma unlink_done p w w' dep n M :
  unlinkDependency p w = (Done tt, w') ->
  readPackageJson (resolve cwd p) w = (Ok dep, w) ->
  JS.get dep "name" = Ok n ->
  readPackageJson cwd (snd (execCommand "npm" [VStr "unlink"; n] cwd w)) =
    (Ok M, snd (execCommand "npm" [VStr "unlink"; n] cwd w)) ->
  is_manifest M = true ->
  exists ps',
    applyUninstall M n p = Ok (VObj ps')
    /\ JS.is_json (VObj ps') = true
    /\ readPackageJson cwd w' = (Ok (JS.json_roundtrip (VObj ps')), w').
Proof.
  intros Hu Hdep Hn HM Hm.
  rewrite unlink_unfold, Hdep, Hn in Hu.
  destruct (JS.converts n); [|discriminate]. cbn [negb] in Hu.
  unfold run in Hu. unfold bind at 1 in Hu.
  destruct (execCommand "npm" [VStr "unlink"; n] cwd w) as [[[]|e] w1];
    [|discriminate].
  simpl in HM. unfold bind at 1 in Hu. rewrite HM in Hu.
  unfold is_manifest in Hm. apply andb_true_iff in Hm as [Hj Hs].
  destruct (Mutation.applyUninstall_shaped M n p Hs)
    as (ps' & Ha & _ & _ & _ & _ & _ & _ & _ & _ & J).
  exists ps'. split; [assumption|]. split; [auto|].
  unfold bind, lift in Hu. rewrite Ha in Hu.
  rewrite writePackageJson_object in Hu.
  destruct (writable (w_fs w1) (join cwd "package.json")); [|discriminate].
  inversion Hu; subst w'. apply read_written.
Qed.

(** C7. Applying the uninstall reconciliation to its own result yields
    that result again, for every manifest, name and path; on a manifest it
    never fails, and it leaves the manifest as it is when neither key is
    there. *)
Theorem uninstall_idempotent M n p :
  (forall M1, applyUninstall M n p = Ok M1 -> applyUninstall M1 n p = Ok M1)
  /\ (shaped M = true -> exists M1, applyUninstall M n p = Ok M1)
  /\ (shaped M = true ->
      entry M "dependencies" (JS.to_string n) = VUndef ->
      entry M "localDependencies" p = VUndef ->
      applyUninstall M n p = Ok M).
Proof.
  split; [intros M1; apply Mutation.applyUninstall_again|]. split.
  - intros Hs.
    destruct (Mutation.applyUninstall_shaped M n p Hs) as (ps' & Ha & _).
    eauto.
  - intros Hs Hd Hl.
    destruct (Mutation.applyUninstall_shaped M n p Hs)
      as (ps' & Ha & _ & _ & _ & _ & _ & _ & _ & Same & _).
    rewrite Ha. f_equal. apply Same.
    + now rewrite Hd.
    + now rewrite Hl.
Qed.

(** X17. A successful unlink invoked with path [p] writes back every entry
    of [localDependencies] whose key is another string than [p], also a
    key that resolves to the same directory; it removes the entry under
    [p] itself, and the entry [dependencies[name]], when the value stored
    there is truthy. *)
Theorem unlink_matches_path_string p w w' dep n M :
  unlinkDependency p w = (Done tt, w') ->
  readPackageJson (resolve cwd p) w = (Ok dep, w) ->
  JS.get dep "name" = Ok n ->
  readPackageJson cwd (snd (execCommand "npm" [VStr "unlink"; n] cwd w)) =
    (Ok M, snd (execCommand "npm" [VStr "unlink"; n] cwd w)) ->
  is_manifest M = true ->
  exists M',
    readPackageJson cwd w' = (Ok M', w')
    /\ (forall q, q <> p ->
         entry M' "localDependencies" q =
         JS.json_roundtrip (entry M "localDependencies" q))
    /\ (forall q, q <> JS.to_string n ->
         entry M' "dependencies" q =
         JS.json_roundtrip (entry M "dependencies" q))
    /\ (JS.truthy (entry M "localDependencies" p) = true ->
         entry M' "localDependencies" p = VUndef)
    /\ (JS.truthy (entry M "dependencies" (JS.to_string n)) = true ->
         entry M' "dependencies" (JS.to_string n) = VUndef).
Proof.
  intros Hu Hdep Hn HM Hm.
  destruct (unlink_done _ _ _ _ _ _ Hu Hdep Hn HM Hm) as (ps' & Ha & Hj & Hr).
  unfold is_manifest in Hm. apply andb_true_iff in Hm as [_ Hs].
  destruct (Mutation.applyUninstall_shaped M n p Hs)
    as (ps2 & Ha2 & _ & Qd & Ql & Td & Fd & Tl & _).
  assert (ps2 = ps') by congruence. subst ps2.
  exists (JS.json_roundtrip (VObj ps')). split; [assumption|].
  repeat split.
  - intros q Hq. now rewrite Roundtrip.entry_roundtrip, Ql.
  - intros q Hq. now rewrite Roundtrip.entry_roundtrip, Qd.
  - intros T. now rewrite Roundtrip.entry_roundtrip, (Tl T).
  - intros T. now rewrite Roundtrip.entry_roundtrip, (Td T).
Qed.

(** C5, on the code.  An unlink of a dependency whose manifest parses and
    has no [name] does run the release step, with [undefined] for the
    package name, and never ends on the error "No package name found". *)
Theorem unlink_missing_name_runs_release p w dep :
  readPackageJson (resolve cwd p) w = (Ok dep, w) ->
  JS.get dep "name" = Ok VUndef ->
  (exists evs,
      w_log (snd (unlinkDependency p w)) =
      w_log w ++ release VUndef cwd :: evs)
  /\ forall packageJsonPath,
      fst (unlinkDependency p w) <> Exit1 (NoPackageNameFound packageJsonPath).
Proof.
  intros Hdep Hn.
  destruct (unlinkDependency p w) as [o w'] eqn:U. simpl.
  rewrite unlink_unfold, Hdep, Hn in U. cbn [JS.converts negb] in U.
  unfold run in U.
  unfold bind at 1, execCommand in U.
  destruct (execFile "npm" [VStr "unlink"; VUndef] cwd (w_fs w))
    as [[] f] eqn:X.
  - set (w1 := mkWorld f (w_log w ++ [EExec "npm" [VStr "unlink"; VUndef] cwd]))
      in U.
    unfold bind at 1 in U. rewrite (readPackageJson_unfold cwd w1) in U.
    destruct (w_fs w1 (join cwd "package.json")) as [[|[pj|]]|];
      try (inversion U; subst; split;
           [exists []; reflexivity|intros q; discriminate]).
    unfold bind, lift in U.
    destruct (applyUninstall pj VUndef p) as [pj'|e] eqn:A;
      [|inversion U; subst; split;
        [exists []; reflexivity
        |intros q; destruct (Mutation.applyUninstall_throws _ _ _ _ A);
         subst e; discriminate]].
    unfold writePackageJson, emit in U.
    destruct (writable (w_fs w1) (join cwd "package.json"));
      inversion U; subst; simpl;
      (split; [rewrite <- app_assoc; simpl; eauto|intros q; discriminate]).
  - inversion U; subst; simpl.
    split; [exists []; reflexivity|intros q; discriminate].
Qed.

(** ** Bulk install *)

Lemma link_no_write p dir w :
  filter is_write (w_log (snd (linkLocalDependency p dir w))) =
  filter is_write (w_log w).
Proof.
  destruct (link_log p dir w) as (evs & -> & Hc).
  rewrite filter_app.
  destruct Hc as [->|[->|(dep & n & _ & _ & _ & ->)]]; simpl;
    now rewrite app_nil_r.
Qed.

(** One turn of the loop after a link that succeeded. *)
Lemma install_entry_linked st lp w d w1 :
  linkLocalDependency lp cwd w = (Ok d, w1) ->
  assignable (packageJson st) = true ->
  exists ps',
    install_entry st lp w =
      (mkLoop (VObj ps') (S (successCount st)) (failureCount st), w1)
    /\ field (VObj ps') "dependencies" =
        VObj (JS.assign (JS.to_string (name d)) (caret (version d))
                (props_of (field (packageJson st) "dependencies")))
    /\ (forall k, k <> "dependencies" ->
         field (VObj ps') k = field (packageJson st) k)
    /\ (JS.is_json (packageJson st) = true -> JS.is_json (VObj ps') = true).
Proof.
  intros L Ha. unfold assignable in Ha.
  apply andb_true_iff in Ha as [Ho Hd].
  destruct (packageJson st) as [| | | | | |ps] eqn:Pj; try discriminate.
  assert (Nd : "dependencies" <> "__proto__") by discriminate.
  destruct (Mutation.init_field_object ps "dependencies" Nd Hd)
    as (ps1 & E1 & F1 & O1 & J1).
  destruct (Mutation.assign_in_object ps1 "dependencies"
              (JS.to_string (name d)) (caret (version d)) _ Nd F1)
    as (ps2 & E2 & F2 & O2 & J2).
  exists ps2. unfold install_entry. rewrite L, Pj, E1, E2.
  repeat split; auto.
  intros k Hk. now rewrite O2, O1.
Qed.

(** One turn of the loop after a link that failed. *)
Lemma install_entry_failed st lp w e w1 :
  linkLocalDependency lp cwd w = (Throw e, w1) ->
  install_entry st lp w =
  (mkLoop (packageJson st) (successCount st) (S (failureCount st)),
   emit (EFailed e) w1).
Proof. intros L. unfold install_entry. now rewrite L. Qed.

(** A turn of the loop touches no key of the manifest but
    [dependencies]. *)
Lemma install_entry_other st lp w k :
  k <> "dependencies" ->
  JS.get (packageJson (fst (install_entry st lp w))) k =
  JS.get (packageJson st) k.
Proof.
  intros Hk. unfold install_entry.
  destruct (linkLocalDependency lp cwd w) as [[d|e] w1]; [|reflexivity].
  destruct (init_field (packageJson st) "dependencies") as [pj1|e] eqn:I;
    [|reflexivity].
  destruct (Mutation.init_field_spec _ _ _ JSFacts.plain_dependencies I)
    as (d0 & _ & _ & O1 & _).
  destruct (assign_in pj1 "dependencies" _ _) as [pj2|e] eqn:A; simpl;
    [|now apply O1].
  destruct (Mutation.assign_in_spec _ _ _ _ _ JSFacts.plain_dependencies A)
    as (d1 & d2 & _ & _ & _ & O2 & _).
  rewrite O2 by assumption. now apply O1.
Qed.

Lemma install_entries_other deps : forall st w k,
  k <> "dependencies" ->
  JS.get (packageJson (fst (install_entries deps st w))) k =
  JS.get (packageJson st) k.
Proof.
  induction deps as [|[lp x] rest IH]; intros st w k Hk; [reflexivity|].
  simpl. destruct (install_entry st lp w) as [st' w'] eqn:S1.
  rewrite IH by assumption.
  change st' with (fst (st', w')). rewrite <- S1.
  now apply install_entry_other.
Qed.

Lemma assignable_field ps ds :
  field (VObj ps) "dependencies" = VObj ds -> assignable (VObj ps) = true.
Proof. intros H. unfold assignable. now rewrite H. Qed.

(** The counters after the loop, and the writes in the log: none is
    added by the loop. *)
Lemma install_entries_counts deps : forall st w,
  assignable (packageJson st) = true ->
  successCount (fst (install_entries deps st w)) =
    successCount st + successes (link_results deps w)
  /\ failureCount (fst (install_entries deps st w)) =
    failureCount st + failures (link_results deps w)
  /\ filter is_write (w_log (snd (install_entries deps st w))) =
    filter is_write (w_log w)
  /\ assignable (packageJson (fst (install_entries deps st w))) = true
  /\ (JS.is_json (packageJson st) = true ->
      JS.is_json (packageJson (fst (install_entries deps st w))) = true).
Proof.
  induction deps as [|[lp x] rest IH]; intros st w Ha.
  - simpl. unfold successes, failures. simpl. repeat split; auto; lia.
  - simpl. pose proof (link_no_write lp cwd w) as Hw.
    destruct (linkLocalDependency lp cwd w) as [[d|e] w1] eqn:L.
    + destruct (install_entry_linked st lp w d w1 L Ha)
        as (ps' & S1 & F & _ & J).
      rewrite S1.
      destruct (IH (mkLoop (VObj ps') (S (successCount st)) (failureCount st))
                  w1 (assignable_field _ _ F)) as (Hs & Hf & Hl & Hk & Hj).
      simpl in Hs, Hf, Hw, Hj. rewrite Hs, Hf, Hl, Hw.
      unfold successes, failures. simpl. repeat split; auto; lia.
    + rewrite (install_entry_failed st lp w e w1 L).
      destruct (IH (mkLoop (packageJson st) (successCount st)
                      (S (failureCount st)))
                  (emit (EFailed e) w1) Ha) as (Hs & Hf & Hl & Hk & Hj).
      simpl in Hs, Hf, Hw, Hj. rewrite Hs, Hf, Hl.
      unfold emit. simpl. rewrite filter_app. simpl. rewrite app_nil_r, Hw.
      unfold successes, failures. simpl. repeat split; auto; lia.
Qed.

Lemma results_split results :
  successes results + failures results = length results.
Proof.
  unfold successes, failures.
  induction results as [|[] tl IH]; simpl; lia.
Qed.

Lemma link_results_length deps : forall w,
  length (link_results deps w) = length deps.
Proof.
  induction deps as [|[lp x] rest IH]; intros w; [reflexivity|].
  simpl. destruct (linkLocalDependency lp cwd w) as [[d|e] w1]; simpl;
    now rewrite IH.
Qed.

(** [installAll] on a world whose consumer manifest is [M], whose
    [dependencies] can be assigned into. *)
Lemma installAll_unfold w M :
  readPackageJson cwd w = (Ok M, w) ->
  assignable M = true ->
  installAll w =
  match local_entries M with
  | [] => (Done NoLocalDependencies, w)
  | _ :: _ =>
      let st := fst (install_entries (local_entries M) (mkLoop M 0 0) w) in
      let w1 := snd (install_entries (local_entries M) (mkLoop M 0 0) w) in
      if (0 <? successCount st)%nat then
        run (_ <- writePackageJson cwd (packageJson st) ;;
             ret (Summary (successCount st) (failureCount st))) w1
      else (Done (Summary (successCount st) (failureCount st)), w1)
  end.
Proof.
  intros Hr Ha. unfold installAll, run.
  unfold bind at 1. rewrite Hr.
  unfold assignable in Ha. apply andb_true_iff in Ha as [Ho _].
  destruct M as [| | | | | |ps]; try discriminate.
  unfold local_entries. rewrite JSFacts.get_object.
  unfold bind at 1, lift at 1.
  destruct (JS.truthy (field (VObj ps) "localDependencies")) eqn:T;
    [|reflexivity].
  cbn [negb].
  destruct (JS.entries (field (VObj ps) "localDependencies")) as [es|e] eqn:Es.
  - unfold bind at 1, lift.
    destruct es as [|e0 es]; [reflexivity|].
    cbn [length Nat.eqb].
    destruct (install_entries (e0 :: es) (mkLoop (VObj ps) 0 0) w)
      as [st w1].
    cbn [fst snd].
    destruct (0 <? successCount st)%nat; [reflexivity|].
    unfold bind, ret. reflexivity.
  - destruct (field (VObj ps) "localDependencies"); discriminate.
Qed.

(** ** Bulk install: the claims *)

(** C2. A bulk install over N entries of [localDependencies], K of whose
    links fail, runs the loop over all of them and ends it with N - K
    successes and K failures, without a write.  When N - K is zero it
    reports these counts and leaves the world as the loop left it, nothing
    written.  When N - K is positive it writes the consumer manifest once,
    after the loop: the file then holds the manifest of the loop and the
    counts are reported; or that one write fails, and the command exits on
    its error.  Without entries it reports that there is nothing to
    install and leaves the world as it is. *)
Theorem bulk_install_counts w M :
  readPackageJson cwd w = (Ok M, w) ->
  assignable M = true ->
  let N := length (local_entries M) in
  let K := failures (link_results (local_entries M) w) in
  let st := fst (install_entries (local_entries M) (mkLoop M 0 0) w) in
  let w1 := snd (install_entries (local_entries M) (mkLoop M 0 0) w) in
  (N = 0 -> installAll w = (Done NoLocalDependencies, w))
  /\ (0 < N ->
      K <= N
      /\ successCount st = N - K
      /\ failureCount st = K
      /\ filter is_write (w_log w1) = filter is_write (w_log w)
      /\ (N - K = 0 -> installAll w = (Done (Summary 0 K), w1))
      /\ (0 < N - K ->
          writable (w_fs w1) (join cwd "package.json") = true ->
          installAll w =
          (Done (Summary (N - K) K), written_world cwd (packageJson st) w1)
          /\ readPackageJson cwd (snd (installAll w)) =
             (Ok (JS.json_roundtrip (packageJson st)), snd (installAll w)))
      /\ (0 < N - K ->
          writable (w_fs w1) (join cwd "package.json") = false ->
          installAll w =
          (Exit1 (WriteError (join cwd "package.json")),
           torn_world cwd (packageJson st) w1))).
Proof.
  intros Hr Ha N K st w1. rewrite (installAll_unfold w M Hr Ha).
  subst N K st w1. set (deps := local_entries M).
  split.
  - intros H0. destruct deps; [reflexivity|discriminate].
  - intros HN.
    destruct (install_entries_counts deps (mkLoop M 0 0) w Ha)
      as (Hs & Hf & Hl & Hk & _).
    pose proof (results_split (link_results deps w)) as Hsp.
    rewrite link_results_length in Hsp.
    simpl in Hs, Hf.
    destruct deps as [|e0 es] eqn:Ed; [simpl in HN; lia|]. rewrite <- Ed in *.
    cbv zeta.
    set (st := fst (install_entries deps (mkLoop M 0 0) w)) in *.
    set (w1 := snd (install_entries deps (mkLoop M 0 0) w)) in *.
    assert (Es : length deps - failures (link_results deps w) =
                 successCount st) by lia.
    split; [lia|]. split; [lia|]. split; [lia|]. split; [assumption|].
    rewrite Es, <- Hf. clear Hs Hf Hsp Es.
    unfold assignable in Hk. apply andb_true_iff in Hk as [Hk _].
    destruct (packageJson st) as [| | | | | |psf] eqn:Pj; try discriminate.
    split; [|split].
    + intros Z. rewrite Z. reflexivity.
    + intros Pos Hw. apply Nat.ltb_lt in Pos. rewrite Pos.
      unfold run, bind, ret. rewrite writePackageJson_object, Hw.
      split; [reflexivity|]. apply read_written.
    + intros Pos Hw. apply Nat.ltb_lt in Pos. rewrite Pos.
      unfold run, bind, ret. rewrite writePackageJson_object, Hw.
      reflexivity.
Qed.

(** The manifest a bulk install writes: the one it read, but for
    [dependencies]. *)
Lemma installAll_written w M w' s f :
  readPackageJson cwd w = (Ok M, w) ->
  is_manifest M = true ->
  installAll w = (Done (Summary s f), w') ->
  0 < s ->
  exists M',
    readPackageJson cwd w' = (Ok M', w')
    /\ forall k, k <> "dependencies" ->
         field M' k = JS.json_roundtrip (field M k).
Proof.
  intros Hr Hm Hi Hs. unfold is_manifest, shaped in Hm.
  apply andb_true_iff in Hm as [Hj Hm].
  apply andb_true_iff in Hm as [Ha _]. fold (assignable M) in Ha.
  rewrite (installAll_unfold w M Hr Ha) in Hi.
  destruct (local_entries M) as [|e0 es] eqn:Ed; [discriminate|].
  rewrite <- Ed in Hi. cbv zeta in Hi.
  destruct (install_entries_counts (local_entries M) (mkLoop M 0 0) w Ha)
    as (_ & _ & _ & Hk & J).
  pose proof (install_entries_other (local_entries M) (mkLoop M 0 0) w) as Ho.
  set (st := fst (install_entries (local_entries M) (mkLoop M 0 0) w)) in *.
  set (w1 := snd (install_entries (local_entries M) (mkLoop M 0 0) w)) in *.
  simpl in Ho, J. specialize (J Hj).
  unfold assignable in Hk, Ha.
  apply andb_true_iff in Hk as [Hk _]. apply andb_true_iff in Ha as [Ha _].
  destruct (packageJson st) as [| | | | | |psf] eqn:Pj; try discriminate.
  destruct M as [| | | | | |ps]; try discriminate.
  destruct (0 <? successCount st)%nat eqn:Pos.
  - unfold run, bind, ret in Hi. rewrite writePackageJson_object in Hi.
    destruct (writable (w_fs w1) (join cwd "package.json"));
      [|discriminate].
    inversion Hi; subst. exists (JS.json_roundtrip (VObj psf)).
    split; [apply read_written|].
    intros k Hk'. specialize (Ho k Hk'). simpl in Ho.
    rewrite Roundtrip.field_roundtrip by assumption.
    f_equal. now inversion Ho.
  - inversion Hi; subst. apply Nat.ltb_ge in Pos. lia.
Qed.

(** X16. One entry of a bulk install.  When its link succeeds, the loop sets
    [dependencies[name]] to [^version], for a name other than
    [__proto__], and touches nothing else: every other entry of
    [dependencies] and every other key of the manifest, the whole of
    [localDependencies] among them, is as before, whatever range is
    stored there; [successCount] grows by one.  When its link fails, the
    error is printed, [failureCount] grows by one and the manifest is
    untouched.  In both cases the loop goes on with the entries that
    follow, and the manifest the bulk install finally writes has the
    [localDependencies] it read, as a write renders it. *)
Theorem bulk_entry st lp x rest w :
  (forall d w1,
      linkLocalDependency lp cwd w = (Ok d, w1) ->
      assignable (packageJson st) = true ->
      exists pj,
        install_entry st lp w =
          (mkLoop pj (S (successCount st)) (failureCount st), w1)
        /\ (JS.to_string (name d) <> "__proto__" ->
            entry pj "dependencies" (JS.to_string (name d)) =
            VStr ("^" ++ JS.to_string (version d))%string)
        /\ (forall k, k <> JS.to_string (name d) ->
             entry pj "dependencies" k =
             entry (packageJson st) "dependencies" k)
        /\ field pj "localDependencies" =
            field (packageJson st) "localDependencies"
        /\ (forall k, k <> "dependencies" ->
             field pj k = field (packageJson st) k))
  /\ (forall e w1,
        linkLocalDependency lp cwd w = (Throw e, w1) ->
        install_entry st lp w =
        (mkLoop (packageJson st) (successCount st) (S (failureCount st)),
         mkWorld (w_fs w1) (w_log w1 ++ [EFailed e])))
  /\ install_entries ((lp, x) :: rest) st w =
     install_entries rest (fst (install_entry st lp w))
       (snd (install_entry st lp w))
  /\ (forall M w0 w' s f,
        readPackageJson cwd w0 = (Ok M, w0) ->
        is_manifest M = true ->
        installAll w0 = (Done (Summary s f), w') ->
        0 < s ->
        exists M',
          readPackageJson cwd w' = (Ok M', w')
          /\ field M' "localDependencies" =
             JS.json_roundtrip (field M "localDependencies")
          /\ (JS.stable (field M "localDependencies") = true ->
              field M' "localDependencies" = field M "localDependencies")).
Proof.
  split; [|split; [|split]].
  - intros d w1 L Ha.
    destruct (install_entry_linked st lp w d w1 L Ha)
      as (ps' & S1 & F & O & _).
    exists (VObj ps'). split; [assumption|].
    destruct (entry_of_assign _ _ _ _ _ F) as [Ed Eo].
    split; [assumption|]. split.
    + intros k Hk. rewrite (Eo _ Hk). apply entry_props_of.
    + split; [apply O; discriminate|assumption].
  - intros e w1 L. apply install_entry_failed. assumption.
  - simpl. destruct (install_entry st lp w). reflexivity.
  - intros M w0 w' s f Hr Hm Hi Hs.
    destruct (installAll_written _ _ _ _ _ Hr Hm Hi Hs) as (M' & Hr' & Ho).
    exists M'. split; [assumption|].
    assert (F : field M' "localDependencies" =
                JS.json_roundtrip (field M "localDependencies"))
      by (apply Ho; discriminate).
    split; [assumption|].
    intros St. now rewrite F, Roundtrip.roundtrip_stable.
Qed.

End Commands.

(** * Further properties of the commands *)

(** ** Writing a property again *)

Module Again.
Import JS JSFacts.

Lemma replace_same k v ps : lookup k ps = Some v -> replace k v ps = ps.
Proof.
  induction ps as [|[k' v'] tl IH]; simpl; [reflexivity|].
  destruct (k' =? k); intros H; [congruence|]. now rewrite IH.
Qed.

Lemma define_same k v ps : lookup k ps = Some v -> define k v ps = ps.
Proof. intros H. unfold define. rewrite H. now apply replace_same. Qed.

Lemma define_again k v ps : define k v (define k v ps) = define k v ps.
Proof. apply define_same, lookup_define_same. Qed.

Lemma set_nth_length n v l : length (set_nth n v l) = length l.
Proof.
  revert n. induction l as [|x tl IH]; intros [|n]; simpl; auto.
Qed.

Lemma set_nth_again n v l : set_nth n v (set_nth n v l) = set_nth n v l.
Proof.
  revert n. induction l as [|x tl IH]; intros [|n]; simpl; auto.
  now rewrite IH.
Qed.

Lemma set_nth_last v l x : set_nth (length l) v (l ++ [x]) = l ++ [v].
Proof. induction l as [|y tl IH]; simpl; [reflexivity|]. now rewrite IH. Qed.

Lemma array_put_again i v es :
  array_put i v (array_put i v es) = array_put i v es.
Proof.
  unfold array_put.
  destruct (N.to_nat i <? length es)%nat eqn:L.
  - rewrite set_nth_length, L. apply set_nth_again.
  - apply Nat.ltb_ge in L.
    assert (Hn : length (es ++ repeat VUndef (N.to_nat i - length es)) =
                 N.to_nat i)
      by (rewrite length_app, repeat_length; lia).
    rewrite app_assoc.
    assert (Hlt : (N.to_nat i <?
                   length ((es ++ repeat VUndef (N.to_nat i - length es))
                           ++ [v]))%nat = true)
      by (apply Nat.ltb_lt; rewrite length_app, Hn; simpl; lia).
    rewrite Hlt. rewrite <- Hn at 1. apply set_nth_last.
Qed.

Lemma assign_again k v ps : assign k v (assign k v ps) = assign k v ps.
Proof.
  destruct (assign_cases k v ps) as [[H Ea]|(_ & _ & _ & Ea)]; rewrite Ea.
  - rewrite assign_own; [apply define_again|].
    unfold has. now rewrite lookup_define_same.
  - exact Ea.
Qed.

(** Assigning the same value to the same key again changes nothing. *)
Lemma set_again o k v o1 : set o k v = Ok o1 -> set o1 k v = Ok o1.
Proof.
  destruct o; simpl; try discriminate;
    try (destruct (k =? "__proto__") eqn:Ek; [|discriminate];
         intros H; inversion H; subst; simpl; now rewrite Ek).
  - destruct (array_index k) as [i|] eqn:Ei.
    + intros H; inversion H; subst; simpl. rewrite Ei.
      now rewrite array_put_again.
    + destruct (k =? "length") eqn:El; [discriminate|].
      intros H; inversion H; subst; simpl. rewrite Ei, El.
      now rewrite assign_again.
  - intros H; inversion H; subst; simpl. now rewrite assign_again.
Qed.

(** Assigning to a key the value read from it changes nothing. *)
Lemma set_back o k v :
  plain_key k -> get o k = Ok v -> v <> VUndef -> set o k v = Ok o.
Proof.
  intros (Hi & Hl & Hp) H Hv. destruct o; simpl in H |- *; try discriminate;
    try (inversion H; congruence).
  - rewrite Hi in H. rewrite (length_eqb_false _ Hl) in H. inversion H. congruence.
  - rewrite Hi in H |- *. rewrite (length_eqb_false _ Hl) in H |- *.
    destruct (lookup k named) as [x|] eqn:Lk; simpl in H; inversion H;
      [subst x|congruence].
    now rewrite assign_plain, (define_same _ _ _ Lk).
  - destruct (lookup k props) as [x|] eqn:Lk; simpl in H; inversion H;
      [subst x|congruence].
    now rewrite assign_plain, (define_same _ _ _ Lk).
Qed.

(** What an assignment into a truthy value returns is truthy. *)
Lemma set_truthy o k v o1 :
  truthy o = true -> set o k v = Ok o1 ->
  truthy o1 = true /\ o1 <> VUndef.
Proof.
  intros T H.
  assert (T1 : truthy o1 = true).
  { destruct o; simpl in H; try discriminate;
      try (destruct (k =? "__proto__"); [|discriminate];
           inversion H; subst; assumption).
    - destruct (array_index k); [|destruct (k =? "length")];
        inversion H; reflexivity.
    - inversion H; reflexivity. }
  split; [assumption|]. intros ->. discriminate.
Qed.

Lemma truthy_init d : truthy (if truthy d then d else VObj []) = true.
Proof. destruct (truthy d) eqn:T; [assumption|reflexivity]. Qed.

Lemma init_field_truthy o k d :
  get o k = Ok d -> truthy d = true -> init_field o k = Ok o.
Proof. intros H T. unfold init_field. rewrite H. simpl. now rewrite T. Qed.

Lemma assign_in_again o k key v d :
  plain_key k -> get o k = Ok d -> d <> VUndef -> set d key v = Ok d ->
  assign_in o k key v = Ok o.
Proof.
  intros Hk H Hd Hs. unfold assign_in. rewrite H. simpl. rewrite Hs. simpl.
  now apply set_back.
Qed.

(** Applying [applyInstall] to its own result changes nothing. *)
Lemma applyInstall_again M d M1 :
  applyInstall M d = Ok M1 -> applyInstall M1 d = Ok M1.
Proof.
  unfold applyInstall at 1. intros H.
  destruct (init_field M "dependencies") as [Ma|] eqn:I1;
    simpl in H; [|discriminate].
  destruct (init_field Ma "localDependencies") as [Mb|] eqn:I2;
    simpl in H; [|discriminate].
  destruct (assign_in Mb "dependencies" (to_string (name d))
              (caret (version d))) as [Mc|] eqn:A1;
    simpl in H; [|discriminate].
  destruct (Mutation.init_field_spec _ _ _ plain_dependencies I1)
    as (d0 & _ & Ga & _ & _).
  destruct (Mutation.init_field_spec _ _ _ plain_localDependencies I2)
    as (l0 & _ & Gb & Ob & _).
  destruct (Mutation.assign_in_spec _ _ _ _ _ plain_dependencies A1)
    as (d1 & dd & G1 & Sd & Gd & Oc & _).
  destruct (Mutation.assign_in_spec _ _ _ _ _ plain_localDependencies H)
    as (l1 & ll & G2 & Sl & Gl & Ol & _).
  assert (Td1 : truthy d1 = true).
  { rewrite Ob, Ga in G1 by discriminate. inversion G1. apply truthy_init. }
  assert (Tl1 : truthy l1 = true).
  { rewrite Oc, Gb in G2 by discriminate. inversion G2. apply truthy_init. }
  assert (Gd1 : get M1 "dependencies" = Ok dd)
    by (rewrite Ol; [assumption|discriminate]).
  destruct (set_truthy _ _ _ _ Td1 Sd) as [Td Nd].
  destruct (set_truthy _ _ _ _ Tl1 Sl) as [Tl Nl].
  unfold applyInstall.
  rewrite (init_field_truthy _ _ _ Gd1 Td). cbn [rbind].
  rewrite (init_field_truthy _ _ _ Gl Tl). cbn [rbind].
  rewrite (assign_in_again _ _ _ _ _ plain_dependencies Gd1 Nd
             (set_again _ _ _ _ Sd)). cbn [rbind].
  apply (assign_in_again _ _ _ _ _ plain_localDependencies Gl Nl
           (set_again _ _ _ _ Sl)).
Qed.

(** [applyInstall] leaves as it is a manifest whose two maps hold the two
    entries already. *)
Lemma applyInstall_fixed ps d a b :
  field (VObj ps) "dependencies" = VObj a ->
  field (VObj ps) "localDependencies" = VObj b ->
  assign (to_string (name d)) (caret (version d)) a = a ->
  assign (path d) (caret (version d)) b = b ->
  applyInstall (VObj ps) d = Ok (VObj ps).
Proof.
  intros Fa Fb Ha Hb. unfold applyInstall.
  rewrite (init_field_truthy _ _ (VObj a))
    by (rewrite ?get_object, ?Fa; reflexivity). cbn [rbind].
  rewrite (init_field_truthy _ _ (VObj b))
    by (rewrite ?get_object, ?Fb; reflexivity). cbn [rbind].
  rewrite (assign_in_again _ _ _ _ (VObj a) plain_dependencies);
    [|rewrite get_object, Fa; reflexivity|discriminate
     |simpl; now rewrite Ha].
  cbn [rbind].
  apply (assign_in_again _ _ _ _ (VObj b) plain_localDependencies);
    [rewrite get_object, Fb; reflexivity|discriminate
    |simpl; now rewrite Hb].
Qed.

(** An assignment that changes nothing changes nothing of what a write
    makes of the map. *)
Lemma assign_roundtrip k c a :
  is_json (VObj a) = true ->
  assign k (caret c) a = a ->
  assign k (caret c) (props_of (json_roundtrip (VObj a))) =
  props_of (json_roundtrip (VObj a)).
Proof.
  intros Hj Ha.
  pose proof (Roundtrip.lookup_roundtrip k a Hj) as L.
  assert (Jr : is_json (VObj (props_of (json_roundtrip (VObj a)))) = true).
  { rewrite <- Roundtrip.roundtrip_object. apply Roundtrip.stable_is_json.
    now apply Roundtrip.roundtrip_is_stable. }
  set (r := props_of (json_roundtrip (VObj a))) in *.
  destruct (assign_cases k (caret c) a) as [[Hk Ed]|(_ & Ek & El & _)].
  - assert (Lk : lookup k a = Some (caret c))
      by (rewrite <- Ha, Ed; apply lookup_define_same).
    rewrite Lk in L. change (or_undefined (lookup k r) = caret c) in L.
    destruct (lookup k r) as [x|] eqn:Lr; [|discriminate].
    cbn [or_undefined] in L. subst x.
    rewrite assign_own by (unfold has; now rewrite Lr).
    now apply define_same.
  - rewrite El in L. change (or_undefined (lookup k r) = VUndef) in L.
    destruct (lookup k r) as [x|] eqn:Lr.
    + cbn [or_undefined] in L. subst x.
      pose proof (is_json_lookup k r VUndef Jr Lr). discriminate.
    + unfold assign, has. rewrite Lr, Ek. reflexivity.
Qed.

End Again.

Section Further.

Context {E : Env}.

(** ** Manifest files *)

(** X1. After a write of a value other than [undefined], the next read of
    the directory returns what a write makes of the value: the value
    itself when it is a JSON value whose numbers are finite.  The write
    touches no other path and is logged once. *)
Theorem write_then_read p v w w' :
  writePackageJson p v w = (Ok tt, w') ->
  v <> VUndef ->
  readPackageJson p w' = (Ok (JS.json_roundtrip v), w')
  /\ (JS.stable v = true -> readPackageJson p w' = (Ok v, w'))
  /\ (forall q, q <> join p "package.json" -> w_fs w' q = w_fs w q)
  /\ w_log w' = w_log w ++ [EWrite (join p "package.json") v].
Proof.
  unfold writePackageJson. intros H Hv.
  destruct (writable (w_fs w) (join p "package.json")); [|discriminate].
  assert (Hc : match v with VUndef => None | _ => Some (JS.json_roundtrip v) end
               = Some (JS.json_roundtrip v))
    by (destruct v; try reflexivity; congruence).
  rewrite Hc in H. inversion H; subst w'. simpl.
  split; [apply read_after_write|].
  split; [intros St; rewrite (Roundtrip.roundtrip_stable v St);
          apply read_after_write|].
  split; [|reflexivity].
  intros q Hq. unfold fs_write.
  destruct (q =? join p "package.json") eqn:Eq; [|reflexivity].
  apply String.eqb_eq in Eq. contradiction.
Qed.

(** An [updatePackageJson] that throws: before its write, and the world
    is as it was; or on its write, and the world is the one the failed
    write left. *)
Lemma updatePackageJson_throws dir d w e w' :
  updatePackageJson dir d w = (Throw e, w') ->
  w' = w
  \/ (e = WriteError (join dir "package.json")
      /\ exists M0 M,
           readPackageJson dir w = (Ok M0, w)
           /\ applyInstall M0 d = Ok M
           /\ w' = torn_world dir M w).
Proof.
  unfold updatePackageJson, bind at 1.
  destruct (readPackageJson dir w) as [r w0] eqn:R.
  pose proof (readPackageJson_pure _ _ _ _ R); subst w0.
  destruct r as [M|e0]; [|intros H; inversion H; subst; auto].
  unfold bind, lift.
  destruct (applyInstall M d) as [M'|e1] eqn:A;
    [|intros H; inversion H; subst; auto].
  unfold writePackageJson, emit.
  destruct (writable (w_fs w) (join dir "package.json")); [discriminate|].
  intros H; inversion H; subst; simpl. right. split; [reflexivity|].
  exists M, M'. auto.
Qed.

Lemma torn_world_elsewhere dir M w q :
  q <> join dir "package.json" -> w_fs (torn_world dir M w) q = w_fs w q.
Proof.
  intros Hq. simpl. unfold fs_leave.
  destruct (q =? join dir "package.json") eqn:Eq; [|reflexivity].
  apply String.eqb_eq in Eq. contradiction.
Qed.

(** X2. An [updatePackageJson] that throws on anything but its write
    leaves the world as it was.  When it is the write that fails, the log
    holds that write, every other path is as it was, and the manifest is
    what the failed write left of it. *)
Theorem update_failure dir d w e w' :
  updatePackageJson dir d w = (Throw e, w') ->
  (e <> WriteError (join dir "package.json") -> w' = w)
  /\ (forall q, q <> join dir "package.json" -> w_fs w' q = w_fs w q)
  /\ (w' = w
      \/ (e = WriteError (join dir "package.json")
          /\ w_fs w' (join dir "package.json") =
             torn (w_fs w) (join dir "package.json")
          /\ exists M, w_log w' =
                       w_log w ++ [EWrite (join dir "package.json") M])).
Proof.
  intros U.
  destruct (updatePackageJson_throws _ _ _ _ _ U)
    as [->|(-> & M0 & M & _ & _ & ->)].
  - auto.
  - split; [congruence|]. split; [intros q; apply torn_world_elsewhere|].
    right. split; [reflexivity|]. split.
    + simpl. unfold fs_leave. now rewrite String.eqb_refl.
    + exists M. reflexivity.
Qed.

(** ** Linking *)

(** X3. A link that fails on anything but a subprocess has run no command
    and changed nothing: the path that does not exist, the package.json
    that is missing or is not JSON, the manifest without a name. *)
Theorem link_failure_before_npm p dir w e w' :
  linkLocalDependency p dir w = (Throw e, w') ->
  not_exec e ->
  w' = w.
Proof.
  intros H Hne. rewrite link_unfold in H.
  destruct (readPackageJson (resolve dir p) w) as [r w0] eqn:R.
  pose proof (readPackageJson_pure _ _ _ _ R); subst w0.
  destruct (w_fs w (resolve dir p)) as [nd|]; [|now inversion H].
  destruct r as [dep|]; [|now inversion H].
  destruct (JS.get dep "name") as [n|]; [|now inversion H].
  destruct (JS.get dep "version") as [v|]; [|now inversion H].
  destruct (JS.truthy n); simpl in H; [|now inversion H].
  destruct (JS.converts n && JS.converts v); simpl in H; [|now inversion H].
  unfold bind, ret, execCommand in H. simpl in H.
  destruct (execFile "npm" [VStr "link"] (resolve dir p) (w_fs w))
    as [[] f1]; simpl in H.
  - destruct (execFile "npm" [VStr "link"; n] dir f1) as [[] f2];
      inversion H; subst. exfalso. eapply Hne. reflexivity.
  - inversion H; subst. exfalso. eapply Hne. reflexivity.
Qed.

(** X4. A link that succeeds found the path, read the dependency's manifest
    before any command ran, took its truthy name and its version from it,
    returns the path string as given, and ran the register step and then
    the consume step, both with success, and nothing else. *)
Theorem link_success_means p dir w d w1 :
  linkLocalDependency p dir w = (Ok d, w1) ->
  exists dep f1,
    w_fs w (resolve dir p) <> None
    /\ readPackageJson (resolve dir p) w = (Ok dep, w)
    /\ JS.get dep "name" = Ok (name d)
    /\ JS.get dep "version" = Ok (version d)
    /\ JS.truthy (name d) = true
    /\ path d = p
    /\ execFile "npm" [VStr "link"] (resolve dir p) (w_fs w) = (true, f1)
    /\ execFile "npm" [VStr "link"; name d] dir f1 = (true, w_fs w1)
    /\ w_log w1 =
       w_log w ++ [register (resolve dir p); consume (name d) dir].
Proof.
  intros L.
  destruct (link_success _ _ _ _ _ L)
    as (dep & f1 & f2 & Hex & Hr & Hn & Hv & Ht & Hp & X1 & X2 & Hw).
  exists dep, f1. subst w1. simpl. repeat split; auto.
Qed.

(** X20. The name and the version a link returns are values that
    convert to a string: index.js 109 has printed both before the first
    command ran. *)
Theorem link_success_printable p dir w d w1 :
  linkLocalDependency p dir w = (Ok d, w1) ->
  JS.converts (name d) = true /\ JS.converts (version d) = true
  /\ JS.to_text (name d) = Ok (JS.to_string (name d))
  /\ JS.to_text (version d) = Ok (JS.to_string (version d)).
Proof.
  intros L. destruct (link_converts _ _ _ _ _ L) as [Cn Cv].
  unfold JS.to_text. rewrite Cn, Cv. auto.
Qed.

(** X5. When the register step succeeds and the consume step, once
    reached, fails, the single install exits on the error of the consume
    step; both commands have run, no command undoes the registration, and
    the consumer manifest is not written. *)
Theorem consume_failure_leaves_registration p w dep n v f1 f2 :
  w_fs w (resolve cwd p) <> None ->
  readPackageJson (resolve cwd p) w = (Ok dep, w) ->
  JS.get dep "name" = Ok n -> JS.truthy n = true ->
  JS.get dep "version" = Ok v ->
  JS.converts n = true -> JS.converts v = true ->
  execFile "npm" [VStr "link"] (resolve cwd p) (w_fs w) = (true, f1) ->
  execFile "npm" [VStr "link"; n] cwd f1 = (false, f2) ->
  installSingle p w =
  (Exit1 (ExecError "npm" [VStr "link"; n] cwd),
   mkWorld f2 (w_log w ++ [register (resolve cwd p); consume n cwd])).
Proof.
  intros Hex Hr Hn Ht Hv Cn Cv X1 X2.
  unfold installSingle, run, bind at 1.
  now rewrite (link_consume_fails _ _ _ _ _ _ _ _ Hex Hr Hn Ht Hv Cn Cv X1 X2).
Qed.

(** X18. A name or a version that does not convert stops the install at
    index.js 109, before any command: the install exits on a [TypeError]
    and the world is as it was. *)
Theorem install_unprintable p w dep n v :
  w_fs w (resolve cwd p) <> None ->
  readPackageJson (resolve cwd p) w = (Ok dep, w) ->
  JS.get dep "name" = Ok n -> JS.truthy n = true ->
  JS.get dep "version" = Ok v ->
  JS.converts n && JS.converts v = false ->
  installSingle p w = (Exit1 TypeError, w).
Proof.
  intros Hex Hr Hn Ht Hv C.
  unfold installSingle, run, bind at 1.
  now rewrite (link_unprintable _ _ _ _ _ _ Hex Hr Hn Ht Hv C).
Qed.

(** X6. A single install that exits with an error leaves the world the
    link left, that is the one the [npm] commands that ran left, unless
    it is the write of the manifest that failed: then every other path is
    as the link left it. *)
Theorem install_failure p w e w' :
  installSingle p w = (Exit1 e, w') ->
  (e <> WriteError (join cwd "package.json") ->
   w' = snd (linkLocalDependency p cwd w))
  /\ (forall q, q <> join cwd "package.json" ->
        w_fs w' q = w_fs (snd (linkLocalDependency p cwd w)) q).
Proof.
  unfold installSingle, run, bind. intros H.
  destruct (linkLocalDependency p cwd w) as [[d|e0] w1]; simpl.
  - destruct (updatePackageJson cwd d w1) as [[[]|e1] w2] eqn:U;
      [discriminate|].
    inversion H; subst.
    destruct (updatePackageJson_throws _ _ _ _ _ U)
      as [->|(-> & M0 & M & _ & _ & ->)].
    + auto.
    + split; [congruence|]. intros q. apply torn_world_elsewhere.
  - inversion H. auto.
Qed.

(** ** Recording a link twice, and removing it *)

(** X7. Recording the same link a second time changes nothing: in memory,
    for every manifest on which the first one succeeds, and on disk, where
    the second [updatePackageJson] writes the file it found. *)
Theorem install_twice M d :
  (forall M1, applyInstall M d = Ok M1 -> applyInstall M1 d = Ok M1)
  /\ (forall dir w w1 w2,
        readPackageJson dir w = (Ok M, w) ->
        is_manifest M = true ->
        updatePackageJson dir d w = (Ok tt, w1) ->
        updatePackageJson dir d w1 = (Ok tt, w2) ->
        forall q, w_fs w2 q = w_fs w1 q).
Proof.
  split; [intros M1; apply Again.applyInstall_again|].
  intros dir w w1 w2 Hr Hm U1 U2 q.
  unfold is_manifest in Hm. apply andb_true_iff in Hm as [Hj Hs].
  destruct (updatePackageJson_manifest_at dir d w M Hr Hs) as (ps' & Ha & Hu).
  destruct (Mutation.applyInstall_shaped M d Hs)
    as (ps2 & Ha2 & Fd & Fl & _ & J).
  assert (ps2 = ps') by congruence. subst ps2. specialize (J Hj).
  rewrite Hu in U1.
  destruct (writable (w_fs w) (join dir "package.json")); [|discriminate].
  inversion U1; subst w1. clear U1.
  assert (Jd : JS.is_json (field (VObj ps') "dependencies") = true)
    by (apply Roundtrip.is_json_field; [assumption|rewrite Fd; discriminate]).
  assert (Jl : JS.is_json (field (VObj ps') "localDependencies") = true)
    by (apply Roundtrip.is_json_field; [assumption|rewrite Fl; discriminate]).
  rewrite Fd in Jd. rewrite Fl in Jl.
  assert (Stab : JS.json_roundtrip (JS.json_roundtrip (VObj ps')) =
                 JS.json_roundtrip (VObj ps'))
    by (apply Roundtrip.roundtrip_stable, Roundtrip.roundtrip_is_stable, J).
  assert (Fix : applyInstall (JS.json_roundtrip (VObj ps')) d =
                Ok (JS.json_roundtrip (VObj ps'))).
  { assert (Rd : field (JS.json_roundtrip (VObj ps')) "dependencies" =
                 VObj (props_of (JS.json_roundtrip (field (VObj ps') "dependencies"))))
      by (rewrite Roundtrip.field_roundtrip, Fd by assumption; reflexivity).
    assert (Rl : field (JS.json_roundtrip (VObj ps')) "localDependencies" =
                 VObj (props_of (JS.json_roundtrip (field (VObj ps') "localDependencies"))))
      by (rewrite Roundtrip.field_roundtrip, Fl by assumption; reflexivity).
    rewrite Roundtrip.roundtrip_object in Rd, Rl |- *.
    apply (Again.applyInstall_fixed _ d _ _ Rd Rl).
    - rewrite Fd. apply Again.assign_roundtrip;
        [assumption|apply Again.assign_again].
    - rewrite Fl. apply Again.assign_roundtrip;
        [assumption|apply Again.assign_again]. }
  unfold updatePackageJson, bind at 1 in U2.
  rewrite read_written in U2.
  unfold bind, lift in U2. rewrite Fix in U2.
  rewrite Roundtrip.roundtrip_object, writePackageJson_object,
    <- Roundtrip.roundtrip_object in U2.
  destruct (writable _ _); [|discriminate].
  assert (W : w2 = written_world dir (JS.json_roundtrip (VObj ps'))
                     (written_world dir (VObj ps') w)) by congruence.
  rewrite W. unfold written_world. cbn [w_fs].
  rewrite Stab. unfold fs_write.
  destruct (q =? join dir "package.json"); reflexivity.
Qed.

(** X8. Removing a link that was just recorded takes both of its entries
    away again and leaves every other entry of the two maps and every other
    key of the manifest as they were before the link was recorded.  (A map
    that was absent stays behind, empty.) *)
Theorem uninstall_after_install M d :
  shaped M = true ->
  exists M1 M2,
    applyInstall M d = Ok M1
    /\ applyUninstall M1 (name d) (path d) = Ok M2
    /\ entry M2 "dependencies" (JS.to_string (name d)) = VUndef
    /\ entry M2 "localDependencies" (path d) = VUndef
    /\ (forall q, q <> JS.to_string (name d) ->
         entry M2 "dependencies" q = entry M "dependencies" q)
    /\ (forall q, q <> path d ->
         entry M2 "localDependencies" q = entry M "localDependencies" q)
    /\ (forall k, k <> "dependencies" -> k <> "localDependencies" ->
         field M2 k = field M k)
    /\ is_object (field M2 "dependencies") = true
    /\ is_object (field M2 "localDependencies") = true.
Proof.
  intros Hs.
  destruct (Mutation.applyInstall_shaped M d Hs)
    as (ps1 & Ha & Fd & Fl & Fo & _).
  assert (Hs1 : shaped (VObj ps1) = true)
    by (unfold shaped; rewrite Fd, Fl; reflexivity).
  destruct (Mutation.applyUninstall_shaped (VObj ps1) (name d) (path d) Hs1)
    as (ps2 & Hu & Uo & Ud & Ul & Td & Fd' & Tl & Fl' & _).
  destruct (entry_of_assign _ _ _ _ _ Fd) as [_ Eod].
  destruct (entry_of_assign _ _ _ _ _ Fl) as [_ Eol].
  assert (Gone : forall m k c ds,
             field (VObj ps1) m = VObj (JS.assign k (caret c) ds) ->
             (JS.truthy (entry (VObj ps1) m k) = true ->
              entry (VObj ps2) m k = VUndef) ->
             (JS.truthy (entry (VObj ps1) m k) = false ->
              entry (VObj ps2) m k = entry (VObj ps1) m k) ->
             entry (VObj ps2) m k = VUndef).
  { intros m k c ds F T F'.
    assert (Ek : entry (VObj ps1) m k =
                 JS.or_undefined (JS.lookup k (JS.assign k (caret c) ds)))
      by (unfold entry; rewrite F; reflexivity).
    destruct (JSFacts.assign_cases k (caret c) ds)
      as [[_ Ea]|(_ & _ & El & Ea)]; rewrite Ea in Ek.
    - rewrite JSFacts.lookup_define_same in Ek. apply T. now rewrite Ek.
    - rewrite El in Ek. simpl in Ek. rewrite F' by (now rewrite Ek).
      assumption. }
  exists (VObj ps1), (VObj ps2).
  split; [assumption|]. split; [assumption|].
  split; [eapply Gone; eauto|].
  split; [eapply Gone; eauto|].
  split; [intros q Hq; rewrite (Ud _ Hq), (Eod _ Hq); apply entry_props_of|].
  split; [intros q Hq; rewrite (Ul _ Hq), (Eol _ Hq); apply entry_props_of|].
  split; [intros k Kd Kl; rewrite Uo, Fo by assumption; reflexivity|].
  pose proof (Mutation.applyUninstall_keeps_maps (VObj ps1) (name d) (path d)
                (VObj ps2) Hs1 Hu) as [Kd Kl].
  rewrite Fd in Kd. rewrite Fl in Kl. auto.
Qed.

(** ** Unlink *)

(** X19. A name that does not convert stops the unlink at index.js 269, before
    the release step: the unlink exits on a [TypeError] and the world is
    as it was. *)
Theorem unlink_unprintable p w dep n :
  readPackageJson (resolve cwd p) w = (Ok dep, w) ->
  JS.get dep "name" = Ok n ->
  JS.converts n = false ->
  unlinkDependency p w = (Exit1 TypeError, w).
Proof.
  intros Hr Hn C. now rewrite unlink_unfold, Hr, Hn, C.
Qed.

(** X9. An unlink that exits with an error: either nothing ran, and the
    world is as it was; or the release step ran.  Then the error is that
    of the release step, or of reading or reconciling the consumer
    manifest, and the file system is the one the release step left; or it
    is that of the write, the only case with a write in the log, and every
    path but the manifest is as the release step left it. *)
Theorem unlink_failure p w e w' :
  unlinkDependency p w = (Exit1 e, w') ->
  w' = w
  \/ exists n,
      (w_fs w' = snd (execFile "npm" [VStr "unlink"; n] cwd (w_fs w))
       /\ w_log w' = w_log w ++ [release n cwd])
      \/ (e = WriteError (join cwd "package.json")
          /\ (forall q, q <> join cwd "package.json" ->
                w_fs w' q =
                snd (execFile "npm" [VStr "unlink"; n] cwd (w_fs w)) q)
          /\ exists M,
               w_log w' =
               w_log w ++ [release n cwd;
                           EWrite (join cwd "package.json") M]).
Proof.
  intros U. rewrite unlink_unfold in U.
  destruct (readPackageJson (resolve cwd p) w) as [r w0] eqn:R.
  pose proof (readPackageJson_pure _ _ _ _ R); subst w0.
  destruct r as [dep|]; [|inversion U; auto].
  destruct (JS.get dep "name") as [n|]; [|inversion U; auto].
  destruct (JS.converts n); cbn [negb] in U; [|inversion U; auto].
  right. exists n. unfold run in U.
  unfold bind at 1, execCommand in U.
  destruct (execFile "npm" [VStr "unlink"; n] cwd (w_fs w)) as [ok f] eqn:X.
  simpl. destruct ok; [|inversion U; subst; simpl; auto].
  set (w1 := mkWorld f (w_log w ++ [EExec "npm" [VStr "unlink"; n] cwd])) in U.
  unfold bind at 1 in U. rewrite (readPackageJson_unfold cwd w1) in U.
  destruct (w_fs w1 (join cwd "package.json")) as [[|[pj|]]|];
    try (inversion U; subst; simpl; auto).
  unfold bind, lift in U.
  destruct (applyUninstall pj n p) as [pj'|];
    [|inversion U; subst; simpl; auto].
  unfold writePackageJson, emit in U.
  destruct (writable (w_fs w1) (join cwd "package.json"));
    inversion U; subst; simpl.
  right. split; [reflexivity|]. split.
  - intros q Hq. unfold fs_leave.
    destruct (q =? join cwd "package.json") eqn:Eq; [|reflexivity].
    apply String.eqb_eq in Eq. contradiction.
  - exists pj'. now rewrite <- app_assoc.
Qed.

(** X10. Unlinking a dependency of which the manifest records nothing,
    neither its name under [dependencies] nor the path under
    [localDependencies], still runs the release step and then writes the
    manifest back: the file then holds what a write makes of the manifest
    read, which is that manifest when its numbers are finite. *)
Theorem unlink_unrecorded p w w' dep n M :
  unlinkDependency p w = (Done tt, w') ->
  readPackageJson (resolve cwd p) w = (Ok dep, w) ->
  JS.get dep "name" = Ok n ->
  readPackageJson cwd (snd (execCommand "npm" [VStr "unlink"; n] cwd w)) =
    (Ok M, snd (execCommand "npm" [VStr "unlink"; n] cwd w)) ->
  is_manifest M = true ->
  entry M "dependencies" (JS.to_string n) = VUndef ->
  entry M "localDependencies" p = VUndef ->
  readPackageJson cwd w' = (Ok (JS.json_roundtrip M), w')
  /\ (JS.stable M = true -> readPackageJson cwd w' = (Ok M, w'))
  /\ exists evs, w_log w' = w_log w ++ release n cwd :: evs.
Proof.
  intros Hu Hdep Hn HM Hm Hd Hl.
  destruct (unlink_done _ _ _ _ _ _ Hu Hdep Hn HM Hm) as (ps' & Ha & _ & Hr).
  pose proof Hm as Hm'. unfold is_manifest in Hm'.
  apply andb_true_iff in Hm' as [_ Hs].
  destruct (Mutation.applyUninstall_shaped M n p Hs)
    as (ps2 & Ha2 & _ & _ & _ & _ & _ & _ & _ & Same & _).
  assert (ps2 = ps') by congruence. subst ps2.
  rewrite Same in Hr by (rewrite ?Hd, ?Hl; reflexivity).
  split; [assumption|].
  split; [intros St; now rewrite (Roundtrip.roundtrip_stable M St) in Hr|].
  rewrite unlink_unfold, Hdep, Hn in Hu.
  destruct (JS.converts n); [|discriminate]. cbn [negb] in Hu.
  unfold run in Hu. unfold bind at 1, execCommand in Hu.
  destruct (execFile "npm" [VStr "unlink"; n] cwd (w_fs w)) as [[] f];
    [|discriminate].
  set (w1 := mkWorld f (w_log w ++ [EExec "npm" [VStr "unlink"; n] cwd])) in Hu.
  unfold bind at 1 in Hu.
  destruct (readPackageJson cwd w1) as [r w0] eqn:R.
  pose proof (readPackageJson_pure _ _ _ _ R); subst w0.
  destruct r as [pj|]; [|discriminate].
  unfold bind, lift in Hu.
  destruct (applyUninstall pj n p) as [pj'|]; [|discriminate].
  unfold writePackageJson, emit in Hu.
  destruct (writable (w_fs w1) (join cwd "package.json")); [|discriminate].
  inversion Hu; subst w'. simpl. rewrite <- app_assoc. simpl. eauto.
Qed.

(** ** Bulk install *)

Lemma entries_truthy v :
  JS.truthy v = true -> exists es, JS.entries v = Ok es.
Proof. destruct v; simpl; try discriminate; eauto. Qed.

Lemma get_not_null M k :
  M <> VUndef -> M <> VNull -> exists x, JS.get M k = Ok x.
Proof.
  intros Hu Hn. destruct M; try congruence; simpl; eauto.
  - destruct (JS.array_index k);
      [destruct (String.get _ _)|destruct (k =? "length")]; eauto.
  - destruct (JS.array_index k); [|destruct (k =? "length")]; eauto.
Qed.

Lemma get_throws_type o k e : JS.get o k = Throw e -> e = TypeError.
Proof.
  destruct o; simpl; intros H; try discriminate; try (now inversion H).
  - destruct (JS.array_index k);
      [destruct (String.get _ _)|destruct (k =? "length")]; discriminate.
  - destruct (JS.array_index k); [|destruct (k =? "length")]; discriminate.
Qed.

(** [installAll] on a world whose consumer manifest parses to anything but
    [null]. *)
Lemma installAll_unfold_any w M :
  readPackageJson cwd w = (Ok M, w) ->
  M <> VUndef -> M <> VNull ->
  installAll w =
  match local_entries M with
  | [] => (Done NoLocalDependencies, w)
  | _ :: _ =>
      let st := fst (install_entries (local_entries M) (mkLoop M 0 0) w) in
      let w1 := snd (install_entries (local_entries M) (mkLoop M 0 0) w) in
      if (0 <? successCount st)%nat then
        run (_ <- writePackageJson cwd (packageJson st) ;;
             ret (Summary (successCount st) (failureCount st))) w1
      else (Done (Summary (successCount st) (failureCount st)), w1)
  end.
Proof.
  intros Hr Hu Hn. unfold installAll, run.
  unfold bind at 1. rewrite Hr.
  destruct (get_not_null M "localDependencies" Hu Hn) as [ld Hld].
  unfold local_entries. rewrite Hld.
  unfold bind at 1, lift at 1.
  destruct (JS.truthy ld) eqn:T; [|reflexivity].
  cbn [negb].
  destruct (entries_truthy ld T) as [es Es]. rewrite Es.
  unfold bind at 1, lift.
  destruct es as [|e0 es]; [reflexivity|].
  cbn [length Nat.eqb].
  destruct (install_entries (e0 :: es) (mkLoop M 0 0) w) as [st w1].
  cbn [fst snd].
  destruct (0 <? successCount st)%nat; [reflexivity|].
  unfold bind, ret. reflexivity.
Qed.

(** X11. A bulk install exits with an error in three cases only: the
    consumer manifest cannot be read; it parses to [null], whose properties
    cannot be read; or the final write fails.  In the first two nothing has
    run.  No error of a link, be it a missing path, a manifest without a
    name or a failing [npm], ends the command. *)
Theorem bulk_install_exits w e w' :
  installAll w = (Exit1 e, w') ->
  (readPackageJson cwd w = (Throw e, w) /\ w' = w)
  \/ (exists M,
        readPackageJson cwd w = (Ok M, w)
        /\ JS.get M "localDependencies" = Throw TypeError
        /\ e = TypeError /\ w' = w)
  \/ (e = WriteError (join cwd "package.json")
      /\ exists M, In (EWrite (join cwd "package.json") M) (w_log w')).
Proof.
  intros H.
  destruct (readPackageJson cwd w) as [r w0] eqn:R.
  pose proof (readPackageJson_pure _ _ _ _ R); subst w0.
  destruct r as [M|e0].
  - destruct (JS.get M "localDependencies") as [ld|e1] eqn:G.
    + assert (Hu : M <> VUndef) by (intros ->; discriminate).
      assert (Hn : M <> VNull) by (intros ->; discriminate).
      rewrite (installAll_unfold_any w M R Hu Hn) in H.
      destruct (local_entries M) as [|e0 es] eqn:Ed; [discriminate|].
      rewrite <- Ed in H. cbv zeta in H.
      destruct (0 <? successCount _)%nat; [|discriminate].
      unfold run, bind, writePackageJson, emit, ret in H.
      destruct (writable _ _); [discriminate|].
      inversion H; subst. right. right. split; [reflexivity|].
      eexists. simpl. apply in_or_app. right. left. reflexivity.
    + right. left. exists M.
      pose proof (get_throws_type _ _ _ G). subst e1.
      unfold installAll, run in H. unfold bind at 1 in H. rewrite R in H.
      unfold bind, lift in H. rewrite G in H. inversion H. auto.
  - left. unfold installAll, run in H. unfold bind at 1 in H. rewrite R in H.
    inversion H. auto.
Qed.

(** A link looks at the file system only. *)
Lemma link_fs p dir w w' :
  w_fs w = w_fs w' ->
  fst (linkLocalDependency p dir w) = fst (linkLocalDependency p dir w')
  /\ w_fs (snd (linkLocalDependency p dir w)) =
     w_fs (snd (linkLocalDependency p dir w')).
Proof.
  intros H. rewrite !link_unfold, !readPackageJson_unfold. rewrite <- H.
  destruct (w_fs w (resolve dir p)) as [nd|]; [|auto].
  destruct (w_fs w (join (resolve dir p) "package.json")) as [[|[dep|]]|];
    auto.
  destruct (JS.get dep "name") as [n|]; [|auto].
  destruct (JS.get dep "version") as [v|]; [|auto].
  destruct (JS.truthy n); [|auto]. cbn [negb].
  destruct (JS.converts n && JS.converts v); [|auto]. cbn [negb].
  unfold bind, ret, execCommand. rewrite <- H.
  destruct (execFile "npm" [VStr "link"] (resolve dir p) (w_fs w))
    as [[] f1]; [|auto].
  cbn [w_fs].
  destruct (execFile "npm" [VStr "link"; n] dir f1) as [[] f2]; auto.
Qed.

Lemma linked_fs deps : forall w w',
  w_fs w = w_fs w' -> linked deps w = linked deps w'.
Proof.
  induction deps as [|[lp x] rest IH]; intros w w' H; [reflexivity|].
  simpl. destruct (link_fs lp cwd w w' H) as [Hr Hf].
  destruct (linkLocalDependency lp cwd w) as [[d|e] w1];
    destruct (linkLocalDependency lp cwd w') as [[d'|e'] w1'];
    simpl in Hr, Hf; try discriminate.
  - inversion Hr; subst d'. f_equal. now apply IH.
  - now apply IH.
Qed.

(** One turn of the loop on a manifest whose [dependencies] is a truthy
    primitive: the assignment throws, and the turn counts as a failure
    whatever the link did, unless it linked a package named
    [__proto__]. *)
Lemma install_entry_primitive st lp w :
  is_object (packageJson st) = true ->
  truthy_primitive (field (packageJson st) "dependencies") = true ->
  (forall d w1, linkLocalDependency lp cwd w = (Ok d, w1) ->
                JS.to_string (name d) <> "__proto__") ->
  exists e,
    install_entry st lp w =
    (mkLoop (packageJson st) (successCount st) (S (failureCount st)),
     emit (EFailed e) (snd (linkLocalDependency lp cwd w))).
Proof.
  intros Ho Hp Hk. unfold install_entry.
  destruct (linkLocalDependency lp cwd w) as [[d|e] w1]; [|eauto].
  specialize (Hk d w1 eq_refl). apply String.eqb_neq in Hk.
  destruct (packageJson st) as [| | | | | |ps] eqn:Pj; try discriminate.
  unfold init_field, assign_in. rewrite !JSFacts.get_object.
  destruct (field (VObj ps) "dependencies") as [| |b|r|s'|es named|ds] eqn:F;
    try discriminate; simpl in Hp; cbn [rbind JS.truthy]; rewrite Hp;
    rewrite JSFacts.get_object, F; cbn [rbind JS.set]; rewrite Hk;
    cbn [rbind]; eauto.
Qed.

Lemma install_entries_primitive deps : forall st w,
  is_object (packageJson st) = true ->
  truthy_primitive (field (packageJson st) "dependencies") = true ->
  (forall d, In d (linked deps w) -> JS.to_string (name d) <> "__proto__") ->
  fst (install_entries deps st w) =
    mkLoop (packageJson st) (successCount st) (failureCount st + length deps)
  /\ filter is_write (w_log (snd (install_entries deps st w))) =
     filter is_write (w_log w).
Proof.
  induction deps as [|[lp x] rest IH]; intros st w Ho Hp Hk.
  - simpl. rewrite Nat.add_0_r. destruct st; auto.
  - simpl.
    assert (Hk1 : forall d w1, linkLocalDependency lp cwd w = (Ok d, w1) ->
                               JS.to_string (name d) <> "__proto__").
    { intros d w1 L. apply Hk. simpl. rewrite L. now left. }
    destruct (install_entry_primitive st lp w Ho Hp Hk1) as [e S1].
    rewrite S1.
    assert (Hk2 : forall d,
               In d (linked rest
                       (emit (EFailed e) (snd (linkLocalDependency lp cwd w)))) ->
               JS.to_string (name d) <> "__proto__").
    { intros d Hd. apply Hk. simpl.
      destruct (linkLocalDependency lp cwd w) as [[d0|e0] w1]; simpl in Hd.
      - right. now rewrite (linked_fs rest w1 (emit (EFailed e) w1) eq_refl).
      - now rewrite (linked_fs rest (emit (EFailed e0) w1)
                       (emit (EFailed e) w1) eq_refl). }
    destruct (IH (mkLoop (packageJson st) (successCount st)
                    (S (failureCount st)))
                (emit (EFailed e) (snd (linkLocalDependency lp cwd w)))
                Ho Hp Hk2) as [Hs Hl].
    rewrite Hs, Hl. simpl. split; [f_equal; lia|].
    rewrite filter_app. simpl. rewrite app_nil_r. apply link_no_write.
Qed.

(** X12. When [dependencies] of the consumer manifest is a truthy primitive
    (a string other than the empty one, say), a bulk install counts every
    entry as a failure, also those whose link succeeded and whose commands
    ran: the assignment into [dependencies] throws inside the [try].  It
    reports zero successes and writes nothing.  (A linked package named
    [__proto__] is the exception: the assignment under that name throws
    nothing.) *)
Theorem bulk_install_primitive_dependencies w M :
  readPackageJson cwd w = (Ok M, w) ->
  is_object M = true ->
  truthy_primitive (field M "dependencies") = true ->
  local_entries M <> [] ->
  (forall d, In d (linked (local_entries M) w) ->
             JS.to_string (name d) <> "__proto__") ->
  fst (installAll w) = Done (Summary 0 (length (local_entries M)))
  /\ filter is_write (w_log (snd (installAll w))) = filter is_write (w_log w).
Proof.
  intros Hr Ho Hp Hne Hk.
  assert (Hu : M <> VUndef) by (intros ->; discriminate).
  assert (Hn : M <> VNull) by (intros ->; discriminate).
  rewrite (installAll_unfold_any w M Hr Hu Hn).
  destruct (local_entries M) as [|e0 es] eqn:Ed; [congruence|].
  rewrite <- Ed in *. cbv zeta.
  destruct (install_entries_primitive (local_entries M) (mkLoop M 0 0) w
              Ho Hp Hk) as [Hs Hl].
  rewrite Hs. simpl. auto.
Qed.





(** ** Listing *)

Lemma list_name_shown lp w :
  list_name lp w =
  (Ok match w_fs w (join (resolve cwd lp) "package.json") with
      | Some (NFile (Some dep)) =>
          match JS.get dep "name" with
          | Ok depName =>
              if JS.converts depName then LName (JS.to_string depName)
              else LNotFound
          | Throw _ => LNotFound
          end
      | _ => LNotFound
      end, w).
Proof.
  unfold list_name, bind, lift.
  rewrite (readPackageJson_unfold (resolve cwd lp) w).
  destruct (w_fs w (join (resolve cwd lp) "package.json")) as [[|[dep|]]|];
    try reflexivity.
  destruct (JS.get dep "name") as [n|]; [|reflexivity].
  unfold JS.to_text. destruct (JS.converts n); reflexivity.
Qed.

Lemma list_entry_shown lp v w :
  list_entry lp v w =
  if JS.converts v then (Ok (shown w lp v), w) else (Throw TypeError, w).
Proof.
  unfold list_entry, bind at 1, lift at 1, JS.to_text.
  destruct (JS.converts v); [|reflexivity].
  unfold bind at 1. rewrite list_name_shown. reflexivity.
Qed.

(** The loop of [list] prints the entries up to the first whose range
    does not convert. *)
Lemma list_entries_all deps w :
  (forall d, In d deps -> JS.converts (snd d) = true) ->
  list_entries deps w =
  (flat_map (fun d => shown w (fst d) (snd d)) deps, Ok tt, w).
Proof.
  induction deps as [|[lp v] rest IH]; intros H; [reflexivity|].
  simpl list_entries. rewrite list_entry_shown.
  pose proof (H (lp, v) (or_introl eq_refl)) as C. cbn [snd] in C.
  rewrite C.
  rewrite IH by (intros d Hd; apply H; now right). reflexivity.
Qed.

Lemma list_entries_until before lp v after w :
  (forall d, In d before -> JS.converts (snd d) = true) ->
  JS.converts v = false ->
  list_entries (before ++ (lp, v) :: after) w =
  (flat_map (fun d => shown w (fst d) (snd d)) before, Throw TypeError, w).
Proof.
  induction before as [|[lp0 v0] rest IH]; intros H C.
  - simpl. rewrite list_entry_shown, C. reflexivity.
  - simpl list_entries. rewrite list_entry_shown.
    pose proof (H (lp0, v0) (or_introl eq_refl)) as C0. cbn [snd] in C0.
    rewrite C0.
    rewrite IH by (auto; intros d Hd; apply H; now right). reflexivity.
Qed.

Lemma list_action_unfold w M :
  readPackageJson cwd w = (Ok M, w) ->
  M <> VUndef -> M <> VNull ->
  list_action w =
  match local_entries M with
  | [] => ([LNoLocalDependencies], Done tt, w)
  | _ :: _ =>
      match list_entries (local_entries M) w with
      | (lines, Ok _, w') => (lines, Done tt, w')
      | (lines, Throw e, w') => (lines, Exit1 e, w')
      end
  end.
Proof.
  intros Hr Hu Hn. unfold list_action, bind at 1. rewrite Hr.
  destruct (get_not_null M "localDependencies" Hu Hn) as [ld Hld].
  unfold local_entries, lift. rewrite Hld.
  destruct (JS.truthy ld) eqn:T; [|reflexivity]. cbn [negb].
  destruct (entries_truthy ld T) as [es Es]. rewrite Es.
  destruct es as [|e0 es]; reflexivity.
Qed.

(** X14. [list] changes nothing: it runs no command and writes no file.
    When the consumer manifest cannot be read it prints nothing and exits
    on that error.  Otherwise it prints, for each entry of
    [localDependencies] in order, the path with the stored range and then
    the name its package.json declares, [undefined] when it declares none,
    or the not-found marker: an entry that cannot be resolved never stops
    the listing.  A stored range that does not convert does: the entries
    before it are printed, and the command exits on a [TypeError]. *)
Theorem list_shows_entries w :
  snd (list_action w) = w
  /\ (forall e, readPackageJson cwd w = (Throw e, w) ->
       fst (list_action w) = ([], Exit1 e))
  /\ (forall M,
        readPackageJson cwd w = (Ok M, w) ->
        M <> VUndef -> M <> VNull ->
        (local_entries M = [] ->
         fst (list_action w) = ([LNoLocalDependencies], Done tt))
        /\ (local_entries M <> [] ->
            (forall d, In d (local_entries M) -> JS.converts (snd d) = true) ->
            fst (list_action w) =
            (flat_map (fun d => shown w (fst d) (snd d)) (local_entries M),
             Done tt))
        /\ (forall before lp v after,
              local_entries M = before ++ (lp, v) :: after ->
              (forall d, In d before -> JS.converts (snd d) = true) ->
              JS.converts v = false ->
              fst (list_action w) =
              (flat_map (fun d => shown w (fst d) (snd d)) before,
               Exit1 TypeError))).
Proof.
  destruct (readPackageJson cwd w) as [r w0] eqn:R.
  pose proof (readPackageJson_pure _ _ _ _ R); subst w0.
  assert (Same : forall deps w0, snd (list_entries deps w0) = w0).
  { induction deps as [|[lp v] rest IH]; intros w0; [reflexivity|].
    simpl list_entries. rewrite list_entry_shown.
    destruct (JS.converts v); [|reflexivity].
    specialize (IH w0). destruct (list_entries rest w0) as [[below r0] w2].
    assumption. }
  destruct r as [M|e0].
  - split; [|split; [discriminate|]].
    + unfold list_action, bind at 1. rewrite R. unfold lift.
      destruct (JS.get M "localDependencies") as [ld|]; [|reflexivity].
      destruct (JS.truthy ld); [|reflexivity]. cbn [negb].
      destruct (JS.entries ld) as [es|]; [|reflexivity].
      destruct (length es =? 0)%nat; [reflexivity|].
      specialize (Same es w).
      destruct (list_entries es w) as [[lines [[]|e]] w2]; assumption.
    + intros M0 H0 Hu Hn. inversion H0; subst M0.
      rewrite (list_action_unfold w M R Hu Hn).
      split; [intros ->; reflexivity|]. split.
      * intros Hne Hc.
        destruct (local_entries M) as [|e0 es] eqn:Ed; [congruence|].
        rewrite <- Ed in *. now rewrite list_entries_all.
      * intros before lp v after Ed Hc C. rewrite Ed.
        rewrite list_entries_until by assumption.
        destruct before; reflexivity.
  - assert (L : list_action w = ([], Exit1 e0, w))
      by (unfold list_action, bind at 1; now rewrite R).
    rewrite L. split; [reflexivity|]. split; [|discriminate].
    intros e H. inversion H. reflexivity.
Qed.

End Further.

(** * The properties on a POSIX file system *)

Import Posix.

(** The install scenario of the specification. *)
Example install_scenario :
  let r := installSingle (E := env_ok) "../lib" (start app_manifest lib_manifest) in
  fst r = Done tt
  /\ manifest_of (snd r) = Some app_linked
  /\ w_log (snd r) =
     [register "/home/dev/lib"; consume (VStr "lib") "/home/dev/app";
      EWrite "/home/dev/app/package.json" app_linked].
Proof. repeat split. Qed.

(** The unlink scenario of the specification. *)
Example unlink_scenario :
  let r := unlinkDependency (E := env_ok) "../lib" (start app_linked lib_manifest) in
  fst r = Done tt
  /\ manifest_of (snd r) =
     Some (VObj [("name", VStr "app"); ("version", VStr "1.0.0");
                 ("dependencies", VObj []); ("localDependencies", VObj [])]).
Proof. repeat split. Qed.

(** ** Single install *)

(** C1, on the code.  A single install of the dependency in the directory
    [__proto__] succeeds, and the manifest it writes has no entry under
    that path: [localDependencies] is created and left empty, for the
    assignment at index.js 153 reaches the setter every object inherits
    under that key.  The entry of [dependencies] is recorded. *)
Theorem install_path_proto_not_recorded :
  let r := installSingle (E := env_ok) "__proto__"
             (mkWorld (disk_inside app_manifest lib_manifest) []) in
  fst r = Done tt
  /\ w_log (snd r) =
     [register "/home/dev/app/__proto__";
      consume (VStr "lib") "/home/dev/app";
      EWrite "/home/dev/app/package.json" app_linked_inside]
  /\ manifest_of (snd r) = Some app_linked_inside
  /\ entry app_linked_inside "dependencies" "lib" = VStr "^2.3.0"
  /\ field app_linked_inside "localDependencies" = VObj []
  /\ entry app_linked_inside "localDependencies" "__proto__" = VUndef.
Proof. repeat split. Qed.

Lemma install_records_witness :
  exists M',
    readPackageJson (E := env_ok) home
      (snd (installSingle (E := env_ok) "../lib"
              (start app_manifest lib_manifest))) =
    (Ok M', snd (installSingle (E := env_ok) "../lib"
                   (start app_manifest lib_manifest)))
    /\ entry M' "dependencies" "lib" = VStr "^2.3.0"
    /\ entry M' "localDependencies" "../lib" = VStr "^2.3.0".
Proof.
  destruct (install_records (E := env_ok) "../lib"
              (start app_manifest lib_manifest) _ lib_manifest
              (VStr "lib") (VStr "2.3.0") app_manifest
              eq_refl eq_refl eq_refl eq_refl eq_refl eq_refl)
    as (M' & Hr & Hd & Hl & _).
  exists M'. split; [exact Hr|]. split.
  - apply Hd. discriminate.
  - apply Hl. discriminate.
Defined.

Lemma install_frame_witness :
  exists M',
    readPackageJson (E := env_ok) home
      (snd (installSingle (E := env_ok) "../lib"
              (start app_unrelated lib_manifest))) =
    (Ok M', snd (installSingle (E := env_ok) "../lib"
                   (start app_unrelated lib_manifest)))
    /\ field M' "name" = VStr "app"
    /\ entry M' "dependencies" "left-pad" = VStr "^1.3.0"
    /\ field M' "localDependencies" = VObj [("../lib", VStr "^2.3.0")].
Proof.
  destruct (install_frame (E := env_ok) "../lib"
              (start app_unrelated lib_manifest) _ lib_manifest
              (VStr "lib") (VStr "2.3.0") app_unrelated
              eq_refl eq_refl eq_refl eq_refl eq_refl eq_refl)
    as (M' & Hr & Hf & Hd & _ & _ & Hl).
  exists M'. split; [exact Hr|]. split; [|split].
  - apply (Hf "name"); [discriminate|discriminate|reflexivity].
  - apply (Hd "left-pad"); [discriminate|reflexivity].
  - apply Hl. reflexivity.
Defined.

(** C9, as stated, fails: the consumer manifest has the number [1e400]
    under the key [big], an install succeeds, and the manifest it writes
    has [null] there. *)
Lemma install_rewrites_overflowing_number :
  exists w' M',
    installSingle (E := env_ok) "../lib" (start app_big lib_manifest) =
    (Done tt, w')
    /\ readPackageJson (E := env_ok) home w' = (Ok M', w')
    /\ "big" <> "dependencies" /\ "big" <> "localDependencies"
    /\ field app_big "big" = VNum "Infinity"
    /\ field M' "big" = VNull
    /\ field M' "big" <> field app_big "big".
Proof.
  eexists. eexists. split; [reflexivity|]. split; [reflexivity|].
  repeat split; discriminate.
Qed.

Lemma install_without_version_witness :
  exists M',
    readPackageJson (E := env_ok) home
      (snd (installSingle (E := env_ok) "../lib"
              (start app_manifest lib_without_version))) =
    (Ok M', snd (installSingle (E := env_ok) "../lib"
                   (start app_manifest lib_without_version)))
    /\ entry M' "dependencies" (JS.to_string (VStr "lib")) = VStr "^undefined"
    /\ entry M' "localDependencies" "../lib" = VStr "^undefined"
    /\ String.length "^undefined" = 10.
Proof.
  apply (install_without_version (E := env_ok) "../lib"
           (start app_manifest lib_without_version) _ lib_without_version
           (VStr "lib") app_manifest);
    try reflexivity; discriminate.
Defined.

(** C8, as stated, fails: the string stored for a dependency without a
    version is [^undefined], and it does not have eight characters. *)
Lemma install_without_version_not_eight :
  exists w' M',
    installSingle (E := env_ok) "../lib"
      (start app_manifest lib_without_version) = (Done tt, w')
    /\ readPackageJson (E := env_ok) home w' = (Ok M', w')
    /\ entry M' "dependencies" "lib" = VStr "^undefined"
    /\ entry M' "localDependencies" "../lib" = VStr "^undefined"
    /\ String.length "^undefined" <> 8.
Proof.
  eexists. eexists. split; [reflexivity|]. split; [reflexivity|].
  repeat split. discriminate.
Qed.

Lemma install_missing_name_witness :
  installSingle (E := env_ok) "../lib" (start app_manifest lib_without_name) =
  (Exit1 (NoPackageNameFound "/home/dev/lib/package.json"),
   start app_manifest lib_without_name).
Proof.
  apply (install_missing_name (E := env_ok) "../lib"
           (start app_manifest lib_without_name) lib_without_name);
    [vm_compute; discriminate|reflexivity|reflexivity].
Defined.

Lemma register_before_consume_witness :
  installSingle (E := env_register_fails) "../lib"
    (start app_manifest lib_manifest) =
  (Exit1 (ExecError "npm" [VStr "link"] "/home/dev/lib"),
   mkWorld (disk app_manifest lib_manifest) [register "/home/dev/lib"]).
Proof.
  apply (proj2 (proj2 (register_before_consume (E := env_register_fails)
                         "../lib" (start app_manifest lib_manifest)))
           lib_manifest (VStr "lib") (VStr "2.3.0")
           (disk app_manifest lib_manifest));
    [vm_compute; discriminate|reflexivity..].
Defined.

(** The log of the install scenario: the register step, the consume step
    with the name of the dependency, the write. *)
Example register_before_consume_scenario :
  w_log (snd (installSingle (E := env_ok) "../lib"
                (start app_manifest lib_manifest))) =
  [register "/home/dev/lib"; consume (VStr "lib") "/home/dev/app";
   EWrite "/home/dev/app/package.json" app_linked].
Proof. reflexivity. Qed.

(** ** Unlink *)

Lemma uninstall_idempotent_witness :
  applyUninstall
    (VObj [("name", VStr "app"); ("version", VStr "1.0.0");
           ("dependencies", VObj []); ("localDependencies", VObj [])])
    (VStr "lib") "../lib" =
  Ok (VObj [("name", VStr "app"); ("version", VStr "1.0.0");
            ("dependencies", VObj []); ("localDependencies", VObj [])]).
Proof.
  apply (proj1 (uninstall_idempotent app_linked (VStr "lib") "../lib")).
  reflexivity.
Defined.

Lemma unlink_matches_path_string_witness :
  exists M',
    readPackageJson (E := env_ok) home
      (snd (unlinkDependency (E := env_ok) "../lib"
              (start app_aliased_caret lib_manifest))) =
    (Ok M', snd (unlinkDependency (E := env_ok) "../lib"
                   (start app_aliased_caret lib_manifest)))
    /\ entry M' "localDependencies" "./../lib" = VStr "^2.3.0"
    /\ entry M' "dependencies" "lib" = VUndef.
Proof.
  destruct (unlink_matches_path_string (E := env_ok) "../lib"
              (start app_aliased_caret lib_manifest) _ lib_manifest
              (VStr "lib") app_aliased_caret
              eq_refl eq_refl eq_refl eq_refl eq_refl)
    as (M' & Hr & Hl & _ & _ & Hd).
  exists M'. split; [exact Hr|]. split.
  - apply (Hl "./../lib"). discriminate.
  - apply Hd. reflexivity.
Defined.

(** C10, on the code.  The key stored in [localDependencies] is another
    spelling of the path given to unlink, the range stored for the
    dependency is the empty string, and the unlink succeeds: the entry of
    [localDependencies] is left in place, and so is the entry of
    [dependencies], which the guard at index.js 280 takes for absent. *)
Theorem unlink_keeps_falsy_range :
  ("./../lib" =? "../lib") = false
  /\ resolve home "./../lib" = resolve home "../lib"
  /\ exists w' M',
      unlinkDependency (E := env_ok) "../lib"
        (start app_aliased lib_manifest) = (Done tt, w')
      /\ readPackageJson (E := env_ok) home w' = (Ok M', w')
      /\ entry M' "localDependencies" "./../lib" = VStr "^2.3.0"
      /\ JS.lookup "lib" (props_of (field M' "dependencies")) =
         Some (VStr "").
Proof.
  split; [reflexivity|]. split; [reflexivity|].
  eexists. eexists. split; [reflexivity|]. split; [reflexivity|].
  split; reflexivity.
Qed.

Lemma unlink_missing_name_runs_release_witness :
  (exists evs,
      w_log (snd (unlinkDependency (E := env_ok) "../lib"
                    (start app_linked lib_without_name))) =
      [] ++ release VUndef "/home/dev/app" :: evs)
  /\ forall packageJsonPath,
      fst (unlinkDependency (E := env_ok) "../lib"
             (start app_linked lib_without_name)) <>
      Exit1 (NoPackageNameFound packageJsonPath).
Proof.
  apply (unlink_missing_name_runs_release (E := env_ok) "../lib"
           (start app_linked lib_without_name) lib_without_name);
    reflexivity.
Defined.

(** C5 at its failing input: the manifest of the dependency has no name;
    the unlink runs [npm unlink undefined], rewrites the consumer manifest
    without its [localDependencies] entry, and ends normally. *)
Example unlink_missing_name_scenario :
  let r := unlinkDependency (E := env_ok) "../lib"
             (start app_linked lib_without_name) in
  fst r = Done tt
  /\ w_log (snd r) =
     [release VUndef "/home/dev/app";
      EWrite "/home/dev/app/package.json"
        (VObj [("name", VStr "app"); ("version", VStr "1.0.0");
               ("dependencies", VObj [("lib", VStr "^2.3.0")]);
               ("localDependencies", VObj [])])]
  /\ manifest_of (snd r) =
     Some (VObj [("name", VStr "app"); ("version", VStr "1.0.0");
                 ("dependencies", VObj [("lib", VStr "^2.3.0")]);
                 ("localDependencies", VObj [])]).
Proof. repeat split. Qed.

(** ** Bulk install *)

Lemma bulk_install_counts_witness :
  installAll (E := env_ok) (start app_two lib_manifest) =
  (Done (Summary 1 1),
   written_world (E := env_ok) home
     (packageJson
        (fst (install_entries (E := env_ok) (local_entries app_two)
                (mkLoop app_two 0 0) (start app_two lib_manifest))))
     (snd (install_entries (E := env_ok) (local_entries app_two)
             (mkLoop app_two 0 0) (start app_two lib_manifest)))).
Proof.
  destruct (bulk_install_counts (E := env_ok) (start app_two lib_manifest)
              app_two eq_refl eq_refl) as [_ H].
  destruct (H ltac:(vm_compute; lia)) as (_ & _ & _ & _ & _ & W & _).
  apply W; [vm_compute; lia|reflexivity].
Defined.

(** The bulk install of [app_two]: one link succeeds, one fails, and the
    manifest written has the stale range of [localDependencies] as it was. *)
Example bulk_install_scenario :
  let r := installAll (E := env_ok) (start app_two lib_manifest) in
  fst r = Done (Summary 1 1)
  /\ manifest_of (snd r) =
     Some (VObj [("name", VStr "app"); ("version", VStr "1.0.0");
                 ("localDependencies",
                  VObj [("../lib", VStr "^1.0.0");
                        ("../missing", VStr "^0.1.0")]);
                 ("dependencies", VObj [("lib", VStr "^2.3.0")])])
  /\ w_log (snd r) =
     [register "/home/dev/lib"; consume (VStr "lib") "/home/dev/app";
      EFailed (PathDoesNotExist "/home/dev/missing");
      EWrite "/home/dev/app/package.json"
        (VObj [("name", VStr "app"); ("version", VStr "1.0.0");
               ("localDependencies",
                VObj [("../lib", VStr "^1.0.0");
                      ("../missing", VStr "^0.1.0")]);
               ("dependencies", VObj [("lib", VStr "^2.3.0")])])].
Proof. repeat split. Qed.

(** A bulk install whose one write fails exits on that error, after the
    links have run. *)
Example bulk_install_readonly_scenario :
  let r := installAll (E := env_readonly) (start app_two lib_manifest) in
  fst r = Exit1 (WriteError "/home/dev/app/package.json")
  /\ manifest_of (snd r) = None.
Proof. repeat split. Qed.

(** C3, on the code.  A bulk install over one entry whose dependency
    declares the name [__proto__]: the link succeeds and is counted as a
    success, and the manifest written has no entry under that name:
    [dependencies] is created and left empty, for the assignment at
    index.js 222 reaches the setter every object inherits under that key.
    The entry of [localDependencies] is as it was. *)
Theorem bulk_install_name_proto_not_recorded :
  let r := installAll (E := env_ok) (start app_one lib_proto) in
  fst r = Done (Summary 1 0)
  /\ w_log (snd r) =
     [register "/home/dev/lib"; consume (VStr "__proto__") "/home/dev/app";
      EWrite "/home/dev/app/package.json" app_one_proto]
  /\ manifest_of (snd r) = Some app_one_proto
  /\ field app_one_proto "dependencies" = VObj []
  /\ entry app_one_proto "dependencies" "__proto__" = VUndef
  /\ field app_one_proto "localDependencies" =
     field app_one "localDependencies".
Proof. repeat split. Qed.

Lemma bulk_entry_witness :
  exists pj,
    install_entry (E := env_ok) (mkLoop app_two 0 0) "../lib"
      (start app_two lib_manifest) =
    (mkLoop pj 1 0,
     snd (linkLocalDependency (E := env_ok) "../lib" home
            (start app_two lib_manifest)))
    /\ entry pj "dependencies" "lib" = VStr "^2.3.0"
    /\ field pj "localDependencies" = field app_two "localDependencies".
Proof.
  destruct (proj1 (bulk_entry (E := env_ok) (mkLoop app_two 0 0) "../lib"
                     (VStr "^1.0.0") [("../missing", VStr "^0.1.0")]
                     (start app_two lib_manifest))
              (mkDepInfo (VStr "lib") (VStr "2.3.0") "../lib") _
              eq_refl eq_refl)
    as (pj & Hs & Hd & _ & Hl & _).
  exists pj. split; [exact Hs|]. split; [|exact Hl].
  apply Hd. discriminate.
Defined.

(** ** The further properties on the same file system *)

Lemma write_then_read_witness :
  readPackageJson (E := env_ok) home
    (snd (writePackageJson (E := env_ok) home app_linked
            (start app_manifest lib_manifest))) =
  (Ok app_linked,
   snd (writePackageJson (E := env_ok) home app_linked
          (start app_manifest lib_manifest))).
Proof.
  destruct (write_then_read (E := env_ok) home app_linked
              (start app_manifest lib_manifest) _ eq_refl)
    as (_ & H & _); [discriminate|].
  apply H. reflexivity.
Defined.

(** The number [1e400] is read back as [null]. *)
Example write_then_read_overflow :
  readPackageJson (E := env_ok) home
    (snd (writePackageJson (E := env_ok) home app_big
            (start app_manifest lib_manifest))) =
  (Ok (VObj [("name", VStr "app"); ("version", VStr "1.0.0");
             ("big", VNull)]),
   snd (writePackageJson (E := env_ok) home app_big
          (start app_manifest lib_manifest))).
Proof. reflexivity. Qed.

Lemma update_failure_witness :
  snd (updatePackageJson (E := env_ok) "/home/dev/none"
         (mkDepInfo (VStr "lib") (VStr "2.3.0") "../lib")
         (start app_manifest lib_manifest)) =
  start app_manifest lib_manifest.
Proof.
  apply (proj1 (update_failure (E := env_ok) "/home/dev/none"
                  (mkDepInfo (VStr "lib") (VStr "2.3.0") "../lib")
                  (start app_manifest lib_manifest)
                  (NoPackageJsonFound "/home/dev/none/package.json")
                  _ eq_refl)).
  discriminate.
Defined.

(** An update whose write fails after the file was opened leaves it
    empty. *)
Example update_failure_scenario :
  let r := updatePackageJson (E := env_readonly) home
             (mkDepInfo (VStr "lib") (VStr "2.3.0") "../lib")
             (start app_manifest lib_manifest) in
  fst r = Throw (WriteError "/home/dev/app/package.json")
  /\ w_fs (snd r) "/home/dev/app/package.json" = Some (NFile None).
Proof. repeat split. Qed.

Lemma link_failure_before_npm_witness :
  snd (linkLocalDependency (E := env_ok) "../missing" home
         (start app_manifest lib_manifest)) =
  start app_manifest lib_manifest.
Proof.
  apply (link_failure_before_npm (E := env_ok) "../missing" home
           (start app_manifest lib_manifest)
           (PathDoesNotExist "/home/dev/missing"));
    [reflexivity|intros c a d; discriminate].
Defined.

Lemma link_success_means_witness :
  exists dep f1,
    disk app_manifest lib_manifest "/home/dev/lib" <> None
    /\ readPackageJson (E := env_ok) "/home/dev/lib"
         (start app_manifest lib_manifest) =
       (Ok dep, start app_manifest lib_manifest)
    /\ JS.get dep "name" = Ok (VStr "lib")
    /\ JS.get dep "version" = Ok (VStr "2.3.0")
    /\ JS.truthy (VStr "lib") = true
    /\ "../lib" = "../lib"
    /\ npm_ok "npm" [VStr "link"] "/home/dev/lib"
         (disk app_manifest lib_manifest) = (true, f1)
    /\ npm_ok "npm" [VStr "link"; VStr "lib"] home f1 =
       (true, disk app_manifest lib_manifest)
    /\ [register "/home/dev/lib"; consume (VStr "lib") home] =
       [] ++ [register "/home/dev/lib"; consume (VStr "lib") home].
Proof.
  apply (link_success_means (E := env_ok) "../lib" home
           (start app_manifest lib_manifest)
           (mkDepInfo (VStr "lib") (VStr "2.3.0") "../lib")
           (mkWorld (disk app_manifest lib_manifest)
              [register "/home/dev/lib"; consume (VStr "lib") home])).
  reflexivity.
Defined.

Lemma link_success_printable_witness :
  JS.converts (VStr "lib") = true /\ JS.converts (VStr "2.3.0") = true
  /\ JS.to_text (VStr "lib") = Ok "lib"
  /\ JS.to_text (VStr "2.3.0") = Ok "2.3.0".
Proof.
  apply (link_success_printable (E := env_ok) "../lib" home
           (start app_manifest lib_manifest)
           (mkDepInfo (VStr "lib") (VStr "2.3.0") "../lib")
           (mkWorld (disk app_manifest lib_manifest)
              [register "/home/dev/lib"; consume (VStr "lib") home])).
  reflexivity.
Defined.

Lemma consume_failure_leaves_registration_witness :
  installSingle (E := env_consumer_fails) "../lib"
    (start app_manifest lib_manifest) =
  (Exit1 (ExecError "npm" [VStr "link"; VStr "lib"] "/home/dev/app"),
   mkWorld (disk app_manifest lib_manifest)
     ([] ++ [register "/home/dev/lib"; consume (VStr "lib") "/home/dev/app"])).
Proof.
  apply (consume_failure_leaves_registration (E := env_consumer_fails)
           "../lib" (start app_manifest lib_manifest) lib_manifest
           (VStr "lib") (VStr "2.3.0") (disk app_manifest lib_manifest)
           (disk app_manifest lib_manifest));
    [vm_compute; discriminate|reflexivity..].
Defined.

Lemma install_unprintable_witness :
  installSingle (E := env_ok) "../lib"
    (start app_manifest lib_unprintable_version) =
  (Exit1 TypeError, start app_manifest lib_unprintable_version).
Proof.
  apply (install_unprintable (E := env_ok) "../lib"
           (start app_manifest lib_unprintable_version)
           lib_unprintable_version (VStr "lib") unprintable);
    [vm_compute; discriminate|reflexivity..].
Defined.

Lemma install_failure_witness :
  snd (installSingle (E := env_consumer_fails) "../lib"
         (start app_manifest lib_manifest)) =
  snd (linkLocalDependency (E := env_consumer_fails) "../lib" home
         (start app_manifest lib_manifest)).
Proof.
  apply (proj1 (install_failure (E := env_consumer_fails) "../lib"
                  (start app_manifest lib_manifest)
                  (ExecError "npm" [VStr "link"; VStr "lib"] "/home/dev/app")
                  _ eq_refl)).
  discriminate.
Defined.

Lemma install_twice_witness :
  applyInstall app_linked (mkDepInfo (VStr "lib") (VStr "2.3.0") "../lib") =
  Ok app_linked.
Proof.
  apply (proj1 (install_twice (E := env_ok) app_manifest
                  (mkDepInfo (VStr "lib") (VStr "2.3.0") "../lib"))).
  reflexivity.
Defined.

Lemma uninstall_after_install_witness :
  exists M1 M2,
    applyInstall app_unrelated
      (mkDepInfo (VStr "lib") (VStr "2.3.0") "../lib") = Ok M1
    /\ applyUninstall M1 (VStr "lib") "../lib" = Ok M2
    /\ entry M2 "dependencies" "lib" = VUndef
    /\ entry M2 "localDependencies" "../lib" = VUndef
    /\ (forall q, q <> "lib" ->
        entry M2 "dependencies" q = entry app_unrelated "dependencies" q)
    /\ (forall q, q <> "../lib" ->
        entry M2 "localDependencies" q =
        entry app_unrelated "localDependencies" q)
    /\ (forall k, k <> "dependencies" -> k <> "localDependencies" ->
        field M2 k = field app_unrelated k)
    /\ is_object (field M2 "dependencies") = true
    /\ is_object (field M2 "localDependencies") = true.
Proof.
  apply (uninstall_after_install app_unrelated
           (mkDepInfo (VStr "lib") (VStr "2.3.0") "../lib")).
  reflexivity.
Defined.

Lemma unlink_unprintable_witness :
  unlinkDependency (E := env_ok) "../lib"
    (start app_linked lib_unprintable_name) =
  (Exit1 TypeError, start app_linked lib_unprintable_name).
Proof.
  apply (unlink_unprintable (E := env_ok) "../lib"
           (start app_linked lib_unprintable_name)
           lib_unprintable_name unprintable); reflexivity.
Defined.

Lemma unlink_failure_witness :
  snd (unlinkDependency (E := env_consumer_fails) "../lib"
         (start app_linked lib_manifest)) =
  start app_linked lib_manifest
  \/ exists n,
      (w_fs (snd (unlinkDependency (E := env_consumer_fails) "../lib"
                    (start app_linked lib_manifest))) =
       snd (npm_failing_in "/home/dev/app" "npm" [VStr "unlink"; n] home
              (disk app_linked lib_manifest))
       /\ w_log (snd (unlinkDependency (E := env_consumer_fails) "../lib"
                        (start app_linked lib_manifest))) =
          [] ++ [release n home])
      \/ (ExecError "npm" [VStr "unlink"; VStr "lib"] "/home/dev/app" =
          WriteError "/home/dev/app/package.json"
          /\ (forall q, q <> "/home/dev/app/package.json" ->
                w_fs (snd (unlinkDependency (E := env_consumer_fails)
                             "../lib" (start app_linked lib_manifest))) q =
                snd (npm_failing_in "/home/dev/app" "npm"
                       [VStr "unlink"; n] home
                       (disk app_linked lib_manifest)) q)
          /\ exists M,
               w_log (snd (unlinkDependency (E := env_consumer_fails)
                             "../lib" (start app_linked lib_manifest))) =
               [] ++ [release n home;
                      EWrite "/home/dev/app/package.json" M]).
Proof.
  apply (unlink_failure (E := env_consumer_fails) "../lib"
           (start app_linked lib_manifest)
           (ExecError "npm" [VStr "unlink"; VStr "lib"] "/home/dev/app")).
  reflexivity.
Defined.

Lemma unlink_unrecorded_witness :
  readPackageJson (E := env_ok) home
    (snd (unlinkDependency (E := env_ok) "../lib"
            (start app_unrelated lib_manifest))) =
  (Ok app_unrelated,
   snd (unlinkDependency (E := env_ok) "../lib"
          (start app_unrelated lib_manifest))).
Proof.
  destruct (unlink_unrecorded (E := env_ok) "../lib"
              (start app_unrelated lib_manifest) _ lib_manifest (VStr "lib")
              app_unrelated eq_refl eq_refl eq_refl eq_refl eq_refl
              eq_refl eq_refl)
    as (_ & H & _).
  apply H. reflexivity.
Defined.

Lemma bulk_install_exits_witness :
  (readPackageJson (E := env_ok) home (mkWorld no_files []) =
   (Throw (NoPackageJsonFound "/home/dev/app/package.json"),
    mkWorld no_files [])
   /\ mkWorld no_files [] = mkWorld no_files [])
  \/ (exists M,
        readPackageJson (E := env_ok) home (mkWorld no_files []) =
        (Ok M, mkWorld no_files [])
        /\ JS.get M "localDependencies" = Throw TypeError
        /\ NoPackageJsonFound "/home/dev/app/package.json" = TypeError
        /\ mkWorld no_files [] = mkWorld no_files [])
  \/ (NoPackageJsonFound "/home/dev/app/package.json" =
      WriteError "/home/dev/app/package.json"
      /\ exists M, In (EWrite "/home/dev/app/package.json" M) []).
Proof.
  apply (bulk_install_exits (E := env_ok) (mkWorld no_files [])
           (NoPackageJsonFound "/home/dev/app/package.json")
           (mkWorld no_files [])).
  reflexivity.
Defined.

Lemma bulk_install_primitive_dependencies_witness :
  fst (installAll (E := env_ok) (start app_broken lib_manifest)) =
  Done (Summary 0 1)
  /\ filter is_write
       (w_log (snd (installAll (E := env_ok) (start app_broken lib_manifest)))) =
     filter is_write [].
Proof.
  apply (bulk_install_primitive_dependencies (E := env_ok)
           (start app_broken lib_manifest) app_broken);
    [reflexivity|reflexivity|reflexivity|discriminate|].
  intros d [<-|[]]. discriminate.
Defined.

(** The links of the bulk install of [app_broken] did run. *)
Example bulk_install_primitive_scenario :
  w_log (snd (installAll (E := env_ok) (start app_broken lib_manifest))) =
  [register "/home/dev/lib"; consume (VStr "lib") "/home/dev/app";
   EFailed TypeError].
Proof. reflexivity. Qed.

(** The exception: the dependency is named [__proto__], the assignment
    into the string throws nothing, the link counts as a success and the
    manifest is written back as it was. *)
Example bulk_install_primitive_proto :
  let r := installAll (E := env_ok) (start app_broken lib_proto) in
  fst r = Done (Summary 1 0)
  /\ manifest_of (snd r) = Some app_broken
  /\ filter is_write (w_log (snd r)) =
     [EWrite "/home/dev/app/package.json" app_broken].
Proof. repeat split. Qed.


Lemma list_shows_entries_witness :
  fst (list_action (E := env_ok) (start app_two lib_manifest)) =
  ([LEntry "../lib" "^1.0.0"; LName "lib";
    LEntry "../missing" "^0.1.0"; LNotFound], Done tt).
Proof.
  destruct (proj2 (proj2 (list_shows_entries (E := env_ok)
                            (start app_two lib_manifest)))
              app_two eq_refl) as (_ & H & _);
    [discriminate|discriminate|].
  apply H; [discriminate|].
  intros d [<-|[<-|[]]]; reflexivity.
Defined.

(** A dependency whose manifest declares no name is listed as
    [undefined]. *)
Example list_without_name :
  list_action (E := env_ok) (start app_linked lib_without_name) =
  ([LEntry "../lib" "^2.3.0"; LName "undefined"], Done tt,
   start app_linked lib_without_name).
Proof. reflexivity. Qed.

(** A stored range that does not convert stops the listing: the entry
    before it is printed, the one after it is not. *)
Example list_unprintable_range :
  list_action (E := env_ok) (start app_odd lib_manifest) =
  ([LEntry "../lib" "^1.0.0"; LName "lib"], Exit1 TypeError,
   start app_odd lib_manifest).
Proof. reflexivity. Qed.

(** A declared name that does not convert is listed as not found. *)
Example list_unprintable_name :
  list_action (E := env_ok) (start app_linked lib_unprintable_name) =
  ([LEntry "../lib" "^2.3.0"; LNotFound], Done tt,
   start app_linked lib_unprintable_name).
Proof. reflexivity. Qed.
